(** * Quantity breaks: the discount-rule reconciliation engine

    A shallow embedding of the server side of the quantity-breaks app:
    - [quantity-breaks.server]: [parseDiscountConfig], [normalizeProductIds],
      [getRuleProductIds], [buildProductTierProjection], [chunkArray],
      [recomputeProductDiscountProjectionMetafields];
    - the rule page's [action] ("delete-rule" and "update-rule-settings");
    - the index page's [action] ("add-discount").

    Conventions of the embedding.
    - JavaScript values are the inductive [value]; numbers are the integers
      ([Num z], unbounded, no IEEE rounding) and [NaN]; a number obtained with
      [Number(...)] is an exact rational ([option Q], [None] for NaN and the
      infinities).
    - Strings are Rocq strings; character classes ([\s], [toLowerCase]) are the
      ASCII ones.
    - [admin.graphql] is a function from the calls made so far and the
      present call to the response; an action is a function of it that
      returns its result together with the calls it made, in order.
    - Each [return] of an action carries the place it returns from ([site]),
      which is not part of the JavaScript value.
    - An uncaught [TypeError] is the outcome [Threw]. *)

From Stdlib Require Import List String Ascii ZArith QArith Bool Lia.
From Stdlib Require Import Permutation Sorted DecimalString OrderedTypeEx.
From Stdlib Require Import DecimalPos.
Import ListNotations.

Local Open Scope string_scope.
Local Open Scope list_scope.
Local Open Scope Z_scope.

Set Warnings "-register-all".

(** ** JavaScript values and the coercions the code relies on *)

Module Js.

Inductive value : Type :=
| Undefined
| Null
| Bool (b : bool)
| Num (z : Z)
| NaN
| Str (s : string)
| Arr (items : list value)
| Obj (fields : list (string * value)).

(** [if (v)], [!v], [Boolean(v)] *)
Definition truthy (v : value) : bool :=
  match v with
  | Undefined | Null | NaN => false
  | Bool b => b
  | Num z => negb (z =? 0)
  | Str s => negb (s =? "")%string
  | Arr _ | Obj _ => true
  end.

(** [a || b] *)
Definition or_else (a b : value) : value := if truthy a then a else b.

(** [a ?? b] *)
Definition nullish (a b : value) : value :=
  match a with
  | Undefined | Null => b
  | _ => a
  end.

Fixpoint lookup (k : string) (fields : list (string * value)) : value :=
  match fields with
  | [] => Undefined
  | (k', v) :: rest => if (k =? k')%string then v else lookup k rest
  end.

(** [v?.k]; also [v.k] wherever [v] is known not to be null or undefined.
    Only own data properties of objects are read this way in the code. *)
Definition get (k : string) (v : value) : value :=
  match v with
  | Obj fields => lookup k fields
  | _ => Undefined
  end.

(** Assignment of one key in an object literal: an existing key keeps its
    place, a new one goes last. *)
Fixpoint assign (k : string) (v : value) (fields : list (string * value))
  : list (string * value) :=
  match fields with
  | [] => [(k, v)]
  | (k', v') :: rest =>
      if (k =? k')%string then (k, v) :: rest else (k', v') :: assign k v rest
  end.

Definition string_of_nat (n : nat) : string :=
  NilZero.string_of_int (Z.to_int (Z.of_nat n)).

Fixpoint index_fields (i : nat) (items : list value) : list (string * value) :=
  match items with
  | [] => []
  | x :: rest => (string_of_nat i, x) :: index_fields (S i) rest
  end.

Fixpoint chars (s : string) : list value :=
  match s with
  | EmptyString => []
  | String c rest => Str (String c EmptyString) :: chars rest
  end.

(** [{ ...v }]: the own enumerable properties of [v]. *)
Definition spread (v : value) : list (string * value) :=
  match v with
  | Obj fields => fields
  | Arr items => index_fields 0 items
  | Str s => index_fields 0 (chars s)
  | _ => []
  end.

(** [Array.isArray(v) ? v : []] *)
Definition as_array (v : value) : list value :=
  match v with
  | Arr items => items
  | _ => []
  end.

Definition is_string (v : value) : bool :=
  match v with Str _ => true | _ => false end.

(** [typeof v === "string" && v.length > 0] *)
Definition nonempty_string (v : value) : bool :=
  match v with
  | Str s => negb (s =? "")%string
  | _ => false
  end.

Definition string_of_Z (z : Z) : string := NilZero.string_of_int (Z.to_int z).

(** [String(v)] *)
Fixpoint String_ (v : value) : string :=
  match v with
  | Undefined => "undefined"
  | Null => "null"
  | Bool true => "true"
  | Bool false => "false"
  | Num z => string_of_Z z
  | NaN => "NaN"
  | Str s => s
  | Arr items =>
      (fix join (l : list value) : string :=
         match l with
         | [] => ""
         | x :: rest =>
             let sx := match x with
                       | Undefined | Null => ""
                       | _ => String_ x
                       end in
             match rest with
             | [] => sx
             | _ :: _ => (sx ++ "," ++ join rest)%string
             end
         end) items
  | Obj _ => "[object Object]"
  end.

(** *** Strings *)

Definition is_space (c : ascii) : bool :=
  let n := nat_of_ascii c in
  ((9 <=? n) && (n <=? 13) || (n =? 32))%nat.

Definition is_digit (c : ascii) : bool :=
  let n := nat_of_ascii c in ((48 <=? n) && (n <=? 57))%nat.

Definition is_lower (c : ascii) : bool :=
  let n := nat_of_ascii c in ((97 <=? n) && (n <=? 122))%nat.

Definition is_upper (c : ascii) : bool :=
  let n := nat_of_ascii c in ((65 <=? n) && (n <=? 90))%nat.

Definition lower (c : ascii) : ascii :=
  if is_upper c then ascii_of_nat (nat_of_ascii c + 32) else c.

Fixpoint drop_spaces (l : list ascii) : list ascii :=
  match l with
  | c :: rest => if is_space c then drop_spaces rest else l
  | [] => []
  end.

Definition trim_list (l : list ascii) : list ascii :=
  rev (drop_spaces (rev (drop_spaces l))).

(** [s.trim()] *)
Definition trim (s : string) : string :=
  string_of_list_ascii (trim_list (list_ascii_of_string s)).

(** [s.toLowerCase()] *)
Definition toLowerCase (s : string) : string :=
  string_of_list_ascii (map lower (list_ascii_of_string s)).

(** [s.startsWith(p)] *)
Definition startsWith (p s : string) : bool := String.prefix p s.

(** [s.replace(/c+/g, "-")] for a character class [cls]: every maximal run
    of characters of the class becomes one hyphen. *)
Fixpoint replace_runs (cls : ascii -> bool) (in_run : bool) (l : list ascii)
  : list ascii :=
  match l with
  | [] => []
  | c :: rest =>
      if cls c
      then if in_run then replace_runs cls true rest
           else "-"%char :: replace_runs cls true rest
      else c :: replace_runs cls false rest
  end.

Definition digit_value (c : ascii) : Z := Z.of_nat (nat_of_ascii c) - 48.

(** The longest prefix of decimal digits, as a number, and what follows. *)
Fixpoint digits (acc : Z) (n : nat) (l : list ascii) : Z * nat * list ascii :=
  match l with
  | c :: rest =>
      if is_digit c then digits (10 * acc + digit_value c) (S n) rest
      else (acc, n, l)
  | [] => (acc, n, l)
  end.

(** [Number.parseInt(s, 10)]: leading white space, a sign, then the longest
    run of digits; [NaN] when there is no digit. *)
Definition parseInt (s : string) : value :=
  let l := drop_spaces (list_ascii_of_string s) in
  let '(neg, l) :=
    match l with
    | "-"%char :: rest => (true, rest)
    | "+"%char :: rest => (false, rest)
    | _ => (false, l)
    end in
  let '(z, n, _) := digits 0 0 l in
  if (n =? 0)%nat then NaN else Num (if neg then - z else z).

(** [Number.isInteger(v)] *)
Definition isInteger (v : value) : bool :=
  match v with Num _ => true | _ => false end.

(** [a < b] for numbers; a comparison with [NaN] is false. *)
Definition num_lt (a b : value) : bool :=
  match a, b with
  | Num x, Num y => x <? y
  | _, _ => false
  end.

(** [a - b] as the comparator of [sort] uses it: the sign of the
    difference, [0] when it is [NaN]. *)
Definition num_sub (a b : value) : Z :=
  match a, b with
  | Num x, Num y => x - y
  | _, _ => 0
  end.

(** [a === b] where [b] is a string. *)
Definition strict_eq_string (a : value) (b : string) : bool :=
  match a with
  | Str s => (s =? b)%string
  | _ => false
  end.

(** [s.includes(x)] on an array of strings *)
Definition includes (x : string) (l : list string) : bool :=
  existsb (String.eqb x) l.

(** [Array.from(new Set(l))], also the [seenIds] loop of
    [getRuleProductIds]: the first occurrence of each string, in order. *)
Fixpoint unique_from (seen : list string) (l : list string) : list string :=
  match l with
  | [] => []
  | x :: rest =>
      if includes x seen then unique_from seen rest
      else x :: unique_from (x :: seen) rest
  end.

Definition unique (l : list string) : list string := unique_from [] l.

(** [l.sort(cmp)]: the sort is stable, so for a consistent comparator the
    result is the one of insertion from the right. *)
Section Sort.
Context {A : Type} (cmp : A -> A -> Z).

Fixpoint insert (x : A) (l : list A) : list A :=
  match l with
  | [] => [x]
  | y :: rest => if cmp x y <=? 0 then x :: l else y :: insert x rest
  end.

Fixpoint sort (l : list A) : list A :=
  match l with
  | [] => []
  | x :: rest => insert x (sort rest)
  end.
End Sort.

(** A [Map], in insertion order: [m.get(k)], [m.set(k, v)], [m.values()]. *)
Section MapModel.
Context {K V : Type} (eqb : K -> K -> bool).

Fixpoint map_get (k : K) (m : list (K * V)) : option V :=
  match m with
  | [] => None
  | (k', v) :: rest => if eqb k k' then Some v else map_get k rest
  end.

Fixpoint map_set (k : K) (v : V) (m : list (K * V)) : list (K * V) :=
  match m with
  | [] => [(k, v)]
  | (k', v') :: rest =>
      if eqb k k' then (k, v) :: rest else (k', v') :: map_set k v rest
  end.
End MapModel.

Definition map_values {K V : Type} (m : list (K * V)) : list V := map snd m.

(** The comparator of [l.sort()] without argument, on strings. *)
Definition compare_strings (a b : string) : Z :=
  match String.compare a b with
  | Lt => -1
  | Eq => 0
  | Gt => 1
  end.

(** [l.findIndex(p)]: [None] for [-1]. *)
Fixpoint findIndex {A : Type} (p : A -> bool) (l : list A) : option nat :=
  match l with
  | [] => None
  | x :: rest =>
      if p x then Some 0%nat
      else match findIndex p rest with
           | Some i => Some (S i)
           | None => None
           end
  end.

(** [l.findIndex(p)] where [p] may throw: [None] when it throws before a
    match, [Some None] for [-1]. *)
Fixpoint findIndex_throwing {A : Type} (p : A -> option bool) (l : list A)
  : option (option nat) :=
  match l with
  | [] => Some None
  | x :: rest =>
      match p x with
      | None => None
      | Some true => Some (Some 0%nat)
      | Some false =>
          match findIndex_throwing p rest with
          | None => None
          | Some None => Some None
          | Some (Some i) => Some (Some (S i))
          end
      end
  end.

(** [a === b] on primitive values ([NaN] is not equal to itself). *)
Definition strict_eq (a b : value) : bool :=
  match a, b with
  | Undefined, Undefined => true
  | Null, Null => true
  | Bool x, Bool y => Bool.eqb x y
  | Num x, Num y => x =? y
  | Str x, Str y => (x =? y)%string
  | _, _ => false
  end.

(** The strings among [l] that are not empty:
    [l.filter((id) => typeof id === "string" && id.length > 0)]. *)
Fixpoint nonempty_strings (l : list value) : list string :=
  match l with
  | [] => []
  | v :: rest =>
      match v with
      | Str s => if (s =? "")%string then nonempty_strings rest
                 else s :: nonempty_strings rest
      | _ => nonempty_strings rest
      end
  end.

(** [l[i] = v] for [i] within the array. *)
Fixpoint set_nth {A : Type} (i : nat) (v : A) (l : list A) : list A :=
  match l, i with
  | [], _ => []
  | _ :: rest, O => v :: rest
  | x :: rest, S j => x :: set_nth j v rest
  end.

(** [l.filter((_, index) => index !== i)] *)
Fixpoint remove_nth {A : Type} (i : nat) (l : list A) : list A :=
  match l, i with
  | [], _ => []
  | _ :: rest, O => rest
  | x :: rest, S j => x :: remove_nth j rest
  end.

(** [l.slice(from, from + size)] *)
Definition slice {A : Type} (from size : nat) (l : list A) : list A :=
  firstn size (skipn from l).

(** *** [Number(s)] *)

Definition hex_value (c : ascii) : option Z :=
  let n := nat_of_ascii c in
  if is_digit c then Some (Z.of_nat n - 48)
  else if ((97 <=? n) && (n <=? 102))%nat then Some (Z.of_nat n - 87)
  else if ((65 <=? n) && (n <=? 70))%nat then Some (Z.of_nat n - 55)
  else None.

Fixpoint radix_digits (radix acc : Z) (l : list ascii) : option Z :=
  match l with
  | [] => Some acc
  | c :: rest =>
      match hex_value c with
      | Some d =>
          if d <? radix then radix_digits radix (radix * acc + d) rest
          else None
      | None => None
      end
  end.

(** [m * 10^e] *)
Definition scale10 (m e : Z) : Q :=
  if 0 <=? e then inject_Z (m * 10 ^ e)
  else Qmake m (Z.to_pos (10 ^ (- e))).

Definition exponent_part (l : list ascii) : option Z :=
  match l with
  | [] => Some 0
  | c :: rest =>
      if ((c =? "e") || (c =? "E"))%char then
        let '(neg, rest) :=
          match rest with
          | "-"%char :: r => (true, r)
          | "+"%char :: r => (false, r)
          | _ => (false, rest)
          end in
        match digits 0 0 rest with
        | (_, O, _) => None
        | (e, _, []) => Some (if neg then - e else e)
        | (_, _, _ :: _) => None
        end
      else None
  end.

Definition decimal_literal (l : list ascii) : option Q :=
  let '(neg, l) :=
    match l with
    | "-"%char :: r => (true, r)
    | "+"%char :: r => (false, r)
    | _ => (false, l)
    end in
  let '(i, ni, after_int) := digits 0 0 l in
  let '(m, nf, after_frac) :=
    match after_int with
    | "."%char :: r => digits i 0 r
    | _ => (i, O, after_int)
    end in
  if ((ni + nf)%nat =? 0)%nat then None
  else
    match exponent_part after_frac with
    | None => None
    | Some e => Some (scale10 (if neg then - m else m) (e - Z.of_nat nf))
    end.

(** [Number(s)] for a string: [None] when the result is [NaN] or infinite.
    White space around the literal is ignored, the empty string is [0]. *)
Definition Number_ (s : string) : option Q :=
  let l := trim_list (list_ascii_of_string s) in
  match l with
  | [] => Some (inject_Z 0)
  | "0"%char :: p :: (_ :: _) as ds =>
      if ((p =? "x") || (p =? "X"))%char
      then option_map inject_Z (radix_digits 16 0 ds)
      else if ((p =? "o") || (p =? "O"))%char
      then option_map inject_Z (radix_digits 8 0 ds)
      else if ((p =? "b") || (p =? "B"))%char
      then option_map inject_Z (radix_digits 2 0 ds)
      else decimal_literal l
  | _ => decimal_literal l
  end.

Definition Qlt_bool (a b : Q) : bool := negb (Qle_bool b a).

End Js.

(** ** The remote service: [admin.graphql] *)

Module Remote.
Import Js.

(** One entry of a product's projection: [{ min_quantity, percent_off }]. *)
Record projection_tier : Type := {
  min_quantity : Z;
  percent_off : Q
}.

(** [customerGets.items.products] *)
Record products_input : Type := {
  productsToAdd : option (list string);
  productsToRemove : option (list string)
}.

(** [DiscountAutomaticBasicInput] as the actions build it. [startsAt] says
    whether the key is present; its value is the time of the call. *)
Record discount_input : Type := {
  title : string;
  startsAt : bool;
  combinesWith_productDiscounts : bool;
  combinesWith_orderDiscounts : bool;
  combinesWith_shippingDiscounts : bool;
  greaterThanOrEqualToQuantity : string;
  percentage : option Q;
  products : products_input;
  appliesOnOneTimePurchase : bool;
  appliesOnSubscription : bool
}.

(** The [value] of a metafield, before [JSON.stringify]. *)
Inductive metafield_value : Type :=
| ConfigJson (discounts : list value)
| ProjectionJson (tiers : list projection_tier).

(** [MetafieldsSetInput] *)
Record metafield_input : Type := {
  ownerId : value;
  namespace : string;
  key : string;
  type : string;
  mvalue : metafield_value
}.

Inductive call : Type :=
| ShopQuery
| ProductNodesQuery (ids : list string)
| DiscountAutomaticBasicCreate (input : discount_input)
| DiscountAutomaticBasicUpdate (id : value) (input : discount_input)
| DiscountAutomaticDelete (id : value)
| DiscountAutomaticActivate (id : value)
| DiscountAutomaticDeactivate (id : value)
| MetafieldsSet (metafields : list metafield_input).

(** What the actions read in a response: [data.shop.id],
    [data.shop.metafield.value], [data.nodes],
    [...automaticDiscountNode.id] and the messages of [...userErrors]. *)
Record response : Type := {
  shop_id : value;
  shop_metafield_value : value;
  nodes : value;
  automaticDiscountNode_id : value;
  userErrors : list string
}.

(** The service answers a call knowing the calls made before it. *)
Definition remote : Type := list call -> call -> response.

Inductive outcome (R A : Type) : Type :=
| Continue (a : A)
| Return (r : R)
| Threw.
Arguments Continue {R A} a.
Arguments Return {R A} r.
Arguments Threw {R A}.

(** A piece of an action that returns [R]: it reads the service, extends
    the list of calls, and goes on with an [A], returns, or throws. *)
Definition M (R A : Type) : Type :=
  remote -> list call -> outcome R A * list call.

Definition ret {R A : Type} (a : A) : M R A :=
  fun _ log => (Continue a, log).

Definition bind {R A B : Type} (m : M R A) (k : A -> M R B) : M R B :=
  fun admin log =>
    match m admin log with
    | (Continue a, log') => k a admin log'
    | (Return r, log') => (Return r, log')
    | (Threw, log') => (Threw, log')
    end.

Definition return_ {R A : Type} (r : R) : M R A :=
  fun _ log => (Return r, log).

Definition throw {R A : Type} : M R A :=
  fun _ log => (Threw, log).

(** [await admin.graphql(...)] followed by [await response.json()] *)
Definition graphql {R : Type} (c : call) : M R response :=
  fun admin log => (Continue (admin log c), log ++ [c]).

Definition lift {R A : Type} (o : option A) : M R A :=
  match o with
  | Some a => ret a
  | None => throw
  end.

Notation "x <- m ;; k" := (bind m (fun x => k))
  (at level 61, m at next level, right associativity).
Notation "m ;;; k" := (bind m (fun _ => k))
  (at level 61, right associativity).

(** [for (const x of l) { state = body(state, x) }] *)
Fixpoint fold_m {R A S : Type} (body : S -> A -> M R S) (l : list A) (s : S)
  : M R S :=
  match l with
  | [] => ret s
  | x :: rest => s' <- body s x ;; fold_m body rest s'
  end.

(** [for (const x of l) { body(x) }] *)
Fixpoint for_each {R A : Type} (body : A -> M R unit) (l : list A) : M R unit :=
  match l with
  | [] => ret tt
  | x :: rest => body x ;;; for_each body rest
  end.

(** How an action ends. *)
Inductive completion (R : Type) : Type :=
| Returned (r : R)
| Uncaught.
Arguments Returned {R} r.
Arguments Uncaught {R}.

Definition run {R : Type} (m : M R R) (admin : remote)
  : completion R * list call :=
  match m admin [] with
  | (Continue r, log) => (Returned r, log)
  | (Return r, log) => (Returned r, log)
  | (Threw, log) => (Uncaught, log)
  end.

(** The place an action returns from. *)
Inductive site : Type :=
| AtUnknownAction
| AtRuleNotFound
| AtDeleteErrors
| AtSetErrors
| AtProjectionErrors
| AtTitleRequired
| AtStatusInvalid
| AtProductRequired
| AtTierRequired
| AtTierInvalid
| AtTierLoopNoProduct
| AtUpdateErrors
| AtCreateErrors
| AtCreateNoId
| AtRemovedTierErrors
| AtInputErrors.

(** [{ ok: true, ... }] *)
Inductive success : Type :=
| DeleteRule (redirectTo : string)
| UpdateRuleSettings (nextHandle nextTitle nextStatus : string)
    (nextProducts nextTiers : list value)
| AddDiscount.

(** [{ ok, errors, ... }] *)
Inductive result : Type :=
| Failed (at_ : site) (errors : list string)
| Ok (payload : success).

(** [formData.get(name)]: the first value of the field, or [null]. *)
Definition form : Type := list (string * string).

Fixpoint formData_get (name : string) (f : form) : value :=
  match f with
  | [] => Null
  | (k, v) :: rest => if (name =? k)%string then Str v else formData_get name rest
  end.

End Remote.

(** ** quantity-breaks.server *)

Module QuantityBreaks.
Import Js Remote.

Definition QUANTITY_BREAKS_NAMESPACE : string := "quantity_breaks".
Definition QUANTITY_BREAKS_KEY : string := "discounts".
Definition QUANTITY_BREAKS_TYPE : string := "json".

Definition MAX_METAFIELDS_SET : nat := 25.

(** [{ discounts: [] }] *)
Definition empty_config : value := Obj [("discounts", Arr [])].

(** [typeof v === "object"] *)
Definition typeof_object (v : value) : bool :=
  match v with
  | Null | Arr _ | Obj _ => true
  | _ => false
  end.

Definition isArray (v : value) : bool :=
  match v with Arr _ => true | _ => false end.

Section Codec.
(** [JSON.parse] of the platform: [None] when it throws. *)
Variable JSON_parse : string -> option value.

Definition parseDiscountConfig (v : value) : value :=
  if negb (truthy v) then empty_config
  else
    match JSON_parse (String_ v) with
    | Some parsed =>
        if negb (truthy parsed) || negb (typeof_object parsed)
        then empty_config
        else if negb (isArray (get "discounts" parsed)) then empty_config
        else parsed
    | None => empty_config
    end.
End Codec.

Definition PRODUCT_PREFIX : string := "gid://shopify/Product/".

Definition normalizeProductId (product : value) : string :=
  match product with
  | Str s => if startsWith PRODUCT_PREFIX s then s else ""
  | Obj _ =>
      match get "id" product with
      | Str s => if startsWith PRODUCT_PREFIX s then s else ""
      | _ => ""
      end
  | _ => ""
  end.

Definition nonempty (s : string) : bool := negb (s =? "")%string.

Definition normalizeProductIds (products : value) : list string :=
  unique (filter nonempty (map normalizeProductId (as_array products))).

(** One turn of the inner loop of [getRuleProductIds]; the state is
    [(seenIds, productIdsFromTiers)]. *)
Definition collect_id (state : list string * list string) (productId : string)
  : list string * list string :=
  let '(seenIds, productIdsFromTiers) := state in
  if includes productId seenIds then state
  else (productId :: seenIds, productIdsFromTiers ++ [productId]).

(** [None]: reading [rule.products] of [null] throws. *)
Definition getRuleProductIds (rule : value) : option (list string) :=
  match rule with
  | Null => None
  | _ =>
      let rule := match rule with Undefined => Obj [] | _ => rule end in
      let directProductIds := normalizeProductIds (get "products" rule) in
      if (0 <? List.length directProductIds)%nat then Some directProductIds
      else
        Some (snd (fold_left
                     (fun state tier =>
                        fold_left collect_id
                          (normalizeProductIds (get "products" tier)) state)
                     (as_array (get "tiers" rule)) ([], [])))
  end.

Definition normalizeTierForProjection (tier : value) : option projection_tier :=
  let minQuantity :=
    parseInt (trim (String_ (nullish (get "min_quantity" tier) (Str "")))) in
  let percentOff :=
    Number_ (trim (String_ (nullish (get "percent_off" tier) (Str "")))) in
  match minQuantity with
  | Num q =>
      if q <=? 0 then None
      else
        match percentOff with
        | Some p =>
            if Qlt_bool p (inject_Z 0) || Qlt_bool (inject_Z 100) p then None
            else Some {| min_quantity := q; percent_off := p |}
        | None => None
        end
  | _ => None
  end.

(** A [Map] from thresholds to tiers, in insertion order. *)
Definition tier_map : Type := list (Z * projection_tier).

(** The body of the loop over the tiers of one rule. *)
Definition project_tier (byMinQuantity : tier_map) (tier : value) : tier_map :=
  match normalizeTierForProjection tier with
  | None => byMinQuantity
  | Some normalizedTier =>
      match map_get Z.eqb (min_quantity normalizedTier) byMinQuantity with
      | Some existing =>
          if Qlt_bool (percent_off existing) (percent_off normalizedTier)
          then map_set Z.eqb (min_quantity normalizedTier) normalizedTier
                 byMinQuantity
          else byMinQuantity
      | None =>
          map_set Z.eqb (min_quantity normalizedTier) normalizedTier
            byMinQuantity
      end
  end.

(** The loop over the rules. *)
Fixpoint project_rules (rules : list value) (productId : string)
  (byMinQuantity : tier_map) : option tier_map :=
  match rules with
  | [] => Some byMinQuantity
  | rule :: rest =>
      match getRuleProductIds rule with
      | None => None
      | Some ruleProductIds =>
          if negb (includes productId ruleProductIds)
          then project_rules rest productId byMinQuantity
          else
            project_rules rest productId
              (fold_left project_tier (as_array (get "tiers" rule))
                 byMinQuantity)
      end
  end.

Definition by_min_quantity (left right : projection_tier) : Z :=
  min_quantity left - min_quantity right.

(** [None] when [getRuleProductIds] throws on a rule. *)
Definition buildProductTierProjection (discounts : value) (productId : string)
  : option (list projection_tier) :=
  match project_rules (as_array discounts) productId [] with
  | Some byMinQuantity => Some (sort by_min_quantity (map_values byMinQuantity))
  | None => None
  end.

(** The loop of [chunkArray], at most [fuel] turns. *)
Fixpoint chunkArray_loop {A : Type} (fuel : nat) (items : list A)
  (index size : nat) : option (list (list A)) :=
  if (index <? List.length items)%nat then
    match fuel with
    | O => None
    | S fuel' =>
        match chunkArray_loop fuel' items (index + size) size with
        | Some chunks => Some (slice index size items :: chunks)
        | None => None
        end
    end
  else Some [].

(** [None] when the loop does not end (a [size] of [0] on a non-empty
    array). *)
Definition chunkArray {A : Type} (items : list A) (size : nat)
  : option (list (list A)) :=
  chunkArray_loop (List.length items) items 0 size.

Definition projection_metafield (productId : string)
  (projectedTiers : list projection_tier) : metafield_input :=
  {| ownerId := Str productId;
     namespace := QUANTITY_BREAKS_NAMESPACE;
     key := QUANTITY_BREAKS_KEY;
     type := QUANTITY_BREAKS_TYPE;
     mvalue := ProjectionJson projectedTiers |}.

(** The first loop of the recompute: one metafield per product. *)
Fixpoint metafieldsToSet (discounts : value) (productIds : list string)
  : option (list metafield_input) :=
  match productIds with
  | [] => Some []
  | productId :: rest =>
      match buildProductTierProjection discounts productId with
      | None => None
      | Some projectedTiers =>
          match metafieldsToSet discounts rest with
          | None => None
          | Some l => Some (projection_metafield productId projectedTiers :: l)
          end
      end
  end.

(** The body of the second loop: one bulk write, its errors recorded. *)
Definition write_chunk {R : Type} (errors : list string)
  (metafieldChunk : list metafield_input) : M R (list string) :=
  response <- graphql (MetafieldsSet metafieldChunk) ;;
  if (0 <? List.length (userErrors response))%nat
  then ret (errors ++ userErrors response)
  else ret errors.

Definition recomputeProductDiscountProjectionMetafields {R : Type}
  (discounts : value) (affectedProductIds : value) : M R (list string) :=
  let productIds := normalizeProductIds affectedProductIds in
  if (List.length productIds =? 0)%nat then ret []
  else
    toSet <- lift (metafieldsToSet discounts productIds) ;;
    match chunkArray toSet MAX_METAFIELDS_SET with
    | Some chunks => fold_m write_chunk chunks []
    | None => ret [] (* not taken: the size is 25 *)
    end.

End QuantityBreaks.

(** ** The rule page: [action] *)

Module RulePage.
Import Js Remote QuantityBreaks.

Definition METAFIELD_NAMESPACE : string := QUANTITY_BREAKS_NAMESPACE.
Definition METAFIELD_KEY : string := QUANTITY_BREAKS_KEY.

Definition kebab_kept (c : ascii) : bool :=
  is_lower c || is_digit c || is_space c || (c =? "-")%char.

Definition toKebabCase (s : string) : string :=
  let l := list_ascii_of_string (toLowerCase (trim s)) in
  let l := filter kebab_kept l in
  let l := replace_runs is_space false l in
  let l := replace_runs (fun c => (c =? "-")%char) false l in
  string_of_list_ascii l.

(** [toKebabCase(discount?.title || "") === tableHandle]; [None]: a title
    that is truthy and not a string has no [trim]. *)
Definition handle_matches (tableHandle : value) (discount : value)
  : option bool :=
  match or_else (get "title" discount) (Str "") with
  | Str s => Some (strict_eq (Str (toKebabCase s)) tableHandle)
  | _ => None
  end.

Definition config_metafield (shopId : value) (discounts : list value)
  : metafield_input :=
  {| ownerId := shopId;
     namespace := METAFIELD_NAMESPACE;
     key := METAFIELD_KEY;
     type := "json";
     mvalue := ConfigJson discounts |}.

(** [tiers.map((tier) => tier?.discount_id).filter(...)] *)
Definition discount_ids (tiers : list value) : list string :=
  nonempty_strings (map (get "discount_id") tiers).

Definition fetchProductSummaries {R : Type} (productIds : list string)
  : M R (list value) :=
  if (List.length productIds =? 0)%nat then ret []
  else
    json <- graphql (ProductNodesQuery productIds) ;;
    let nodes := as_array (nodes json) in
    let productById :=
      fold_left
        (fun m node =>
           map_set strict_eq (get "id" node)
             (Obj [("id", get "id" node);
                   ("title", or_else (get "title" node) (Str ""));
                   ("image",
                    or_else (get "url" (get "featuredImage" node)) (Str ""))])
             m)
        (filter (fun node => truthy (get "id" node)) nodes) [] in
    ret (map (fun id =>
                match map_get strict_eq (Str id) productById with
                | Some product => product
                | None => Obj [("id", Str id); ("title", Str id);
                               ("image", Str "")]
                end) productIds).

(** One turn of a loop of deletions: the call, and a return on errors. *)
Definition delete_discount (at_ : site) (discountId : string)
  : M result unit :=
  deleteJson <- graphql (DiscountAutomaticDelete (Str discountId)) ;;
  if (0 <? List.length (userErrors deleteJson))%nat
  then return_ (Failed at_ (userErrors deleteJson))
  else ret tt.

(** [sortedPrevious.some((id, index) => id !== sortedNext[index])] *)
Fixpoint some_differs (a b : list string) : bool :=
  match a, b with
  | [], _ => false
  | _ :: _, [] => true
  | x :: a', y :: b' => negb (x =? y)%string || some_differs a' b'
  end.

(** The tier of the request as the action reads it. *)
Definition parse_tier (tier : value) : value :=
  Obj (assign "percent_off"
         (parseInt (trim (String_ (or_else (get "percent_off" tier) (Str "")))))
      (assign "min_quantity"
         (parseInt (trim (String_ (or_else (get "min_quantity" tier) (Str "")))))
      (assign "title"
         (Str (trim (String_ (or_else (get "title" tier) (Str "")))))
      (spread tier)))).

(** The predicate of [invalidTierIndex]. *)
Definition tier_invalid (tier : value) : bool :=
  negb (truthy (get "title" tier))
  || negb (isInteger (get "min_quantity" tier))
  || num_lt (get "min_quantity" tier) (Num 1)
  || negb (isInteger (get "percent_off" tier))
  || num_lt (get "percent_off" tier) (Num 0)
  || num_lt (Num 100) (get "percent_off" tier).

Definition tier_invalid_message (invalidTierIndex : nat) : string :=
  ("Tier " ++ string_of_nat (invalidTierIndex + 1)
   ++ " must have a title, minimum quantity (>= 1), and percent discount (0-100).")%string.

(** [(a, b) => a.min_quantity - b.min_quantity] *)
Definition by_min_quantity (a b : value) : Z :=
  num_sub (get "min_quantity" a) (get "min_quantity" b).

(** What the loop over the tiers reads besides the tier. *)
Record tier_context : Type := {
  productIds : list string;
  productsChanged : bool;
  addedProductIds : list string;
  removedProductIds : list string;
  previousTierByDiscountId : list (value * value)
}.

Definition tierChanged (ctx : tier_context) (tier : value) : bool :=
  let hasExistingDiscountId := nonempty_string (get "discount_id" tier) in
  let previousTier :=
    if hasExistingDiscountId
    then map_get strict_eq (get "discount_id" tier)
           (previousTierByDiscountId ctx)
    else None in
  match previousTier with
  | None => true
  | Some previousTier =>
      negb (strict_eq
              (Str (trim (String_ (or_else (get "title" previousTier) (Str "")))))
              (get "title" tier))
      || negb (strict_eq
                 (parseInt (trim (String_ (or_else (get "min_quantity" previousTier)
                                             (Str "")))))
                 (get "min_quantity" tier))
      || negb (strict_eq
                 (parseInt (trim (String_ (or_else (get "percent_off" previousTier)
                                             (Str "")))))
                 (get "percent_off" tier))
  end.

Definition shouldCreateDiscount (tier : value) : bool :=
  negb (nonempty_string (get "discount_id" tier)).

Definition shouldUpdateExistingDiscount (ctx : tier_context) (tier : value)
  : bool :=
  nonempty_string (get "discount_id" tier)
  && (tierChanged ctx tier || productsChanged ctx).

Definition productsInput (ctx : tier_context) (tier : value) : products_input :=
  if shouldUpdateExistingDiscount ctx tier && productsChanged ctx
  then {| productsToAdd :=
            if (0 <? List.length (addedProductIds ctx))%nat
            then Some (addedProductIds ctx) else None;
          productsToRemove :=
            if (0 <? List.length (removedProductIds ctx))%nat
            then Some (removedProductIds ctx) else None |}
  else {| productsToAdd := Some (productIds ctx);
          productsToRemove := None |}.

(** [v / 100] *)
Definition per_cent (v : value) : option Q :=
  match v with
  | Num z => Some (Qmake z 100)
  | _ => None
  end.

Definition discountInputBase (ctx : tier_context) (tier : value)
  : discount_input :=
  {| title := String_ (get "title" tier);
     startsAt := false;
     combinesWith_productDiscounts := true;
     combinesWith_orderDiscounts := true;
     combinesWith_shippingDiscounts := true;
     greaterThanOrEqualToQuantity := String_ (get "min_quantity" tier);
     percentage := per_cent (get "percent_off" tier);
     products := productsInput ctx tier;
     appliesOnOneTimePurchase := true;
     appliesOnSubscription := false |}.

(** [{ ...input, startsAt: new Date().toISOString() }] *)
Definition with_startsAt (input : discount_input) : discount_input :=
  {| title := title input;
     startsAt := true;
     combinesWith_productDiscounts := combinesWith_productDiscounts input;
     combinesWith_orderDiscounts := combinesWith_orderDiscounts input;
     combinesWith_shippingDiscounts := combinesWith_shippingDiscounts input;
     greaterThanOrEqualToQuantity := greaterThanOrEqualToQuantity input;
     percentage := percentage input;
     products := products input;
     appliesOnOneTimePurchase := appliesOnOneTimePurchase input;
     appliesOnSubscription := appliesOnSubscription input |}.

(** The body of the loop over [nextTiers]; the state is
    [tiersWithDiscountIds]. *)
Definition reconcile_tier (ctx : tier_context)
  (tiersWithDiscountIds : list value) (tier : value) : M result (list value) :=
  if negb (shouldCreateDiscount tier)
     && negb (shouldUpdateExistingDiscount ctx tier)
  then ret (tiersWithDiscountIds ++ [tier])
  else if (List.length (productIds ctx) =? 0)%nat
  then return_ (Failed AtTierLoopNoProduct
                  ["This rule must have at least one product."])
  else if shouldUpdateExistingDiscount ctx tier
  then
    updateJson <- graphql (DiscountAutomaticBasicUpdate (get "discount_id" tier)
                             (discountInputBase ctx tier)) ;;
    if (0 <? List.length (userErrors updateJson))%nat
    then return_ (Failed AtUpdateErrors (userErrors updateJson))
    else ret (tiersWithDiscountIds ++ [tier])
  else
    createJson <- graphql (DiscountAutomaticBasicCreate
                             (with_startsAt (discountInputBase ctx tier))) ;;
    if (0 <? List.length (userErrors createJson))%nat
    then return_ (Failed AtCreateErrors (userErrors createJson))
    else
      let createdDiscountId := automaticDiscountNode_id createJson in
      if negb (truthy createdDiscountId)
      then return_ (Failed AtCreateNoId
                      ["Failed to create tier discount in Shopify."])
      else ret (tiersWithDiscountIds
                ++ [Obj (assign "discount_id" createdDiscountId (spread tier))]).

(** What the update computes from the stored rule before the loop. *)
Definition tier_context_of (previousProductIds productIds : list string)
  (previousTiers : list value) : tier_context :=
  let sortedPreviousProductIds := sort compare_strings previousProductIds in
  let sortedNextProductIds := sort compare_strings productIds in
  let productsChanged :=
    negb (List.length sortedPreviousProductIds
          =? List.length sortedNextProductIds)%nat
    || some_differs sortedPreviousProductIds sortedNextProductIds in
  let addedProductIds :=
    filter (fun id => negb (includes id previousProductIds)) productIds in
  let removedProductIds :=
    filter (fun id => negb (includes id productIds)) previousProductIds in
  let previousTierByDiscountId :=
    fold_left (fun m tier => map_set strict_eq (get "discount_id" tier) tier m)
      (filter (fun tier => nonempty_string (get "discount_id" tier))
         previousTiers) [] in
  {| productIds := productIds;
     productsChanged := productsChanged;
     addedProductIds := addedProductIds;
     removedProductIds := removedProductIds;
     previousTierByDiscountId := previousTierByDiscountId |}.

(** [{ ...rule, title, status, products, tiers }] *)
Definition updated_rule (rule : value) (nextTitle nextStatus : string)
  (productIds : list string) (nextTiers : list value) : value :=
  Obj (assign "tiers" (Arr nextTiers)
      (assign "products" (Arr (map Str productIds))
      (assign "status" (Str nextStatus)
      (assign "title" (Str nextTitle)
      (spread rule))))).

(** The body of the loop of status propagation; the response is not read. *)
Definition set_status (nextStatus : string) (discountId : string)
  : M result unit :=
  if (nextStatus =? "inactive")%string
  then graphql (DiscountAutomaticDeactivate (Str discountId)) ;;; ret tt
  else graphql (DiscountAutomaticActivate (Str discountId)) ;;; ret tt.

Section Action.
Variable JSON_parse : string -> option value.

(** [try { x = JSON.parse(String(field || "[]"));
           if (!Array.isArray(x)) x = [] } catch { x = [] }] *)
Definition parse_array (field : value) : list value :=
  match JSON_parse (String_ (or_else field (Str "[]"))) with
  | Some (Arr items) => items
  | _ => []
  end.

(** [[...(currentConfig.discounts || [])]] of the shop's metafield *)
Definition current_discounts (shopJson : response) : list value :=
  let currentConfig :=
    parseDiscountConfig JSON_parse (shop_metafield_value shopJson) in
  as_array (or_else (get "discounts" currentConfig) (Arr [])).

Definition delete_rule (tableHandle : value) : M result result :=
  shopJson <- graphql ShopQuery ;;
  let shopId := shop_id shopJson in
  let discounts := current_discounts shopJson in
  found <- lift (findIndex_throwing (handle_matches tableHandle) discounts) ;;
  match found with
  | None => return_ (Failed AtRuleNotFound ["Rule not found."])
  | Some ruleIndex =>
      let rule := or_else (nth ruleIndex discounts Undefined) (Obj []) in
      affectedProductIds <- lift (getRuleProductIds rule) ;;
      let discountIds := discount_ids (as_array (get "tiers" rule)) in
      for_each (delete_discount AtDeleteErrors) discountIds ;;;
      let nextDiscounts := remove_nth ruleIndex discounts in
      setJson <- graphql (MetafieldsSet [config_metafield shopId nextDiscounts]) ;;
      if (0 <? List.length (userErrors setJson))%nat
      then return_ (Failed AtSetErrors (userErrors setJson))
      else
        projectionErrors <-
          recomputeProductDiscountProjectionMetafields (Arr nextDiscounts)
            (Arr (map Str affectedProductIds)) ;;
        if (0 <? List.length projectionErrors)%nat
        then return_ (Failed AtProjectionErrors projectionErrors)
        else return_ (Ok (DeleteRule "/app"))
  end.

(** The update after its validation, from the shop query on. *)
Definition reconcile_rule (tableHandle : value) (nextTitle nextStatus : string)
  (productIds : list string) (nextTiers : list value) : M result result :=
  shopJson <- graphql ShopQuery ;;
  let shopId := shop_id shopJson in
  let discounts := current_discounts shopJson in
  found <- lift (findIndex_throwing (handle_matches tableHandle) discounts) ;;
  match found with
  | None => return_ (Failed AtRuleNotFound ["Rule not found."])
  | Some ruleIndex =>
      let rule := or_else (nth ruleIndex discounts Undefined) (Obj []) in
      let previousTiers := as_array (get "tiers" rule) in
      previousProductIds <- lift (getRuleProductIds rule) ;;
      let ctx := tier_context_of previousProductIds productIds previousTiers in
      let previousDiscountIds := discount_ids previousTiers in
      tiersWithDiscountIds <- fold_m (reconcile_tier ctx) nextTiers [] ;;
      let nextTiers := sort by_min_quantity tiersWithDiscountIds in
      let nextDiscountIds := discount_ids nextTiers in
      let removedDiscountIds :=
        filter (fun discountId => negb (includes discountId nextDiscountIds))
          previousDiscountIds in
      for_each (delete_discount AtRemovedTierErrors) removedDiscountIds ;;;
      for_each (set_status nextStatus) nextDiscountIds ;;;
      let discounts :=
        set_nth ruleIndex
          (updated_rule rule nextTitle nextStatus productIds nextTiers)
          discounts in
      setJson <- graphql (MetafieldsSet [config_metafield shopId discounts]) ;;
      if (0 <? List.length (userErrors setJson))%nat
      then return_ (Failed AtSetErrors (userErrors setJson))
      else
        let affectedProductIds := unique (previousProductIds ++ productIds) in
        projectionErrors <-
          recomputeProductDiscountProjectionMetafields (Arr discounts)
            (Arr (map Str affectedProductIds)) ;;
        if (0 <? List.length projectionErrors)%nat
        then return_ (Failed AtProjectionErrors projectionErrors)
        else
          nextProducts <- fetchProductSummaries productIds ;;
          return_ (Ok (UpdateRuleSettings (toKebabCase nextTitle) nextTitle
                         nextStatus nextProducts nextTiers))
  end.

(** What the update reads in the form. *)
Definition nextTitle_of (formData : form) : string :=
  trim (String_ (or_else (formData_get "title" formData) (Str ""))).

Definition nextStatus_of (formData : form) : string :=
  toLowerCase
    (trim (String_ (or_else (formData_get "status" formData) (Str "active")))).

Definition nextProductIds_of (formData : form) : list string :=
  let nextProductsInput := parse_array (formData_get "products" formData) in
  normalizeProductIds (Arr nextProductsInput).

Definition parsedTiers_of (formData : form) : list value :=
  let nextTiers := parse_array (formData_get "tiers" formData) in
  map parse_tier nextTiers.

Definition update_rule_settings (formData : form) (tableHandle : value)
  : M result result :=
  let nextTitle := nextTitle_of formData in
  let nextStatus := nextStatus_of formData in
  if negb (nonempty nextTitle)
  then return_ (Failed AtTitleRequired ["Title is required."])
  else if negb (includes nextStatus ["active"; "inactive"])
  then return_ (Failed AtStatusInvalid ["Status must be Active or Inactive."])
  else
    let nextProductIds := nextProductIds_of formData in
    if (List.length nextProductIds =? 0)%nat
    then return_ (Failed AtProductRequired
                    ["At least one product is required for this rule."])
    else
      let productIds := nextProductIds in
      let parsedTiers := parsedTiers_of formData in
      if (List.length parsedTiers =? 0)%nat
      then return_ (Failed AtTierRequired
                      ["At least one discount tier is required."])
      else
        match findIndex tier_invalid parsedTiers with
        | Some invalidTierIndex =>
            return_ (Failed AtTierInvalid
                       [tier_invalid_message invalidTierIndex])
        | None =>
            let nextTiers := sort by_min_quantity parsedTiers in
            reconcile_rule tableHandle nextTitle nextStatus productIds
              nextTiers
        end.

Definition action_body (formData : form) (params_tableHandle : value)
  : M result result :=
  let actionType :=
    String_ (or_else (formData_get "_action" formData) (Str "")) in
  if negb (includes actionType ["update-rule-settings"; "delete-rule"])
  then return_ (Failed AtUnknownAction ["Unknown action"])
  else
    let tableHandle := or_else params_tableHandle (Str "") in
    if (actionType =? "delete-rule")%string
    then delete_rule tableHandle
    else update_rule_settings formData tableHandle.

Definition action (formData : form) (params_tableHandle : value)
  (admin : remote) : completion result * list call :=
  run (action_body formData params_tableHandle) admin.
End Action.

End RulePage.

(** ** The index page: [action] *)

Module IndexPage.
Import Js Remote QuantityBreaks.

Definition input_errors (title discountTitle : string)
  (minimumQuantity percentOff : value) (normalizedProductIds : list string)
  : list string :=
  (if negb (nonempty title) then ["Title is required."] else [])
  ++ (if negb (nonempty discountTitle)
      then ["Discount title is required."] else [])
  ++ (if negb (isInteger minimumQuantity) || num_lt minimumQuantity (Num 1)
      then ["Minimum product quantity must be a whole number greater than 0."]
      else [])
  ++ (if negb (isInteger percentOff) || num_lt percentOff (Num 1)
         || num_lt (Num 100) percentOff
      then ["Percent off must be a whole number between 1 and 100."]
      else [])
  ++ (if (List.length normalizedProductIds =? 0)%nat
      then ["Select at least one product."] else []).

Definition automaticBasicDiscount (discountTitle : string)
  (minimumQuantity percentOff : value) (normalizedProductIds : list string)
  : discount_input :=
  {| title := discountTitle;
     startsAt := true;
     combinesWith_productDiscounts := true;
     combinesWith_orderDiscounts := true;
     combinesWith_shippingDiscounts := true;
     greaterThanOrEqualToQuantity := String_ minimumQuantity;
     percentage := RulePage.per_cent percentOff;
     products := {| productsToAdd := Some normalizedProductIds;
                    productsToRemove := None |};
     appliesOnOneTimePurchase := true;
     appliesOnSubscription := false |}.

Definition newTier (discountTitle : string) (minimumQuantity percentOff : value)
  (discountId : value) : value :=
  Obj [("min_quantity", minimumQuantity);
       ("percent_off", percentOff);
       ("title", Str discountTitle);
       ("discount_id", discountId)].

(** [nextDiscounts] after the rule is extended or pushed. *)
Definition add_tier (nextDiscounts : list value) (existingIndex : option nat)
  (title : string) (normalizedProductIds : list string) (tier : value)
  : list value :=
  match existingIndex with
  | Some i =>
      let existing := nth i nextDiscounts Undefined in
      let currentTiers := as_array (get "tiers" existing) in
      set_nth i
        (Obj (assign "tiers" (Arr (currentTiers ++ [tier]))
             (assign "status" (or_else (get "status" existing) (Str "active"))
             (assign "products" (Arr (map Str normalizedProductIds))
             (assign "title" (Str title)
             (spread existing))))))
        nextDiscounts
  | None =>
      nextDiscounts
      ++ [Obj [("title", Str title);
               ("products", Arr (map Str normalizedProductIds));
               ("status", Str "active");
               ("tiers", Arr [tier])]]
  end.

Section Action.
Variable JSON_parse : string -> option value.

Definition add_discount (formData : form) : M result result :=
  let title :=
    trim (String_ (or_else (formData_get "title" formData) (Str ""))) in
  let discountTitle :=
    trim (String_ (or_else (formData_get "discountTitle" formData) (Str ""))) in
  let minimumQuantity :=
    parseInt (String_ (or_else (formData_get "minimumQuantity" formData)
                         (Str "0"))) in
  let percentOff :=
    parseInt (String_ (or_else (formData_get "percentOff" formData)
                         (Str "0"))) in
  let selectedProducts :=
    RulePage.parse_array JSON_parse (formData_get "selectedProducts" formData) in
  let productIds := map (get "id") selectedProducts in
  let normalizedProductIds := normalizeProductIds (Arr productIds) in
  let errors :=
    input_errors title discountTitle minimumQuantity percentOff
      normalizedProductIds in
  if (0 <? List.length errors)%nat
  then return_ (Failed AtInputErrors errors)
  else
    shopJson <- graphql ShopQuery ;;
    let shopId := shop_id shopJson in
    let currentConfig :=
      parseDiscountConfig JSON_parse (shop_metafield_value shopJson) in
    discountJson <-
      graphql (DiscountAutomaticBasicCreate
                 (automaticBasicDiscount discountTitle minimumQuantity
                    percentOff normalizedProductIds)) ;;
    if (0 <? List.length (userErrors discountJson))%nat
    then return_ (Failed AtCreateErrors (userErrors discountJson))
    else
      let discountId := automaticDiscountNode_id discountJson in
      let tier := newTier discountTitle minimumQuantity percentOff discountId in
      let nextDiscounts :=
        as_array (or_else (get "discounts" currentConfig) (Arr [])) in
      let existingIndex :=
        findIndex (fun discount => strict_eq (get "title" discount) (Str title))
          nextDiscounts in
      previousRuleProductIds <-
        match existingIndex with
        | Some i => lift (getRuleProductIds (nth i nextDiscounts Undefined))
        | None => ret []
        end ;;
      let existingRuleStatus :=
        match existingIndex with
        | Some i =>
            if strict_eq (get "status" (nth i nextDiscounts Undefined))
                 (Str "inactive")
            then "inactive" else "active"
        | None => "active"
        end in
      (if (existingRuleStatus =? "inactive")%string && truthy discountId
       then graphql (DiscountAutomaticDeactivate discountId) ;;; ret tt
       else ret tt) ;;;
      let nextDiscounts :=
        add_tier nextDiscounts existingIndex title normalizedProductIds tier in
      metafieldSetJson <-
        graphql (MetafieldsSet
                   [RulePage.config_metafield shopId nextDiscounts]) ;;
      if (0 <? List.length (userErrors metafieldSetJson))%nat
      then return_ (Failed AtSetErrors (userErrors metafieldSetJson))
      else
        let affectedProductIds :=
          unique (previousRuleProductIds ++ normalizedProductIds) in
        projectionErrors <-
          recomputeProductDiscountProjectionMetafields (Arr nextDiscounts)
            (Arr (map Str affectedProductIds)) ;;
        if (0 <? List.length projectionErrors)%nat
        then return_ (Failed AtProjectionErrors projectionErrors)
        else return_ (Ok AddDiscount).

Definition action_body (formData : form) : M result result :=
  if negb (strict_eq (formData_get "_action" formData) (Str "add-discount"))
  then return_ (Failed AtUnknownAction ["Unknown action"])
  else add_discount formData.

Definition action (formData : form) (admin : remote)
  : completion result * list call :=
  run (action_body formData) admin.
End Action.

End IndexPage.

(** ** The properties stated of the engine *)

Module Claims.
Import Js Remote QuantityBreaks.


(** The order of [l.sort()] on strings. *)
Definition le_strings (a b : string) : Prop := compare_strings a b <= 0.

(** A product id in its canonical form. *)
Definition valid_id (s : string) : Prop := startsWith PRODUCT_PREFIX s = true.

(** What the map of the projection holds once the tiers [seen] have gone
    through the loop: one entry per threshold, the best of the tiers seen
    at that threshold. *)
Record projected (m : tier_map) (seen : list projection_tier) : Prop := {
  projected_keys : NoDup (map fst m);
  projected_best :
    forall k v, In (k, v) m ->
      min_quantity v = k /\ In v seen /\
      forall c, In c seen -> min_quantity c = k ->
                (percent_off c <= percent_off v)%Q;
  projected_all :
    forall c, In c seen -> In (min_quantity c) (map fst m)
}.

(** The end of every action: the write of the document [W], then the
    recompute, then [k]. *)
Definition commit (W : call) (discounts affected : value)
  (k : M result result) : M result result :=
  setJson <- graphql W ;;
  if (0 <? List.length (userErrors setJson))%nat
  then return_ (Failed AtSetErrors (userErrors setJson))
  else
    projectionErrors <-
      recomputeProductDiscountProjectionMetafields discounts affected ;;
    if (0 <? List.length projectionErrors)%nat
    then return_ (Failed AtProjectionErrors projectionErrors)
    else k.

(** The end of the update. *)
Definition update_end (nextTitle nextStatus : string)
  (productIds : list string) (persisted : list value) : M result result :=
  nextProducts <- RulePage.fetchProductSummaries productIds ;;
  return_ (Ok (UpdateRuleSettings (RulePage.toKebabCase nextTitle) nextTitle
                 nextStatus nextProducts persisted)).

(** The run does not return from the guard inside the loop over the
    tiers. *)
Definition not_from_guard (res : outcome result result * list call) : Prop :=
  match fst res with
  | Continue (Failed at_ _) | Return (Failed at_ _) =>
      at_ <> AtTierLoopNoProduct
  | _ => True
  end.

(** The tiers of a rule that the projection accepts. *)
Definition valid_tiers (rule : value) : list projection_tier :=
  flat_map (fun tier => match normalizeTierForProjection tier with
                        | Some t => [t]
                        | None => []
                        end)
    (as_array (get "tiers" rule)).

(** The rule's resolved product ids contain the product. *)
Definition targets (productId : string) (rule : value) : bool :=
  match getRuleProductIds rule with
  | Some ids => includes productId ids
  | None => false
  end.



(** The errors of the bulk writes of [chunks], each write answered after
    the ones before it. *)
Fixpoint batch_errors (admin : remote) (log : list call)
  (chunks : list (list metafield_input)) : list string :=
  match chunks with
  | [] => []
  | chunk :: rest =>
      userErrors (admin log (MetafieldsSet chunk))
      ++ batch_errors admin (log ++ [MetafieldsSet chunk]) rest
  end.

(** C9: the bulk writes of the recompute started after the calls [log]. *)
Definition batching_claim (R : Type) (discounts affectedProductIds : value)
  (admin : remote) (log : list call) : Prop :=
  exists entries chunks,
    (* one entry per product, in the order of the ids *)
    metafieldsToSet discounts (normalizeProductIds affectedProductIds)
    = Some entries /\
    map ownerId entries = map Str (normalizeProductIds affectedProductIds) /\
    (* cut into batches of 1 to 25 entries *)
    chunkArray entries MAX_METAFIELDS_SET = Some chunks /\
    List.concat chunks = entries /\
    Forall (fun chunk => (1 <= List.length chunk <= 25)%nat) chunks /\
    (* every batch is written, in order, and the errors are collected *)
    recomputeProductDiscountProjectionMetafields (R := R) discounts
      affectedProductIds admin log
    = (Continue (batch_errors admin log chunks),
       log ++ map MetafieldsSet chunks) /\
    forall i chunk,
      nth_error chunks i = Some chunk ->
      incl (userErrors (admin (log ++ map MetafieldsSet (firstn i chunks))
                          (MetafieldsSet chunk)))
        (batch_errors admin log chunks).

Definition is_metafields_set (c : call) : bool :=
  match c with
  | MetafieldsSet _ => true
  | _ => false
  end.

(** A bulk write of product projections. *)
Definition is_projection_batch (metafields : list metafield_input) : Prop :=
  metafields <> [] /\
  Forall (fun entry => exists productId tiers,
            entry = projection_metafield productId tiers) metafields.

(** The tier as persisted: the submitted one, or it with the reference of
    the discount created for it. *)
Definition same_tier (submitted persisted : value) : Prop :=
  persisted = submitted
  \/ exists id, truthy id = true
                /\ persisted = Obj (assign "discount_id" id (spread submitted)).

Definition delete_call (discountId : string) : call :=
  DiscountAutomaticDelete (Str discountId).

Definition status_call (nextStatus : string) (discountId : string) : call :=
  if (nextStatus =? "inactive")%string
  then DiscountAutomaticDeactivate (Str discountId)
  else DiscountAutomaticActivate (Str discountId).

(** The write of the document [W], answered after [pre], followed by the
    recompute for [affected] and then by [k]: the runs there are. *)
Inductive committed (admin : remote) (pre : list call) (W : call)
  (discounts affected : value) (k : M result result)
  : outcome result result * list call -> Prop :=
| write_refused :
    userErrors (admin pre W) <> [] ->
    committed admin pre W discounts affected k
      (Return (Failed AtSetErrors (userErrors (admin pre W))), pre ++ [W])
| projection_threw :
    userErrors (admin pre W) = [] ->
    metafieldsToSet discounts (normalizeProductIds affected) = None ->
    committed admin pre W discounts affected k (Threw, pre ++ [W])
| projection_refused (entries : list metafield_input)
    (chunks : list (list metafield_input)) :
    userErrors (admin pre W) = [] ->
    metafieldsToSet discounts (normalizeProductIds affected) = Some entries ->
    chunkArray entries MAX_METAFIELDS_SET = Some chunks ->
    List.concat chunks = entries ->
    Forall (fun chunk => (1 <= List.length chunk <= 25)%nat) chunks ->
    batch_errors admin (pre ++ [W]) chunks <> [] ->
    committed admin pre W discounts affected k
      (Return (Failed AtProjectionErrors
                 (batch_errors admin (pre ++ [W]) chunks)),
       (pre ++ [W]) ++ map MetafieldsSet chunks)
| projection_written (entries : list metafield_input)
    (chunks : list (list metafield_input)) :
    userErrors (admin pre W) = [] ->
    metafieldsToSet discounts (normalizeProductIds affected) = Some entries ->
    chunkArray entries MAX_METAFIELDS_SET = Some chunks ->
    List.concat chunks = entries ->
    Forall (fun chunk => (1 <= List.length chunk <= 25)%nat) chunks ->
    batch_errors admin (pre ++ [W]) chunks = [] ->
    committed admin pre W discounts affected k
      (k admin ((pre ++ [W]) ++ map MetafieldsSet chunks)).

(** How [run] reads the end of an action. *)
Definition completion_of (o : outcome result result) : completion result :=
  match o with
  | Continue r => Returned r
  | Return r => Returned r
  | Threw => Uncaught
  end.

(** No call of [calls] writes a metafield. *)
Definition quiet (calls : list call) : Prop :=
  Forall (fun c => is_metafields_set c = false) calls.




(** C6, for a run of the rule page's action in which a bulk write of
    projections is issued: the document was written before, once, and the
    write was accepted; the projections written are those of the previous
    and the new products (of the deleted rule's products); when a batch
    reports errors they are what the action returns, and nothing follows
    the batches: the document is not written again. *)
Definition reprojection_claim (JSON_parse : string -> option value)
  (formData : form) (params_tableHandle : value) (admin : remote) : Prop :=
  let shopJson := admin [] ShopQuery in
  let discounts := RulePage.current_discounts JSON_parse shopJson in
  let ran := RulePage.action JSON_parse formData params_tableHandle admin in
  let deleting :=
    (String_ (or_else (formData_get "_action" formData) (Str ""))
     =? "delete-rule")%string in
  exists ruleIndex previous pre document chunks rest,
    findIndex_throwing
      (RulePage.handle_matches (or_else params_tableHandle (Str ""))) discounts
    = Some (Some ruleIndex) /\
    getRuleProductIds (or_else (nth ruleIndex discounts Undefined) (Obj []))
    = Some previous /\
    let W := MetafieldsSet [RulePage.config_metafield (shop_id shopJson)
                              document] in
    snd ran = pre ++ W :: map MetafieldsSet chunks ++ rest /\
    quiet pre /\ quiet rest /\
    userErrors (admin pre W) = [] /\
    (if deleting then document = remove_nth ruleIndex discounts
     else exists rule', document = set_nth ruleIndex rule' discounts) /\
    Forall is_projection_batch chunks /\
    map ownerId (List.concat chunks)
    = map Str (if deleting then previous
               else unique (previous
                            ++ RulePage.nextProductIds_of JSON_parse formData)) /\
    (batch_errors admin (pre ++ [W]) chunks <> [] ->
     fst ran = Returned (Failed AtProjectionErrors
                           (batch_errors admin (pre ++ [W]) chunks))
     /\ rest = []) /\
    (batch_errors admin (pre ++ [W]) chunks = [] ->
     exists payload, fst ran = Returned (Ok payload)).


(** C1 as the specification has it, for one tier that carries a reference
    and needs a remote update: with identical fields the payload is the
    incremental one, with changed fields it is the full one. *)
Definition payload_claim_as_stated (previousProductIds productIds : list string)
  (previousTiers : list value) (tier : value) : Prop :=
  let ctx :=
    RulePage.tier_context_of previousProductIds productIds previousTiers in
  let added :=
    filter (fun id => negb (includes id previousProductIds)) productIds in
  let removed :=
    filter (fun id => negb (includes id productIds)) previousProductIds in
  nonempty_string (get "discount_id" tier) = true ->
  RulePage.shouldUpdateExistingDiscount ctx tier = true ->
  (RulePage.tierChanged ctx tier = false ->
   productsToAdd (RulePage.productsInput ctx tier) = Some added \/
   productsToRemove (RulePage.productsInput ctx tier) = Some removed) /\
  (RulePage.tierChanged ctx tier = true ->
   RulePage.productsInput ctx tier
   = {| productsToAdd := Some productIds; productsToRemove := None |}).

(** C1 as the code has it: the payload follows the change of the product
    set, not the change of the tier's fields. *)
Definition payload_claim (previousProductIds productIds : list string)
  (previousTiers : list value) (tier : value) (acc : list value)
  (admin : remote) (log : list call) : Prop :=
  let ctx :=
    RulePage.tier_context_of previousProductIds productIds previousTiers in
  let added :=
    filter (fun id => negb (includes id previousProductIds)) productIds in
  let removed :=
    filter (fun id => negb (includes id productIds)) previousProductIds in
  let input := RulePage.discountInputBase ctx tier in
  (* one update goes out for the tier *)
  snd (RulePage.reconcile_tier ctx acc tier admin log)
  = log ++ [DiscountAutomaticBasicUpdate (get "discount_id" tier) input] /\
  (* what the two lists hold *)
  (forall id, In id added <-> In id productIds /\ ~ In id previousProductIds) /\
  (forall id, In id removed <-> In id previousProductIds /\ ~ In id productIds) /\
  (* the product set changed: the incremental payload, a list that is
     empty left out *)
  (~ (forall id, In id previousProductIds <-> In id productIds) ->
   products input
   = {| productsToAdd := match added with [] => None | _ => Some added end;
        productsToRemove :=
          match removed with [] => None | _ => Some removed end |}) /\
  (* the product set did not change: the tier's fields did, and the payload
     is the whole product set *)
  ((forall id, In id previousProductIds <-> In id productIds) ->
   RulePage.tierChanged ctx tier = true /\
   products input
   = {| productsToAdd := Some productIds; productsToRemove := None |}).


End Claims.

(** ** Examples *)

Module Fixtures.
Import Js Remote QuantityBreaks.

Definition P1 : string := "gid://shopify/Product/1".
Definition P2 : string := "gid://shopify/Product/2".
Definition P3 : string := "gid://shopify/Product/3".

Definition stored_tier (title : string) (min percent : Z) (id : string)
  : value :=
  Obj [("title", Str title); ("min_quantity", Num min);
       ("percent_off", Num percent); ("discount_id", Str id)].

(** Two rules: "Rule A" on P1 and P2, "Rule B" on P2. *)
Definition rules : list value :=
  [Obj [("title", Str "Rule A"); ("status", Str "active");
        ("products", Arr [Str P1; Str P2]);
        ("tiers", Arr [stored_tier "T5" 5 10 "D1";
                       stored_tier "T10" 10 20 "D2"])];
   Obj [("title", Str "Rule B"); ("status", Str "inactive");
        ("products", Arr [Str P2]);
        ("tiers", Arr [stored_tier "B5" 5 15 "D3";
                       stored_tier "B2" 2 5 "D4"])]].

Definition document : value := Obj [("discounts", Arr rules)].

(** [JSON.parse] on the texts of the examples, each text standing for the
    JSON of the value it gives. *)
Definition parse (text : string) : option value :=
  if (text =? "document")%string then Some document
  else if (text =? "tiers as stored")%string
  then Some (Arr [stored_tier "T10" 10 20 "D2"; stored_tier "T5" 5 10 "D1"])
  else if (text =? "tiers with a new title")%string
  then Some (Arr [stored_tier "T10 plus" 10 20 "D2";
                  stored_tier "T5" 5 10 "D1"])
  else if (text =? "a tier without title")%string
  then Some (Arr [stored_tier "T5" 5 10 "D1"; stored_tier "" 7 10 ""])
  else if (text =? "products 2 and 3")%string
  then Some (Arr [Obj [("id", Str P2)]; Obj [("id", Str P3)]])
  else if (text =? "[]")%string then Some (Arr [])
  else None.

Definition answer (errors : list string) : response :=
  {| shop_id := Str "gid://shopify/Shop/1";
     shop_metafield_value := Str "document";
     nodes := Arr [];
     automaticDiscountNode_id := Str "D9";
     userErrors := errors |}.

(** A service that accepts everything. *)
Definition accepting : remote := fun _ _ => answer [].


Definition delete_form : form := [("_action", "delete-rule")].

Definition update_form (tiers : string) : form :=
  [("_action", "update-rule-settings"); ("title", "Rule A");
   ("status", "active"); ("tiers", tiers); ("products", "products 2 and 3")].

Definition add_form : form :=
  [("_action", "add-discount"); ("title", "Rule B"); ("discountTitle", "B9");
   ("minimumQuantity", "9"); ("percentOff", "30");
   ("selectedProducts", "products 2 and 3")].

(** The update of "Rule A" to the products P2 and P3, tiers as stored. *)
Definition update_run : completion result * list call := Eval vm_compute in
    RulePage.action parse (update_form "tiers as stored") (Str "rule-a")
      accepting.

Definition update_products : list value :=
  match fst update_run with
  | Returned (Ok (UpdateRuleSettings _ _ _ nextProducts _)) => nextProducts
  | _ => []
  end.

Definition update_tiers : list value :=
  match fst update_run with
  | Returned (Ok (UpdateRuleSettings _ _ _ _ nextTiers)) => nextTiers
  | _ => []
  end.

Definition update_batch : list metafield_input := Eval vm_compute in
    match nth 6 (snd update_run) ShopQuery with
    | MetafieldsSet metafields => metafields
    | _ => []
    end.

End Fixtures.

(** ** The rule page: the editor and the loader *)

Module RuleEditor.
Import Js Remote QuantityBreaks.

(** [v?.[0]] *)
Definition first_item (v : value) : value :=
  match v with
  | Arr (x :: _) => x
  | Str (String c _) => Str (String c EmptyString)
  | Obj fields => lookup "0" fields
  | _ => Undefined
  end.

(** [value.map((x) => ({ ...(x || {}) }))] for an array, [[]] otherwise *)
Definition cloneTiers (v : value) : list value :=
  match v with
  | Arr items => map (fun tier => Obj (spread (or_else tier (Obj [])))) items
  | _ => []
  end.

Definition cloneProducts (v : value) : list value :=
  match v with
  | Arr items =>
      map (fun product => Obj (spread (or_else product (Obj [])))) items
  | _ => []
  end.

Definition getProductImageUrl (product : value) : value :=
  or_else (get "image" product)
    (or_else (get "originalSrc" (first_item (get "images" product)))
       (or_else (get "url" (first_item (get "images" product)))
          (or_else (get "url" (get "featuredImage" product))
             (or_else (get "src" (get "image" product)) (Str ""))))).

(** The parameter defaults to [{}] when it is [undefined]. *)
Definition normalizeProductForEditor (product : value) : value :=
  let product := match product with Undefined => Obj [] | _ => product end in
  let productId := normalizeProductId product in
  if negb (nonempty productId)
  then Obj [("id", Str ""); ("title", Str ""); ("image", Str "")]
  else if is_string product
  then Obj [("id", Str productId); ("title", Str ""); ("image", Str "")]
  else Obj [("id", Str productId);
            ("title", if is_string (get "title" product)
                      then get "title" product else Str "");
            ("image", getProductImageUrl product)].

(** [id.startsWith("gid://shopify/Product/")] for the [id] of a product of
    the editor, which is a string. *)
Definition has_product_prefix (id : value) : bool :=
  match id with
  | Str s => startsWith PRODUCT_PREFIX s
  | _ => false
  end.

(** The body of the [reduce]: a [Map] from ids to products that keeps the
    first product of each id. *)
Definition keep_first (acc : list (value * value)) (product : value)
  : list (value * value) :=
  match map_get strict_eq (get "id" product) acc with
  | Some _ => acc
  | None => map_set strict_eq (get "id" product) product acc
  end.

Definition normalizeProductsForEditor (products : value) : list value :=
  match products with
  | Arr items =>
      map_values
        (fold_left keep_first
           (filter (fun product => has_product_prefix (get "id" product))
              (map normalizeProductForEditor items))
           [])
  | _ => []
  end.

(** [s.split(sep)] for a separator of one character *)
Fixpoint split_chars (sep : ascii) (l : list ascii) : list (list ascii) :=
  match l with
  | [] => [[]]
  | c :: rest =>
      if (c =? sep)%char then [] :: split_chars sep rest
      else match split_chars sep rest with
           | part :: parts => (c :: part) :: parts
           | [] => [[c]]
           end
  end.

Definition split (sep : ascii) (s : string) : list string :=
  map string_of_list_ascii (split_chars sep (list_ascii_of_string s)).

Definition getProductNumericId (productGid : value) : string :=
  match productGid with
  | Str s => last (split "/" s) ""
  | _ => ""
  end.

Definition buildExcludeProductsQuery (products : value) : string :=
  let ids :=
    filter nonempty
      (map (fun productId => getProductNumericId (Str productId))
         (normalizeProductIds products)) in
  String.concat " " (map (fun id => "-id:" ++ id)%string ids).

(** [v === null || v === undefined ? "" : String(v)] *)
Definition field_text (v : value) : value :=
  match v with
  | Null | Undefined => Str ""
  | _ => Str (String_ v)
  end.

(** [typeof v === "string" ? v : ""] *)
Definition string_or_empty (v : value) : value :=
  if is_string v then v else Str "".

(** [None]: reading a field of [null] throws; the parameter defaults to
    [{}] when it is [undefined]. *)
Definition normalizeTierForEditor (tier : value) : option value :=
  match tier with
  | Null => None
  | _ =>
      let tier := match tier with Undefined => Obj [] | _ => tier end in
      Some (Obj [("title", string_or_empty (get "title" tier));
                 ("min_quantity", field_text (get "min_quantity" tier));
                 ("percent_off", field_text (get "percent_off" tier));
                 ("discount_id", string_or_empty (get "discount_id" tier))])
  end.

(** [l.map(f)] where [f] may throw *)
Fixpoint traverse {A B : Type} (f : A -> option B) (l : list A)
  : option (list B) :=
  match l with
  | [] => Some []
  | x :: rest =>
      match f x with
      | None => None
      | Some y =>
          match traverse f rest with
          | None => None
          | Some ys => Some (y :: ys)
          end
      end
  end.

(** [v?.status === "inactive" ? "inactive" : "active"] *)
Definition status_of (v : value) : value :=
  if strict_eq (get "status" v) (Str "inactive")
  then Str "inactive" else Str "active".

Definition buildEditorState (source : value) : option value :=
  match
    match get "tiers" source with
    | Arr tiers => traverse normalizeTierForEditor tiers
    | _ => Some []
    end
  with
  | None => None
  | Some tiers =>
      Some (Obj [("title", or_else (get "title" source) (Str ""));
                 ("status", status_of source);
                 ("tiers", Arr tiers);
                 ("products",
                  Arr (normalizeProductsForEditor (get "products" source)))])
  end.

Definition cloneEditorState (state : value) : value :=
  Obj [("title", or_else (get "title" state) (Str ""));
       ("status", status_of state);
       ("tiers", Arr (cloneTiers (or_else (get "tiers" state) (Arr []))));
       ("products",
        Arr (cloneProducts (or_else (get "products" state) (Arr []))))].

(** *** The updaters of the editor's lists

    Each is the function given to [setTiers] or [setProducts]: from the
    current list to the next one. *)

(** [handleRemoveTier(index)] *)
Definition removeTier (index : nat) (current : list value) : list value :=
  if (List.length current <=? 1)%nat then current
  else remove_nth index current.

(** [handleRemoveProduct(productId)] *)
Definition removeProduct (productId : value) (current : list value)
  : list value :=
  if (List.length current <=? 1)%nat then current
  else filter (fun product => negb (strict_eq (get "id" product) productId))
         current.

(** The updater of [handleAddProducts]; the ids of the products of the
    editor are strings. *)
Definition addProducts (selectedProducts current : list value) : list value :=
  let currentIds := map (get "id") current in
  let mergedById :=
    fold_left (fun m product => map_set strict_eq (get "id" product) product m)
      current [] in
  let mergedById :=
    fold_left
      (fun m product =>
         if existsb (strict_eq (get "id" product)) currentIds then m
         else map_set strict_eq (get "id" product) product m)
      selectedProducts mergedById in
  let next := map_values mergedById in
  if (List.length next =? List.length current)%nat then current else next.

(** [l.find(p)] where [p] may throw: [None] when it throws before a match,
    [Some None] for [undefined]. *)
Fixpoint find_throwing {A : Type} (p : A -> option bool) (l : list A)
  : option (option A) :=
  match l with
  | [] => Some None
  | x :: rest =>
      match p x with
      | None => None
      | Some true => Some (Some x)
      | Some false => find_throwing p rest
      end
  end.

Section Loader.
Variable JSON_parse : string -> option value.

Definition not_found (tableHandle : value) : value :=
  Obj [("notFound", Bool true); ("title", Str "Rule not found");
       ("status", Str "active"); ("tiers", Arr []); ("products", Arr []);
       ("tableHandle", tableHandle)].

(** The loader of the rule page; its query reads the metafield of the
    shop. *)
Definition loader_body (params_tableHandle : value) : M value value :=
  responseJson <- graphql ShopQuery ;;
  let config :=
    parseDiscountConfig JSON_parse (shop_metafield_value responseJson) in
  let tableHandle := or_else params_tableHandle (Str "") in
  found <- lift (find_throwing (RulePage.handle_matches tableHandle)
                   (as_array (or_else (get "discounts" config) (Arr [])))) ;;
  let rule := match found with Some rule => rule | None => Undefined end in
  if negb (truthy rule) then ret (not_found tableHandle)
  else
    ruleProductIds <- lift (getRuleProductIds rule) ;;
    liveProducts <- RulePage.fetchProductSummaries ruleProductIds ;;
    ret (Obj [("notFound", Bool false);
              ("title", or_else (get "title" rule) (Str "Untitled"));
              ("status", status_of rule);
              ("tiers", Arr (as_array (get "tiers" rule)));
              ("products", Arr liveProducts);
              ("tableHandle", tableHandle)]).

Definition loader (params_tableHandle : value) (admin : remote)
  : completion value * list call :=
  run (loader_body params_tableHandle) admin.
End Loader.

End RuleEditor.

(** ** The index page: the list of rules *)

Module IndexList.
Import Js Remote QuantityBreaks.

Definition getTierDisplayTitle (tier : value) : value :=
  or_else (get "title" tier)
    (or_else (get "label" tier) (Str "Untitled discount")).

(** One row of the table; [None] when building it throws: the rule is
    [null] or [undefined], its title is truthy and not a string, or its
    [tiers] is truthy and not an array. *)
Definition row_of (discount : value) : option value :=
  match discount with
  | Null | Undefined => None
  | _ =>
      match or_else (get "title" discount) (Str "untitled") with
      | Str s =>
          match or_else (get "tiers" discount) (Arr []) with
          | Arr tiers =>
              Some (Obj [("title",
                          or_else (get "title" discount) (Str "Untitled"));
                         ("handle", Str (RulePage.toKebabCase s));
                         ("tierTitles", Arr (map getTierDisplayTitle tiers))])
          | _ => None
          end
      | _ => None
      end
  end.

Section Loader.
Variable JSON_parse : string -> option value.

Definition loader_body : M (list value) (list value) :=
  responseJson <- graphql ShopQuery ;;
  let config :=
    parseDiscountConfig JSON_parse (shop_metafield_value responseJson) in
  lift (RuleEditor.traverse row_of
          (as_array (or_else (get "discounts" config) (Arr [])))).

Definition loader (admin : remote) : completion (list value) * list call :=
  run loader_body admin.
End Loader.

End IndexList.

(** ** shopify.server: the metafield set up after authentication *)

Module ShopifyServer.
Import Js Remote QuantityBreaks.

Inductive call : Type :=
| SetMetafieldGetShop
| SetMetafield (metafields : list metafield_input).

(** What [ensureQuantityBreaksMetafield] reads in a response:
    [data.shop.id], [data.shop.metafield.id] and the [userErrors] of
    [metafieldsSet]. *)
Record response : Type := {
  shop_id : value;
  shop_metafield_id : value;
  userErrors : list value
}.

(** [None]: the call, or the reading of its body, throws. *)
Definition remote : Type := list call -> call -> option response.

(** What is written with [console.error]. *)
Inductive console_error : Type :=
| BootstrapFailed (errors : list value)
| BootstrapThrew.

Inductive outcome : Type :=
| Done
| Raised.

(** The body of the [try]. *)
Definition bootstrap (admin : remote)
  : outcome * list call * list console_error :=
  match admin [] SetMetafieldGetShop with
  | None => (Raised, [SetMetafieldGetShop], [])
  | Some shopJson =>
      let shopId := shop_id shopJson in
      let metafieldId := shop_metafield_id shopJson in
      if negb (truthy shopId) || truthy metafieldId
      then (Done, [SetMetafieldGetShop], [])
      else
        let set :=
          SetMetafield [{| ownerId := shopId;
                           namespace := "quantity_breaks";
                           key := "discounts";
                           type := "json";
                           mvalue := ConfigJson [] |}] in
        match admin [SetMetafieldGetShop] set with
        | None => (Raised, [SetMetafieldGetShop; set], [])
        | Some setJson =>
            let errors := userErrors setJson in
            if (0 <? List.length errors)%nat
            then (Done, [SetMetafieldGetShop; set], [BootstrapFailed errors])
            else (Done, [SetMetafieldGetShop; set], [])
        end
  end.

(** [try { ... } catch (error) { console.error(...) }] *)
Definition ensureQuantityBreaksMetafield (admin : remote)
  : outcome * list call * list console_error :=
  match bootstrap admin with
  | (Raised, calls, console) => (Done, calls, console ++ [BootstrapThrew])
  | done => done
  end.

End ShopifyServer.

(** ** What the further properties speak of *)

Module Shapes.
Import Js Remote QuantityBreaks Claims.

Definition is_hyphen (c : ascii) : bool := (c =? "-")%char.

(** A list of characters without two hyphens in a row. *)
Fixpoint single_hyphens (l : list ascii) : Prop :=
  match l with
  | a :: (b :: _) as rest =>
      ~ (a = "-"%char /\ b = "-"%char) /\ single_hyphens rest
  | _ => True
  end.

(** The characters a handle is made of. *)
Definition handle_char (c : ascii) : bool :=
  is_lower c || is_digit c || (c =? "-")%char.

(** The characters of [toKebabCase s], before they are made a string. *)
Definition kebab_chars (s : string) : list ascii :=
  replace_runs is_hyphen false
    (replace_runs is_space false
       (filter RulePage.kebab_kept (list_ascii_of_string (toLowerCase (trim s))))).

(** The data of the rule page for a rule found. *)
Definition rule_data (rule tableHandle : value) (products : list value)
  : value :=
  Obj [("notFound", Bool false);
       ("title", or_else (get "title" rule) (Str "Untitled"));
       ("status", RuleEditor.status_of rule);
       ("tiers", Arr (as_array (get "tiers" rule)));
       ("products", Arr products);
       ("tableHandle", tableHandle)].

(** The one query for the summaries of [ids], none when there is no id. *)
Definition summaries_query (ids : list string) : list call :=
  match ids with
  | [] => []
  | _ => [ProductNodesQuery ids]
  end.

(** X19: what the loader of the rule page shows, by the index at which the
    actions of the page find the rule. *)
Definition loader_claim (JSON_parse : string -> option value)
  (params_tableHandle : value) (admin : remote) : Prop :=
  let discounts := RulePage.current_discounts JSON_parse (admin [] ShopQuery) in
  let tableHandle := or_else params_tableHandle (Str "") in
  let shown := RuleEditor.loader JSON_parse params_tableHandle admin in
  match findIndex_throwing (RulePage.handle_matches tableHandle) discounts with
  | None => shown = (Uncaught, [ShopQuery])
  | Some None => shown = (Returned (RuleEditor.not_found tableHandle), [ShopQuery])
  | Some (Some ruleIndex) =>
      let rule := nth ruleIndex discounts Undefined in
      if truthy rule
      then exists ids products,
          getRuleProductIds rule = Some ids /\
          map (get "id") products = map Str ids /\
          shown = (Returned (rule_data rule tableHandle products),
                   ShopQuery :: summaries_query ids)
      else shown = (Returned (RuleEditor.not_found tableHandle), [ShopQuery])
  end.

(** X20: the rows of the index page and the rules their links open. *)
Definition rows_claim (discounts rows : list value) : Prop :=
  List.length rows = List.length discounts /\
  forall i rule row,
    nth_error discounts i = Some rule ->
    nth_error rows i = Some row ->
    (* a rule with a title: its link opens the first rule of its handle *)
    (forall title,
        get "title" rule = Str title -> title <> "" ->
        get "handle" row = Str (RulePage.toKebabCase title) /\
        exists j first,
          (j <= i)%nat /\
          findIndex_throwing
            (RulePage.handle_matches (Str (RulePage.toKebabCase title)))
            discounts = Some (Some j) /\
          nth_error discounts j = Some first /\
          RulePage.handle_matches (Str (RulePage.toKebabCase title)) first
          = Some true) /\
    (* a rule without title: its link does not open it *)
    (truthy (get "title" rule) = false ->
     get "title" row = Str "Untitled" /\
     get "handle" row = Str "untitled" /\
     RulePage.handle_matches (Str "untitled") rule = Some false).

(** X25: the calls of a successful update between the loop over the tiers
    and the write of the document. *)
Definition update_calls_claim (JSON_parse : string -> option value)
  (params_tableHandle : value) (admin : remote) (nextStatus : string)
  (persisted : list value) (log : list call) : Prop :=
  let shopJson := admin [] ShopQuery in
  let discounts := RulePage.current_discounts JSON_parse shopJson in
  exists ruleIndex tierCalls document after,
    findIndex_throwing
      (RulePage.handle_matches (or_else params_tableHandle (Str ""))) discounts
    = Some (Some ruleIndex) /\
    let rule := or_else (nth ruleIndex discounts Undefined) (Obj []) in
    let kept := RulePage.discount_ids persisted in
    let removed :=
      filter (fun id => negb (includes id kept))
        (RulePage.discount_ids (as_array (get "tiers" rule))) in
    let before := ShopQuery :: tierCalls in
    (* the discounts of the tiers that are gone are deleted, then the
       status goes to the discounts that stay, then the document is
       written *)
    log = before ++ map delete_call removed
          ++ map (status_call nextStatus) kept
          ++ MetafieldsSet [RulePage.config_metafield (shop_id shopJson)
                              document] :: after /\
    quiet tierCalls /\
    (* every deletion was accepted *)
    forall j id,
      nth_error removed j = Some id ->
      userErrors (admin (before ++ map delete_call (firstn j removed))
                    (delete_call id)) = [].

(** What add-discount reads in the form: the title of the rule, the input
    of the discount to create and the errors of the inputs. *)
Definition add_title (formData : form) : string :=
  trim (String_ (or_else (formData_get "title" formData) (Str ""))).

Definition add_discountTitle (formData : form) : string :=
  trim (String_ (or_else (formData_get "discountTitle" formData) (Str ""))).

Definition add_minimumQuantity (formData : form) : value :=
  parseInt (String_ (or_else (formData_get "minimumQuantity" formData)
                       (Str "0"))).

Definition add_percentOff (formData : form) : value :=
  parseInt (String_ (or_else (formData_get "percentOff" formData) (Str "0"))).

Definition add_productIds (JSON_parse : string -> option value)
  (formData : form) : list string :=
  normalizeProductIds
    (Arr (map (get "id")
            (RulePage.parse_array JSON_parse
               (formData_get "selectedProducts" formData)))).

Definition add_errors (JSON_parse : string -> option value) (formData : form)
  : list string :=
  IndexPage.input_errors (add_title formData) (add_discountTitle formData)
    (add_minimumQuantity formData) (add_percentOff formData)
    (add_productIds JSON_parse formData).

Definition add_created (JSON_parse : string -> option value) (formData : form)
  : call :=
  DiscountAutomaticBasicCreate
    (IndexPage.automaticBasicDiscount (add_discountTitle formData)
       (add_minimumQuantity formData) (add_percentOff formData)
       (add_productIds JSON_parse formData)).

(** X27: add-discount when the service accepts the discount and gives no
    id for it. *)
Definition unchecked_id_claim (JSON_parse : string -> option value)
  (formData : form) (admin : remote) : Prop :=
  let shopJson := admin [] ShopQuery in
  let created := add_created JSON_parse formData in
  let discountId := automaticDiscountNode_id (admin [ShopQuery] created) in
  let tier :=
    IndexPage.newTier (add_discountTitle formData)
      (add_minimumQuantity formData) (add_percentOff formData) discountId in
  exists document chunks rule earlier,
    (* the document is written all the same, right after the creation *)
    snd (IndexPage.action JSON_parse formData admin)
    = [ShopQuery; created;
       MetafieldsSet [RulePage.config_metafield (shop_id shopJson) document]]
      ++ map MetafieldsSet chunks /\
    (* with the tier, which has no id, last in its rule *)
    In rule document /\
    get "title" rule = Str (add_title formData) /\
    get "tiers" rule = Arr (earlier ++ [tier]) /\
    get "discount_id" tier = discountId /\
    (* the update of the rule will create a discount for it again *)
    RulePage.shouldCreateDiscount tier = true.

(** The calls that set the status of a discount. *)
Definition is_status_call (c : call) : bool :=
  match c with
  | DiscountAutomaticActivate _ | DiscountAutomaticDeactivate _ => true
  | _ => false
  end.

(** Two services that answer alike, except perhaps to the calls that set
    a status. *)
Definition same_but_status (admin admin' : remote) : Prop :=
  forall log c, is_status_call c = false -> admin log c = admin' log c.

(** A piece of an action that runs alike with two such services. *)
Definition status_blind {R A : Type} (m : M R A) : Prop :=
  forall admin admin' log,
    same_but_status admin admin' -> m admin log = m admin' log.

End Shapes.

(** ** More examples *)

Module Scenes.
Import Js Remote QuantityBreaks Fixtures Shapes.

(** "Rule A" of the examples, and its tiers. *)
Definition rule_a : value := nth 0 rules Undefined.

Definition tiers_a : list value :=
  [stored_tier "T5" 5 10 "D1"; stored_tier "T10" 10 20 "D2"].

(** A rule whose products are given by its tiers only. *)
Definition rule_by_tiers : value :=
  Obj [("title", Str "Legacy");
       ("tiers",
        Arr [Obj [("products", Arr [Str P2; Str P1])];
             Obj [("products", Arr [Obj [("id", Str P1)]; Str P3])]])].

(** A tier as the editor shows it. *)
Definition tier_text (title min percent id : string) : value :=
  Obj [("title", Str title); ("min_quantity", Str min);
       ("percent_off", Str percent); ("discount_id", Str id)].

(** A tier of no per cent, as the update accepts and stores it. *)
Definition free_tier : value := stored_tier "Free" 3 0 "D7".

(** The state of the editor for "Rule A". *)
Definition state_a : value :=
  match RuleEditor.buildEditorState rule_a with
  | Some state => state
  | None => Undefined
  end.

(** Products as the editor holds them. *)
Definition shown (id title : string) : value :=
  Obj [("id", Str id); ("title", Str title); ("image", Str "")].

(** The rows of the index page for the document of the examples. *)
Definition rows : list value :=
  match fst (IndexList.loader parse accepting) with
  | Returned rows => rows
  | Uncaught => []
  end.

(** A service for the set up of the metafield: the shop has no metafield
    yet. *)
Definition fresh_shop : ShopifyServer.remote :=
  fun _ _ =>
    Some {| ShopifyServer.shop_id := Str "gid://shopify/Shop/1";
            ShopifyServer.shop_metafield_id := Undefined;
            ShopifyServer.userErrors := [] |}.

(** A service that accepts the creation of a discount and gives no id. *)
Definition without_id : remote :=
  fun _ c =>
    match c with
    | DiscountAutomaticBasicCreate _ =>
        {| shop_id := Str "gid://shopify/Shop/1";
           shop_metafield_value := Str "document";
           nodes := Arr [];
           automaticDiscountNode_id := Undefined;
           userErrors := [] |}
    | _ => answer []
    end.

(** A service that refuses to set the status of any discount. *)
Definition refusing_status : remote :=
  fun _ c =>
    if is_status_call c then answer ["The status cannot be set"]
    else answer [].

End Scenes.

(** * Properties *)

Import Js Remote QuantityBreaks Claims.

(** ** Arrays *)

Section SortFacts.
Context {A : Type} (cmp : A -> A -> Z).

Lemma insert_perm (x : A) (l : list A) : Permutation (insert cmp x l) (x :: l).
Proof.
  induction l as [|y l IH]; simpl.
  - apply Permutation_refl.
  - destruct (cmp x y <=? 0).
    + apply Permutation_refl.
    + eapply perm_trans; [apply perm_skip, IH | apply perm_swap].
Qed.

Lemma sort_perm (l : list A) : Permutation (sort cmp l) l.
Proof.
  induction l as [|x l IH]; simpl.
  - apply perm_nil.
  - eapply perm_trans; [apply insert_perm | apply perm_skip, IH].
Qed.

Lemma sort_length (l : list A) : List.length (sort cmp l) = List.length l.
Proof. apply Permutation_length, sort_perm. Qed.

Lemma sort_in (l : list A) (x : A) : In x (sort cmp l) <-> In x l.
Proof.
  split; apply Permutation_in; [| apply Permutation_sym]; apply sort_perm.
Qed.


End SortFacts.

Section SortByKey.
Context {A : Type} (key : A -> Z).





End SortByKey.

Lemma includes_In (x : string) (l : list string) :
  includes x l = true <-> In x l.
Proof.
  unfold includes. rewrite existsb_exists. split.
  - intros [y [Hy He]]. apply String.eqb_eq in He. now subst.
  - intros H. exists x. split; [exact H | apply String.eqb_refl].
Qed.

Lemma includes_false (x : string) (l : list string) :
  includes x l = false <-> ~ In x l.
Proof.
  rewrite <- includes_In. destruct (includes x l); split; congruence.
Qed.

Lemma unique_from_In (l seen : list string) (x : string) :
  In x (unique_from seen l) <-> In x l /\ ~ In x seen.
Proof.
  revert seen. induction l as [|y l IH]; intros seen; simpl.
  - tauto.
  - destruct (includes y seen) eqn:E.
    + apply includes_In in E. rewrite IH. split.
      * intros [H1 H2]. tauto.
      * intros [[->|H1] H2]; tauto.
    + apply includes_false in E. simpl. rewrite IH. simpl. split.
      * intros [->|[H1 H2]]; [tauto|]. split; [tauto|]. tauto.
      * intros [[->|H1] H2]; [tauto|].
        destruct (string_dec y x) as [->|Hn]; [tauto|]. right. tauto.
  Qed.

Lemma unique_from_NoDup (l seen : list string) : NoDup (unique_from seen l).
Proof.
  revert seen. induction l as [|y l IH]; intros seen; simpl.
  - constructor.
  - destruct (includes y seen); [apply IH|].
    constructor; [|apply IH].
    rewrite unique_from_In. simpl. tauto.
Qed.

Lemma unique_In (l : list string) (x : string) : In x (unique l) <-> In x l.
Proof. unfold unique. rewrite unique_from_In. simpl. tauto. Qed.

Lemma unique_NoDup (l : list string) : NoDup (unique l).
Proof. apply unique_from_NoDup. Qed.

Lemma unique_from_id (l seen : list string) :
  NoDup l -> (forall x, In x l -> ~ In x seen) -> unique_from seen l = l.
Proof.
  revert seen. induction l as [|y l IH]; intros seen Hn Hs; [reflexivity|].
  simpl. inversion Hn as [|? ? Hy Hl]; subst.
  assert (E : includes y seen = false).
  { apply includes_false. apply Hs. now left. }
  rewrite E. f_equal. apply IH; [exact Hl|].
  intros x Hx [->|Hx']; [contradiction|].
  apply (Hs x); [now right | exact Hx'].
Qed.

Lemma unique_id (l : list string) : NoDup l -> unique l = l.
Proof. intros H. apply unique_from_id; [exact H | intros x _ []]. Qed.

(** ** The projection of a product *)

Section MapFacts.
Context {V : Type}.
Implicit Types (m : list (Z * V)) (k : Z) (v : V).

Lemma map_get_In m k v : map_get Z.eqb k m = Some v -> In (k, v) m.
Proof.
  induction m as [|[k' v'] m IH]; simpl; [discriminate|].
  destruct (Z.eqb_spec k k') as [->|Hk].
  - intros [= ->]. now left.
  - intros H. right. now apply IH.
Qed.

Lemma map_get_None m k : map_get Z.eqb k m = None -> ~ In k (map fst m).
Proof.
  induction m as [|[k' v'] m IH]; simpl; [tauto|].
  destruct (Z.eqb_spec k k') as [->|Hk]; [discriminate|].
  intros H [E|HIn]; [congruence | now apply IH].
Qed.

Lemma map_set_keys_present m k v :
  In k (map fst m) -> map fst (map_set Z.eqb k v m) = map fst m.
Proof.
  induction m as [|[k' v'] m IH]; simpl; [tauto|].
  destruct (Z.eqb_spec k k') as [->|Hk]; [reflexivity|].
  intros [E|HIn]; [congruence|]. simpl. f_equal. now apply IH.
Qed.

Lemma map_set_keys_absent m k v :
  ~ In k (map fst m) -> map_set Z.eqb k v m = m ++ [(k, v)].
Proof.
  induction m as [|[k' v'] m IH]; simpl; [reflexivity|].
  destruct (Z.eqb_spec k k') as [->|Hk]; [tauto|].
  intros H. f_equal. apply IH. tauto.
Qed.

Lemma map_set_In m k v k' v' :
  NoDup (map fst m) ->
  In (k', v') (map_set Z.eqb k v m) <->
  (k' = k /\ v' = v) \/ (k' <> k /\ In (k', v') m).
Proof.
  induction m as [|[k0 v0] m IH]; simpl; intros Hn.
  - split; [intros [[= -> ->]|[]]; now left | intros [[-> ->]|[_ []]]; now left].
  - inversion Hn as [|? ? Hk0 Hm]; subst.
    destruct (Z.eqb_spec k k0) as [->|Hk]; simpl.
    + split.
      * intros [[= -> ->]|H]; [now left|]. right. split; [|now right].
        intros ->. apply Hk0. now apply (in_map fst) in H.
      * intros [[-> ->]|[Hne [[= -> ->]|H]]]; [now left | congruence | now right].
    + rewrite IH by exact Hm. split.
      * intros [[= -> ->]|[H|H]]; [right; split; [congruence | now left] | now left |].
        right. split; [tauto | right; tauto].
      * intros [H|[Hne [[= -> ->]|H]]]; [right; now left | now left | right; right; tauto].
Qed.

Lemma map_set_NoDup m k v :
  NoDup (map fst m) -> NoDup (map fst (map_set Z.eqb k v m)).
Proof.
  intros Hn. destruct (in_dec Z.eq_dec k (map fst m)) as [Hi|Hi].
  - now rewrite map_set_keys_present.
  - rewrite map_set_keys_absent by exact Hi. rewrite map_app. simpl.
    apply NoDup_app; [exact Hn | repeat constructor; tauto |].
    intros x Hx [<-|[]]. contradiction.
Qed.

Lemma NoDup_keys_functional m k v1 v2 :
  NoDup (map fst m) -> In (k, v1) m -> In (k, v2) m -> v1 = v2.
Proof.
  induction m as [|[k0 v0] m IH]; simpl; [tauto|].
  intros Hn H1 H2. inversion Hn as [|? ? Hk0 Hm]; subst.
  destruct H1 as [[= -> ->]|H1], H2 as [[= E]|H2].
  - congruence.
  - exfalso. apply Hk0. now apply (in_map fst) in H2.
  - subst. exfalso. apply Hk0. now apply (in_map fst) in H1.
  - now apply IH.
Qed.
End MapFacts.

Lemma Qlt_bool_true (a b : Q) : Qlt_bool a b = true -> (a < b)%Q.
Proof.
  unfold Qlt_bool. intros H. apply negb_true_iff in H.
  apply Qnot_le_lt. intros Hle. apply Qle_bool_iff in Hle. congruence.
Qed.

Lemma Qlt_bool_false (a b : Q) : Qlt_bool a b = false -> (b <= a)%Q.
Proof.
  unfold Qlt_bool. intros H. apply negb_false_iff in H.
  now apply Qle_bool_iff.
Qed.

Section Projection.
Import Claims.

Lemma projected_nil : projected [] [].
Proof. split; [constructor | intros ? ? [] | intros ? []]. Qed.

Lemma project_tier_projected (m : tier_map) (seen : list projection_tier)
  (tier : value) :
  projected m seen ->
  projected (project_tier m tier)
    (seen ++ match normalizeTierForProjection tier with
             | Some t => [t]
             | None => []
             end).
Proof.
  intros [Hk Hb Ha]. unfold project_tier.
  destruct (normalizeTierForProjection tier) as [t|];
    [|rewrite app_nil_r; now split].
  assert (Hset : forall old,
             (forall v, In (min_quantity t, v) m -> v = old) ->
             (forall c, In c seen -> min_quantity c = min_quantity t ->
                        (percent_off c <= percent_off t)%Q) ->
             projected (map_set Z.eqb (min_quantity t) t m) (seen ++ [t])).
  { intros old Hold Hle. split.
    - now apply map_set_NoDup.
    - intros k v Hin. apply map_set_In in Hin; [|exact Hk].
      destruct Hin as [[-> ->]|[Hne Hin]].
      + split; [reflexivity|]. split; [apply in_or_app; right; now left|].
        intros c Hc Hck. apply in_app_or in Hc. destruct Hc as [Hc|[<-|[]]].
        * now apply Hle.
        * apply Qle_refl.
      + destruct (Hb k v Hin) as [H1 [H2 H3]].
        split; [exact H1|]. split; [apply in_or_app; now left|].
        intros c Hc Hck. apply in_app_or in Hc. destruct Hc as [Hc|[<-|[]]].
        * now apply H3.
        * congruence.
    - intros c Hc. apply in_app_or in Hc.
      destruct (in_dec Z.eq_dec (min_quantity t) (map fst m)) as [Hi|Hi].
      + rewrite map_set_keys_present by exact Hi.
        destruct Hc as [Hc|[<-|[]]]; [now apply Ha | exact Hi].
      + rewrite map_set_keys_absent by exact Hi. rewrite map_app.
        apply in_or_app. destruct Hc as [Hc|[<-|[]]];
          [left; now apply Ha | right; now left]. }
  destruct (map_get Z.eqb (min_quantity t) m) as [existing|] eqn:Eg.
  - apply map_get_In in Eg.
    destruct (Hb _ _ Eg) as [H1 [H2 H3]].
    destruct (Qlt_bool (percent_off existing) (percent_off t)) eqn:El.
    + apply Qlt_bool_true in El. apply (Hset existing).
      * intros v Hv. exact (NoDup_keys_functional _ _ _ _ Hk Hv Eg).
      * intros c Hc Hck. eapply Qle_trans; [apply (H3 c Hc Hck)|].
        now apply Qlt_le_weak.
    + apply Qlt_bool_false in El. split.
      * exact Hk.
      * intros k v Hin. destruct (Hb k v Hin) as [G1 [G2 G3]].
        split; [exact G1|]. split; [apply in_or_app; now left|].
        intros c Hc Hck. apply in_app_or in Hc. destruct Hc as [Hc|[<-|[]]].
        -- now apply G3.
        -- rewrite <- Hck in Hin.
           rewrite (NoDup_keys_functional _ _ _ _ Hk Hin Eg).
           exact El.
      * intros c Hc. apply in_app_or in Hc. destruct Hc as [Hc|[<-|[]]].
        -- now apply Ha.
        -- now apply (in_map fst) in Eg.
  - apply map_get_None in Eg. apply (Hset t).
    + intros v Hv. exfalso. apply Eg. now apply (in_map fst) in Hv.
    + intros c Hc Hck. exfalso. apply Eg. rewrite <- Hck. now apply Ha.
Qed.

Lemma project_tiers_projected (tiers : list value) (m : tier_map)
  (seen : list projection_tier) :
  projected m seen ->
  projected (fold_left project_tier tiers m)
    (seen ++ flat_map (fun tier => match normalizeTierForProjection tier with
                                   | Some t => [t]
                                   | None => []
                                   end) tiers).
Proof.
  revert m seen. induction tiers as [|tier tiers IH]; intros m seen H; simpl.
  - now rewrite app_nil_r.
  - rewrite app_assoc. apply IH. now apply project_tier_projected.
Qed.

Lemma getRuleProductIds_not_null (rule : value) :
  rule <> Null -> exists ids, getRuleProductIds rule = Some ids.
Proof.
  intros H. unfold getRuleProductIds.
  destruct rule; try congruence;
    match goal with
    | |- context [if ?c then _ else _] => destruct c
    end; eexists; reflexivity.
Qed.

Lemma project_rules_projected (productId : string) (rules : list value)
  (m : tier_map) (seen : list projection_tier) :
  Forall (fun rule => rule <> Null) rules ->
  projected m seen ->
  exists m',
    project_rules rules productId m = Some m' /\
    projected m'
      (seen ++ flat_map valid_tiers (filter (targets productId) rules)).
Proof.
  intros Hr. revert m seen.
  induction Hr as [|rule rules Hrule Hrules IH]; intros m seen H; simpl.
  - exists m. rewrite app_nil_r. now split.
  - destruct (getRuleProductIds_not_null rule Hrule) as [ids Hids].
    unfold targets at 1. rewrite Hids.
    destruct (includes productId ids); simpl.
    + rewrite app_assoc. apply IH. now apply project_tiers_projected.
    + now apply IH.
Qed.




Lemma buildProductTierProjection_some (discounts : value)
  (productId : string) :
  Forall (fun rule => rule <> Null) (as_array discounts) ->
  exists projection,
    buildProductTierProjection discounts productId = Some projection.
Proof.
  intros Hr.
  destruct (project_rules_projected productId _ [] [] Hr projected_nil)
    as [m [Hm _]].
  unfold buildProductTierProjection. rewrite Hm. eexists. reflexivity.
Qed.

End Projection.

(** ** Running an action *)

Section Running.
Context {R : Type}.

Lemma bind_Continue {A B : Type} (m : M R A) (k : A -> M R B)
  (admin : remote) (log log' : list call) (a : A) :
  m admin log = (Continue a, log') -> bind m k admin log = k a admin log'.
Proof. unfold bind. now intros ->. Qed.

Lemma bind_Return {A B : Type} (m : M R A) (k : A -> M R B)
  (admin : remote) (log log' : list call) (r : R) :
  m admin log = (Return r, log') -> bind m k admin log = (Return r, log').
Proof. unfold bind. now intros ->. Qed.

Lemma bind_Threw {A B : Type} (m : M R A) (k : A -> M R B)
  (admin : remote) (log log' : list call) :
  m admin log = (Threw, log') -> bind m k admin log = (Threw, log').
Proof. unfold bind. now intros ->. Qed.

Lemma bind_graphql {B : Type} (c : call) (k : response -> M R B)
  (admin : remote) (log : list call) :
  bind (graphql c) k admin log = k (admin log c) admin (log ++ [c]).
Proof. reflexivity. Qed.

Lemma bind_ret {A B : Type} (a : A) (k : A -> M R B)
  (admin : remote) (log : list call) :
  bind (ret a) k admin log = k a admin log.
Proof. reflexivity. Qed.
End Running.

Lemma length_pos_false {A : Type} (l : list A) :
  (0 <? List.length l)%nat = false <-> l = [].
Proof.
  destruct l; simpl; split; try reflexivity; try discriminate.
Qed.

Lemma length_pos_true {A : Type} (l : list A) :
  (0 <? List.length l)%nat = true <-> l <> [].
Proof.
  destruct l; cbn; split; intros H; try reflexivity; try discriminate;
    congruence.
Qed.

Lemma length_zero_true {A : Type} (l : list A) :
  (List.length l =? 0)%nat = true <-> l = [].
Proof. destruct l; simpl; split; try reflexivity; discriminate. Qed.

(** ** The bulk writes of the projections *)

Section Chunks.
Context {A : Type}.

Lemma chunkArray_loop_ends (size : nat) (items : list A) :
  (0 < size)%nat ->
  forall fuel index,
    (List.length items - index <= fuel)%nat ->
    exists chunks,
      chunkArray_loop fuel items index size = Some chunks /\
      List.concat chunks = skipn index items /\
      Forall (fun chunk => (1 <= List.length chunk <= size)%nat) chunks.
Proof.
  intros Hsize fuel. induction fuel as [|fuel IH]; intros index Hfuel.
  - simpl. destruct (Nat.ltb_spec index (List.length items)); [lia|].
    exists []. rewrite skipn_all2 by lia. repeat split. constructor.
  - simpl. destruct (Nat.ltb_spec index (List.length items)) as [Hlt|Hge].
    + destruct (IH (index + size)%nat) as [chunks [-> [Hc Hf]]]; [lia|].
      eexists. split; [reflexivity|]. split.
      * simpl. rewrite Hc. unfold slice.
        replace (index + size)%nat with (size + index)%nat by lia.
        rewrite <- skipn_skipn. apply firstn_skipn.
      * constructor; [|exact Hf]. unfold slice.
        rewrite length_firstn, length_skipn. lia.
    + exists []. rewrite skipn_all2 by lia. repeat split. constructor.
Qed.

Lemma chunkArray_ends (size : nat) (items : list A) :
  (0 < size)%nat ->
  exists chunks,
    chunkArray items size = Some chunks /\
    List.concat chunks = items /\
    Forall (fun chunk => (1 <= List.length chunk <= size)%nat) chunks.
Proof.
  intros Hsize. unfold chunkArray.
  destruct (chunkArray_loop_ends size items Hsize (List.length items) 0)
    as [chunks H]; [lia|].
  exists chunks. exact H.
Qed.
End Chunks.

Section Recompute.
Import Claims.
Context {R : Type}.

Lemma write_chunks_run (admin : remote)
  (chunks : list (list metafield_input)) (errors : list string)
  (log : list call) :
  fold_m (R := R) write_chunk chunks errors admin log
  = (Continue (errors ++ batch_errors admin log chunks),
     log ++ map MetafieldsSet chunks).
Proof.
  revert errors log. induction chunks as [|chunk chunks IH]; intros errors log.
  - simpl. unfold ret. now rewrite !app_nil_r.
  - cbn [fold_m]. unfold bind at 1. unfold write_chunk.
    rewrite bind_graphql.
    destruct (0 <? List.length (userErrors (admin log (MetafieldsSet chunk))))%nat
      eqn:E; unfold ret at 1; rewrite IH; cbn [batch_errors map].
    + now rewrite <- !app_assoc.
    + apply length_pos_false in E. rewrite E. now rewrite <- !app_assoc.
Qed.

Lemma metafieldsToSet_some (discounts : value) (productIds : list string) :
  Forall (fun rule => rule <> Null) (as_array discounts) ->
  exists entries,
    metafieldsToSet discounts productIds = Some entries /\
    Forall2 (fun productId entry =>
               exists projection,
                 buildProductTierProjection discounts productId
                 = Some projection /\
                 entry = projection_metafield productId projection)
      productIds entries.
Proof.
  intros Hr. induction productIds as [|productId rest [entries [IH1 IH2]]].
  - exists []. split; [reflexivity | constructor].
  - destruct (buildProductTierProjection_some discounts productId Hr)
      as [projection Hp].
    simpl. rewrite Hp, IH1. eexists. split; [reflexivity|].
    constructor; [|exact IH2]. now exists projection.
Qed.

Lemma metafieldsToSet_owners (discounts : value) (productIds : list string)
  (entries : list metafield_input) :
  metafieldsToSet discounts productIds = Some entries ->
  map ownerId entries = map Str productIds.
Proof.
  revert entries. induction productIds as [|productId rest IH]; simpl.
  - now intros ? [= <-].
  - destruct (buildProductTierProjection discounts productId); [|discriminate].
    destruct (metafieldsToSet discounts rest); [|discriminate].
    intros ? [= <-]. simpl. f_equal. now apply IH.
Qed.

(** Every run of the recompute: it throws before any write, or makes one
    write per chunk, whatever the answers. *)
Lemma recompute_run (discounts affectedProductIds : value) (admin : remote)
  (log : list call) :
  (metafieldsToSet discounts (normalizeProductIds affectedProductIds) = None /\
   recomputeProductDiscountProjectionMetafields (R := R) discounts
     affectedProductIds admin log = (Threw, log))
  \/ exists entries chunks,
      metafieldsToSet discounts (normalizeProductIds affectedProductIds)
      = Some entries /\
      chunkArray entries MAX_METAFIELDS_SET = Some chunks /\
      List.concat chunks = entries /\
      Forall (fun chunk => (1 <= List.length chunk <= 25)%nat) chunks /\
      recomputeProductDiscountProjectionMetafields (R := R) discounts
        affectedProductIds admin log
      = (Continue (batch_errors admin log chunks),
         log ++ map MetafieldsSet chunks).
Proof.
  unfold recomputeProductDiscountProjectionMetafields.
  destruct (metafieldsToSet discounts (normalizeProductIds affectedProductIds))
    as [entries|] eqn:Em.
  - right. destruct (chunkArray_ends MAX_METAFIELDS_SET entries)
      as [chunks [Hc [Hcat Hlen]]]; [unfold MAX_METAFIELDS_SET; lia|].
    exists entries, chunks. repeat split; try assumption.
    destruct (List.length (normalizeProductIds affectedProductIds) =? 0)%nat
      eqn:E0.
    + apply length_zero_true in E0. rewrite E0 in Em. simpl in Em.
      injection Em as <-. simpl in Hcat.
      assert (chunks = []) as ->.
      { destruct chunks as [|c cs]; [reflexivity|].
        inversion Hlen as [|? ? Hc1 _]; subst. simpl in Hcat.
        apply app_eq_nil in Hcat. destruct Hcat as [-> _]. simpl in Hc1. lia. }
      simpl. unfold ret. now rewrite app_nil_r.
    + simpl. unfold lift, bind, ret. rewrite Hc.
      now rewrite write_chunks_run.
  - left. split; [reflexivity|].
    destruct (List.length (normalizeProductIds affectedProductIds) =? 0)%nat
      eqn:E0.
    + apply length_zero_true in E0. rewrite E0 in Em. discriminate.
    + reflexivity.
Qed.

Lemma batch_errors_incl (admin : remote) (chunks : list (list metafield_input))
  (log : list call) (i : nat) (chunk : list metafield_input) :
  nth_error chunks i = Some chunk ->
  incl (userErrors (admin (log ++ map MetafieldsSet (firstn i chunks))
                      (MetafieldsSet chunk)))
    (batch_errors admin log chunks).
Proof.
  revert log i. induction chunks as [|c chunks IH]; intros log i H.
  - destruct i; discriminate.
  - destruct i as [|i]; simpl in *.
    + injection H as ->. rewrite app_nil_r. now apply incl_appl, incl_refl.
    + apply incl_appr. specialize (IH (log ++ [MetafieldsSet c]) i H).
      now rewrite <- app_assoc in IH.
Qed.
End Recompute.

(** C9. For every set of affected product ids and every list of rules,
    none of them [null], the metafield writes of the projections go out in batches of at most 25 entries, one product per
    entry in the order of the ids; the batches are written one after the
    other, each answered after the ones before it; every batch is written
    whatever the earlier ones answered, and the errors a batch reports are
    in the returned list. *)
Theorem projection_writes_are_batched (R : Type)
  (discounts affectedProductIds : value) (admin : remote) (log : list call) :
  Forall (fun rule => rule <> Null) (as_array discounts) ->
  Claims.batching_claim R discounts affectedProductIds admin log.
Proof.
  intros Hr. unfold Claims.batching_claim.
  destruct (recompute_run (R := R) discounts affectedProductIds admin log)
    as [[Hnone _]|[entries [chunks [He [Hc [Hcat [Hlen Hrun]]]]]]].
  - destruct (metafieldsToSet_some discounts
                (normalizeProductIds affectedProductIds) Hr) as [e [He _]].
    congruence.
  - exists entries, chunks. repeat split; try assumption.
    + exact (metafieldsToSet_owners _ _ _ He).
    + intros i chunk Hi. now apply batch_errors_incl.
Qed.

(** ** The loops of the actions *)

Section Loops.
Import Claims RulePage.

Lemma quiet_app (a b : list call) : quiet a -> quiet b -> quiet (a ++ b).
Proof. intros Ha Hb. apply Forall_app. now split. Qed.

Lemma quiet_map {A : Type} (f : A -> call) (l : list A) :
  (forall x, is_metafields_set (f x) = false) -> quiet (map f l).
Proof. intros H. apply Forall_map, Forall_forall. intros x _. apply H. Qed.

(** The loop of deletions stops at the first deletion that reports
    errors. *)
Lemma delete_loop_run (at_ : site) (admin : remote) (ids : list string)
  (log : list call) :
  (exists k id,
      nth_error ids k = Some id /\
      (forall j id', (j < k)%nat -> nth_error ids j = Some id' ->
         userErrors (admin (log ++ map delete_call (firstn j ids))
                       (delete_call id')) = []) /\
      userErrors (admin (log ++ map delete_call (firstn k ids))
                    (delete_call id)) <> [] /\
      for_each (delete_discount at_) ids admin log
      = (Return (Failed at_
                   (userErrors (admin (log ++ map delete_call (firstn k ids))
                                  (delete_call id)))),
         log ++ map delete_call (firstn (S k) ids)))
  \/ ((forall j id', nth_error ids j = Some id' ->
         userErrors (admin (log ++ map delete_call (firstn j ids))
                       (delete_call id')) = []) /\
      for_each (delete_discount at_) ids admin log
      = (Continue tt, log ++ map delete_call ids)).
Proof.
  revert log. induction ids as [|id ids IH]; intros log.
  - right. split; [intros [|j] ? H; discriminate|].
    simpl. unfold ret. now rewrite app_nil_r.
  - assert (Hstep :
      for_each (delete_discount at_) (id :: ids) admin log
      = if (0 <? List.length (userErrors (admin log (delete_call id))))%nat
        then (Return (Failed at_ (userErrors (admin log (delete_call id)))),
              log ++ [delete_call id])
        else for_each (delete_discount at_) ids admin (log ++ [delete_call id])).
    { cbn [for_each]. unfold bind at 1, delete_discount. rewrite bind_graphql.
      fold (delete_call id).
      now destruct (0 <? List.length (userErrors (admin log (delete_call id))))%nat. }
    rewrite Hstep. clear Hstep.
    destruct (0 <? List.length (userErrors (admin log (delete_call id))))%nat
      eqn:E.
    + left. exists 0%nat, id. apply length_pos_true in E.
      simpl. rewrite app_nil_r. repeat split; try assumption.
      intros j id' Hj. lia.
    + apply length_pos_false in E.
      destruct (IH (log ++ [delete_call id]))
        as [[k [id0 [Hk [Hbefore [Hfail Hrun]]]]]|[Hall Hrun]].
      * left. exists (S k), id0. rewrite !firstn_cons. cbn [nth_error map].
        rewrite <- !app_assoc in Hfail. cbn [app] in Hfail.
        split; [exact Hk|]. split; [|split; [exact Hfail|]].
        -- intros [|j] id' Hj Hid'.
           ++ simpl in *. injection Hid' as <-. now rewrite app_nil_r.
           ++ rewrite firstn_cons. cbn [nth_error map] in Hid' |- *.
              assert (Hj' : (j < k)%nat) by lia.
              specialize (Hbefore j id' Hj' Hid').
              now rewrite <- app_assoc in Hbefore.
        -- rewrite Hrun. now rewrite <- !app_assoc.
      * right. split; [|rewrite Hrun; now rewrite <- !app_assoc].
        intros [|j] id' Hid'.
        -- simpl in *. injection Hid' as <-. now rewrite app_nil_r.
        -- rewrite firstn_cons. cbn [nth_error map] in Hid' |- *.
           specialize (Hall j id' Hid').
           now rewrite <- app_assoc in Hall.
Qed.

Lemma delete_call_quiet (ids : list string) : quiet (map delete_call ids).
Proof. now apply quiet_map. Qed.

Lemma status_loop_run (nextStatus : string) (admin : remote)
  (ids : list string) (log : list call) :
  for_each (set_status nextStatus) ids admin log
  = (Continue tt, log ++ map (status_call nextStatus) ids).
Proof.
  revert log. induction ids as [|id ids IH]; intros log.
  - simpl. unfold ret. now rewrite app_nil_r.
  - assert (Hstep :
      for_each (set_status nextStatus) (id :: ids) admin log
      = for_each (set_status nextStatus) ids admin
          (log ++ [status_call nextStatus id])).
    { cbn [for_each]. unfold bind at 1, set_status, status_call.
      now destruct (nextStatus =? "inactive")%string. }
    rewrite Hstep, IH. cbn [map]. now rewrite <- app_assoc.
Qed.

Lemma status_call_quiet (nextStatus : string) (ids : list string) :
  quiet (map (status_call nextStatus) ids).
Proof.
  apply quiet_map. intros id. unfold status_call.
  now destruct (nextStatus =? "inactive")%string.
Qed.

(** One turn of the loop over the tiers. *)
Lemma reconcile_tier_run (ctx : tier_context) (acc : list value)
  (tier : value) (admin : remote) (log : list call) :
  exists ext,
    snd (reconcile_tier ctx acc tier admin log) = log ++ ext /\
    quiet ext /\
    match fst (reconcile_tier ctx acc tier admin log) with
    | Continue acc' => exists tier', acc' = acc ++ [tier'] /\ same_tier tier tier'
    | Return (Failed at_ _) =>
        at_ = AtUpdateErrors \/ at_ = AtCreateErrors \/ at_ = AtCreateNoId
        \/ (at_ = AtTierLoopNoProduct /\ productIds ctx = [])
    | Return (Ok _) => False
    | Threw => False
    end.
Proof.
  unfold reconcile_tier.
  destruct (negb (shouldCreateDiscount tier)
            && negb (shouldUpdateExistingDiscount ctx tier)).
  { exists []. simpl. rewrite app_nil_r. repeat split; [constructor|].
    exists tier. split; [reflexivity | now left]. }
  destruct (List.length (productIds ctx) =? 0)%nat eqn:Ep.
  { exists []. simpl. rewrite app_nil_r. repeat split; [constructor|].
    right. right. right. split; [reflexivity|]. now apply length_zero_true. }
  destruct (shouldUpdateExistingDiscount ctx tier).
  - rewrite bind_graphql.
    match goal with |- context [admin log ?c] => set (call := c) end.
    exists [call]. destruct (0 <? List.length (userErrors (admin log call)))%nat;
      simpl; (repeat split; [repeat constructor|]).
    + now left.
    + exists tier. split; [reflexivity | now left].
  - rewrite bind_graphql.
    match goal with |- context [admin log ?c] => set (call := c) end.
    exists [call]. destruct (0 <? List.length (userErrors (admin log call)))%nat;
      simpl; [repeat split; [repeat constructor | tauto]|].
    destruct (truthy (automaticDiscountNode_id (admin log call))) eqn:Et;
      simpl; (repeat split; [repeat constructor|]).
    + eexists. split; [reflexivity|]. right. eexists. split; [exact Et | reflexivity].
    + tauto.
Qed.

Lemma reconcile_loop_run (ctx : tier_context) (tiers : list value)
  (acc : list value) (admin : remote) (log : list call) :
  exists ext,
    snd (fold_m (reconcile_tier ctx) tiers acc admin log) = log ++ ext /\
    quiet ext /\
    match fst (fold_m (reconcile_tier ctx) tiers acc admin log) with
    | Continue acc' =>
        exists tiers', acc' = acc ++ tiers' /\ Forall2 same_tier tiers tiers'
    | Return (Failed at_ _) =>
        at_ = AtUpdateErrors \/ at_ = AtCreateErrors \/ at_ = AtCreateNoId
        \/ (at_ = AtTierLoopNoProduct /\ productIds ctx = [])
    | Return (Ok _) => False
    | Threw => False
    end.
Proof.
  revert acc log. induction tiers as [|tier tiers IH]; intros acc log.
  - exists []. simpl. rewrite app_nil_r. repeat split; [constructor|].
    exists []. rewrite app_nil_r. split; [reflexivity | constructor].
  - cbn [fold_m]. unfold bind.
    destruct (reconcile_tier_run ctx acc tier admin log) as [ext [Hlog [Hq Hres]]].
    destruct (reconcile_tier ctx acc tier admin log) as [[acc'| [at_ errs|payload] |] log'];
      simpl in Hlog, Hres; subst log'.
    + destruct Hres as [tier' [-> Hsame]].
      destruct (IH (acc ++ [tier']) (log ++ ext)) as [ext' [Hlog' [Hq' Hres']]].
      exists (ext ++ ext'). rewrite app_assoc. split; [exact Hlog'|].
      split; [now apply quiet_app|].
      destruct (fst (fold_m (reconcile_tier ctx) tiers (acc ++ [tier']) admin
                       (log ++ ext))) as [acc''|[at_ errs|payload]|];
        try exact Hres'.
      destruct Hres' as [tiers' [-> Hsame']].
      exists (tier' :: tiers'). rewrite <- app_assoc. split; [reflexivity|].
      now constructor.
    + exists ext. simpl. repeat split; assumption.
    + destruct Hres.
    + destruct Hres.
Qed.

Lemma fetchProductSummaries_run {R : Type} (ids : list string)
  (admin : remote) (log : list call) :
  exists nextProducts ext,
    fetchProductSummaries (R := R) ids admin log
    = (Continue nextProducts, log ++ ext) /\ quiet ext.
Proof.
  unfold fetchProductSummaries.
  destruct (List.length ids =? 0)%nat.
  - exists [], []. unfold ret. rewrite app_nil_r. split; [reflexivity | constructor].
  - rewrite bind_graphql. unfold ret. eexists. exists [ProductNodesQuery ids].
    split; [reflexivity | repeat constructor].
Qed.

Lemma commit_run (W : call) (discounts affected : value)
  (k : M result result) (admin : remote) (pre : list call) :
  committed admin pre W discounts affected k
    (commit W discounts affected k admin pre).
Proof.
  unfold commit. rewrite bind_graphql.
  destruct (0 <? List.length (userErrors (admin pre W)))%nat eqn:E.
  - apply length_pos_true in E. now apply write_refused.
  - apply length_pos_false in E. unfold bind.
    destruct (recompute_run (R := result) discounts affected admin (pre ++ [W]))
      as [[Hnone ->]|[entries [chunks [He [Hc [Hcat [Hlen ->]]]]]]].
    + now apply projection_threw.
    + destruct (0 <? List.length (batch_errors admin (pre ++ [W]) chunks))%nat
        eqn:Eb.
      * apply length_pos_true in Eb. now apply (projection_refused _ _ _ _ _ _ entries).
      * apply length_pos_false in Eb.
        now apply (projection_written _ _ _ _ _ _ entries).
Qed.

Lemma committed_cases (W : call) (discounts affected : value)
  (k : M result result) (admin : remote) (pre : list call)
  (res : outcome result result * list call) :
  committed admin pre W discounts affected k res ->
  (userErrors (admin pre W) <> [] /\
   res = (Return (Failed AtSetErrors (userErrors (admin pre W))), pre ++ [W]))
  \/ (userErrors (admin pre W) = [] /\
      metafieldsToSet discounts (normalizeProductIds affected) = None /\
      res = (Threw, pre ++ [W]))
  \/ (userErrors (admin pre W) = [] /\
      exists entries chunks,
        metafieldsToSet discounts (normalizeProductIds affected) = Some entries /\
        List.concat chunks = entries /\
        Forall (fun chunk => (1 <= List.length chunk <= 25)%nat) chunks /\
        ((batch_errors admin (pre ++ [W]) chunks <> [] /\
          res = (Return (Failed AtProjectionErrors
                           (batch_errors admin (pre ++ [W]) chunks)),
                 (pre ++ [W]) ++ map MetafieldsSet chunks))
         \/ (batch_errors admin (pre ++ [W]) chunks = [] /\
             res = k admin ((pre ++ [W]) ++ map MetafieldsSet chunks)))).
Proof.
  intros H. destruct H as [Hw|Hw Hn|entries chunks Hw He Hc Hcat Hlen Hb
                          |entries chunks Hw He Hc Hcat Hlen Hb].
  - left. now split.
  - right. left. now repeat split.
  - right. right. split; [exact Hw|]. exists entries, chunks.
    repeat split; try assumption. left. now split.
  - right. right. split; [exact Hw|]. exists entries, chunks.
    repeat split; try assumption. right. now split.
Qed.
End Loops.

(** ** Product ids *)

Section ProductIds.
Lemma valid_id_nonempty (s : string) : valid_id s -> nonempty s = true.
Proof. unfold valid_id. now destruct s. Qed.

Lemma normalizeProductId_valid (product : value) :
  normalizeProductId product = "" \/ valid_id (normalizeProductId product).
Proof.
  unfold normalizeProductId, valid_id.
  destruct product; try (now left).
  - destruct (startsWith PRODUCT_PREFIX s) eqn:E; [now right | now left].
  - destruct (get "id" (Obj fields)); try (now left).
    destruct (startsWith PRODUCT_PREFIX s) eqn:E; [now right | now left].
Qed.

Lemma normalizeProductIds_valid (products : value) :
  Forall valid_id (normalizeProductIds products).
Proof.
  unfold normalizeProductIds. apply Forall_forall. intros x Hx.
  apply unique_In, filter_In in Hx. destruct Hx as [Hx Hne].
  apply in_map_iff in Hx. destruct Hx as [p [<- _]].
  destruct (normalizeProductId_valid p) as [E|E]; [|exact E].
  rewrite E in Hne. discriminate.
Qed.

Lemma normalizeProductIds_NoDup (products : value) :
  NoDup (normalizeProductIds products).
Proof. apply unique_NoDup. Qed.

Lemma normalizeProductIds_strings (ids : list string) :
  Forall valid_id ids -> NoDup ids ->
  normalizeProductIds (Arr (map Str ids)) = ids.
Proof.
  intros Hv Hn. unfold normalizeProductIds. simpl.
  assert (E : filter nonempty (map normalizeProductId (map Str ids)) = ids).
  { clear Hn. induction Hv as [|id ids Hid Hids IH]; [reflexivity|].
    simpl. unfold valid_id in Hid. rewrite Hid.
    rewrite (valid_id_nonempty id Hid). now rewrite IH. }
  rewrite E. now apply unique_id.
Qed.

Lemma collect_ids_invariant (ids : list string)
  (state : list string * list string) :
  Forall valid_id ids ->
  (forall x, In x (fst state) <-> In x (snd state)) ->
  NoDup (snd state) -> Forall valid_id (snd state) ->
  let state' := fold_left collect_id ids state in
  (forall x, In x (fst state') <-> In x (snd state'))
  /\ NoDup (snd state') /\ Forall valid_id (snd state').
Proof.
  intros Hv. revert state.
  induction Hv as [|id ids Hid Hids IH]; intros [seen out] Hs Hn Ho; simpl.
  - split; [exact Hs | split; assumption].
  - simpl in *. destruct (includes id seen) eqn:E.
    + now apply IH.
    + apply includes_false in E. apply IH; simpl.
      * intros x. rewrite in_app_iff. simpl. rewrite Hs. tauto.
      * apply NoDup_app; [exact Hn | repeat constructor; tauto |].
        intros x Hx [<-|[]]. apply E. now apply Hs.
      * apply Forall_app. split; [exact Ho | now repeat constructor].
Qed.

Lemma getRuleProductIds_valid (rule : value) (ids : list string) :
  getRuleProductIds rule = Some ids -> Forall valid_id ids /\ NoDup ids.
Proof.
  unfold getRuleProductIds.
  set (rule' := match rule with Undefined => Obj [] | _ => rule end).
  assert (H : forall tiers state,
             (forall x, In x (fst state) <-> In x (snd state)) ->
             NoDup (snd state) -> Forall valid_id (snd state) ->
             let state' :=
               fold_left
                 (fun state tier =>
                    fold_left collect_id
                      (normalizeProductIds (get "products" tier)) state)
                 tiers state in
             Forall valid_id (snd state') /\ NoDup (snd state')).
  { induction tiers as [|tier tiers IH]; intros state Hs Hn Ho; simpl.
    - now split.
    - destruct (collect_ids_invariant
                  (normalizeProductIds (get "products" tier)) state
                  (normalizeProductIds_valid _) Hs Hn Ho) as [H1 [H2 H3]].
      now apply IH. }
  destruct rule; try discriminate;
    (destruct (0 <? List.length (normalizeProductIds (get "products" rule')))%nat;
     intros [= <-];
     [split; [apply normalizeProductIds_valid | apply normalizeProductIds_NoDup]
     | first [ apply H; simpl; [tauto | constructor | constructor]
             | split; constructor ]]).
Qed.

Lemma getRuleProductIds_or_else (v : value) :
  exists ids, getRuleProductIds (or_else v (Obj [])) = Some ids.
Proof.
  apply getRuleProductIds_not_null. unfold or_else.
  destruct (truthy v) eqn:E; [|discriminate].
  intros ->. discriminate.
Qed.

Lemma findIndex_throwing_Some {A : Type} (p : A -> option bool) (l : list A)
  (i : nat) :
  findIndex_throwing p l = Some (Some i) ->
  (i < List.length l)%nat.
Proof.
  revert i. induction l as [|x l IH]; intros i; simpl; [discriminate|].
  destruct (p x) as [[|]|]; try discriminate.
  - intros [= <-]. lia.
  - destruct (findIndex_throwing p l) as [[j|]|]; try discriminate.
    intros [= <-]. specialize (IH j eq_refl). lia.
Qed.

Lemma discount_ids_In (tiers : list value) (id : string) :
  In id (RulePage.discount_ids tiers) <->
  id <> "" /\ exists tier, In tier tiers /\ get "discount_id" tier = Str id.
Proof.
  unfold RulePage.discount_ids. induction tiers as [|tier tiers IH]; simpl.
  - split; [tauto | intros [_ [? [[] _]]]].
  - destruct (get "discount_id" tier) as [| | | | |s| |] eqn:E;
      try (rewrite IH; split;
           [intros [H1 [t [H2 H3]]]; split; [exact H1|]; exists t; tauto
           |intros [H1 [t [[<-|H2] H3]]]; [congruence|];
            split; [exact H1|]; now exists t]).
    destruct (String.eqb_spec s "") as [->|Hs].
    + rewrite IH. split.
      * intros [H1 [t [H2 H3]]]. split; [exact H1|]. exists t. tauto.
      * intros [H1 [t [[<-|H2] H3]]]; [congruence|].
        split; [exact H1|]. now exists t.
    + simpl. rewrite IH. split.
      * intros [<-|[H1 [t [H2 H3]]]].
        -- split; [exact Hs|]. exists tier. tauto.
        -- split; [exact H1|]. exists t. tauto.
      * intros [H1 [t [[<-|H2] H3]]].
        -- left. congruence.
        -- right. split; [exact H1|]. now exists t.
Qed.
End ProductIds.

(** ** The deletion of a rule *)

Section DeleteRule.
Import Claims RulePage.
Variable JSON_parse : string -> option value.

Lemma run_completion (m : M result result) (admin : remote) :
  run m admin = (completion_of (fst (m admin [])), snd (m admin [])).
Proof. unfold run. now destruct (m admin []) as [[r|r|] log]. Qed.

Lemma delete_rule_unfold (tableHandle : value) (admin : remote) :
  let shopJson := admin [] ShopQuery in
  let discounts := current_discounts JSON_parse shopJson in
  delete_rule JSON_parse tableHandle admin []
  = match findIndex_throwing (handle_matches tableHandle) discounts with
    | None => (Threw, [ShopQuery])
    | Some None =>
        (Return (Failed AtRuleNotFound ["Rule not found."]), [ShopQuery])
    | Some (Some ruleIndex) =>
        let rule := or_else (nth ruleIndex discounts Undefined) (Obj []) in
        match getRuleProductIds rule with
        | None => (Threw, [ShopQuery])
        | Some affected =>
            match for_each (delete_discount AtDeleteErrors)
                    (discount_ids (as_array (get "tiers" rule))) admin
                    [ShopQuery] with
            | (Continue _, log) =>
                commit
                  (MetafieldsSet [config_metafield (shop_id shopJson)
                                    (remove_nth ruleIndex discounts)])
                  (Arr (remove_nth ruleIndex discounts))
                  (Arr (map Str affected))
                  (return_ (Ok (DeleteRule "/app"))) admin log
            | (Return r, log) => (Return r, log)
            | (Threw, log) => (Threw, log)
            end
        end
    end.
Proof.
  intros shopJson discounts. unfold delete_rule. rewrite bind_graphql.
  fold shopJson. fold discounts. unfold bind at 1.
  destruct (findIndex_throwing (handle_matches tableHandle) discounts)
    as [[ruleIndex|]|]; try reflexivity.
  unfold lift at 1, ret at 1. cbv beta iota zeta.
  destruct (getRuleProductIds _) as [affected|]; [|reflexivity].
  unfold lift at 1. rewrite bind_ret. unfold bind at 1. reflexivity.
Qed.

Lemma delete_rule_run (tableHandle : value) (admin : remote) :
  let shopJson := admin [] ShopQuery in
  let discounts := current_discounts JSON_parse shopJson in
  match findIndex_throwing (handle_matches tableHandle) discounts with
  | None => delete_rule JSON_parse tableHandle admin [] = (Threw, [ShopQuery])
  | Some None =>
      delete_rule JSON_parse tableHandle admin []
      = (Return (Failed AtRuleNotFound ["Rule not found."]), [ShopQuery])
  | Some (Some ruleIndex) =>
      let rule := or_else (nth ruleIndex discounts Undefined) (Obj []) in
      let discountIds := discount_ids (as_array (get "tiers" rule)) in
      let W :=
        MetafieldsSet [config_metafield (shop_id shopJson)
                         (remove_nth ruleIndex discounts)] in
      exists affected,
        getRuleProductIds rule = Some affected /\
        ((exists k id,
             nth_error discountIds k = Some id /\
             (forall j id', (j < k)%nat -> nth_error discountIds j = Some id' ->
                userErrors (admin ([ShopQuery]
                                     ++ map delete_call (firstn j discountIds))
                              (delete_call id')) = []) /\
             userErrors (admin ([ShopQuery]
                                  ++ map delete_call (firstn k discountIds))
                           (delete_call id)) <> [] /\
             delete_rule JSON_parse tableHandle admin []
             = (Return (Failed AtDeleteErrors
                          (userErrors
                             (admin ([ShopQuery]
                                       ++ map delete_call (firstn k discountIds))
                                (delete_call id)))),
                [ShopQuery] ++ map delete_call (firstn (S k) discountIds)))
         \/ ((forall j id', nth_error discountIds j = Some id' ->
                userErrors (admin ([ShopQuery]
                                     ++ map delete_call (firstn j discountIds))
                              (delete_call id')) = []) /\
             committed admin ([ShopQuery] ++ map delete_call discountIds) W
               (Arr (remove_nth ruleIndex discounts)) (Arr (map Str affected))
               (return_ (Ok (DeleteRule "/app")))
               (delete_rule JSON_parse tableHandle admin [])))
  end.
Proof.
  intros shopJson discounts.
  rewrite delete_rule_unfold. fold shopJson. fold discounts.
  destruct (findIndex_throwing (handle_matches tableHandle) discounts)
    as [[ruleIndex|]|]; try reflexivity.
  cbv zeta.
  destruct (getRuleProductIds_or_else (nth ruleIndex discounts Undefined))
    as [affected Ha].
  exists affected. split; [exact Ha|].
  rewrite Ha.
  destruct (delete_loop_run AtDeleteErrors admin
              (discount_ids
                 (as_array (get "tiers"
                              (or_else (nth ruleIndex discounts Undefined)
                                 (Obj [])))))
              [ShopQuery])
    as [[k [id [Hk [Hbefore [Hfail Hrun]]]]]|[Hall Hrun]].
  - left. exists k, id. rewrite Hrun. now repeat split.
  - right. split; [exact Hall|]. rewrite Hrun. apply commit_run.
Qed.

End DeleteRule.

Section Batches.
Import Claims.

Lemma projection_batches (discounts : value) (ids : list string)
  (entries : list metafield_input) (chunks : list (list metafield_input)) :
  metafieldsToSet discounts ids = Some entries ->
  List.concat chunks = entries ->
  Forall (fun chunk => (1 <= List.length chunk <= 25)%nat) chunks ->
  Forall is_projection_batch chunks
  /\ map ownerId (List.concat chunks) = map Str ids.
Proof.
  intros He Hcat Hlen. split.
  - assert (Hall : Forall (fun entry => exists productId tiers,
                               entry = projection_metafield productId tiers)
                     entries).
    { clear Hcat Hlen chunks. revert entries He.
      induction ids as [|id ids IH]; simpl; intros entries.
      - intros [= <-]. constructor.
      - destruct (buildProductTierProjection discounts id) as [p|];
          [|discriminate].
        destruct (metafieldsToSet discounts ids) as [l|]; [|discriminate].
        intros [= <-]. constructor; [now exists id, p | now apply IH]. }
    subst entries. clear He.
    induction Hlen as [|chunk chunks Hc Hcs IH]; [constructor|].
    simpl in Hall. apply Forall_app in Hall. destruct Hall as [H1 H2].
    constructor; [|now apply IH].
    split; [|exact H1]. intros ->. simpl in Hc. lia.
  - rewrite Hcat. exact (metafieldsToSet_owners _ _ _ He).
Qed.
End Batches.

Section DeleteRuleClaim.
Import Claims RulePage.
Variable JSON_parse : string -> option value.

End DeleteRuleClaim.

(** ** The update of a rule *)

Section UpdateRule.
Import Claims RulePage.
Variable JSON_parse : string -> option value.

Lemma reconcile_rule_unfold (tableHandle : value)
  (nextTitle nextStatus : string) (productIds : list string)
  (nextTiers : list value) (admin : remote) :
  let shopJson := admin [] ShopQuery in
  let discounts := current_discounts JSON_parse shopJson in
  reconcile_rule JSON_parse tableHandle nextTitle nextStatus productIds
    nextTiers admin []
  = match findIndex_throwing (handle_matches tableHandle) discounts with
    | None => (Threw, [ShopQuery])
    | Some None =>
        (Return (Failed AtRuleNotFound ["Rule not found."]), [ShopQuery])
    | Some (Some ruleIndex) =>
        let rule := or_else (nth ruleIndex discounts Undefined) (Obj []) in
        let previousTiers := as_array (get "tiers" rule) in
        match getRuleProductIds rule with
        | None => (Threw, [ShopQuery])
        | Some previousProductIds =>
            let ctx :=
              tier_context_of previousProductIds productIds previousTiers in
            match fold_m (reconcile_tier ctx) nextTiers [] admin [ShopQuery]
            with
            | (Continue tiersWithDiscountIds, log1) =>
                let persisted := sort by_min_quantity tiersWithDiscountIds in
                let nextDiscountIds := discount_ids persisted in
                let removedDiscountIds :=
                  filter (fun id => negb (includes id nextDiscountIds))
                    (discount_ids previousTiers) in
                match for_each (delete_discount AtRemovedTierErrors)
                        removedDiscountIds admin log1 with
                | (Continue _, log2) =>
                    let document :=
                      set_nth ruleIndex
                        (updated_rule rule nextTitle nextStatus productIds
                           persisted) discounts in
                    commit
                      (MetafieldsSet
                         [config_metafield (shop_id shopJson) document])
                      (Arr document)
                      (Arr (map Str (unique (previousProductIds ++ productIds))))
                      (update_end nextTitle nextStatus productIds persisted)
                      admin
                      (log2 ++ map (status_call nextStatus) nextDiscountIds)
                | (Return r, log2) => (Return r, log2)
                | (Threw, log2) => (Threw, log2)
                end
            | (Return r, log1) => (Return r, log1)
            | (Threw, log1) => (Threw, log1)
            end
        end
    end.
Proof.
  intros shopJson discounts. unfold reconcile_rule. rewrite bind_graphql.
  fold shopJson. fold discounts. unfold bind at 1.
  destruct (findIndex_throwing (handle_matches tableHandle) discounts)
    as [[ruleIndex|]|]; try reflexivity.
  unfold lift at 1, ret at 1. cbv beta iota zeta.
  destruct (getRuleProductIds _) as [previousProductIds|]; [|reflexivity].
  unfold lift at 1. rewrite bind_ret. unfold bind at 1.
  simpl app.
  destruct (fold_m _ nextTiers [] admin [ShopQuery])
    as [[tiersWithDiscountIds|r|] log1]; try reflexivity.
  unfold bind at 1.
  destruct (for_each (delete_discount AtRemovedTierErrors) _ admin log1)
    as [[[]|r|] log2]; try reflexivity.
  unfold bind at 1. rewrite status_loop_run. reflexivity.
Qed.

Lemma reconcile_rule_run (tableHandle : value)
  (nextTitle nextStatus : string) (productIds : list string)
  (nextTiers : list value) (admin : remote) (ruleIndex : nat) :
  let shopJson := admin [] ShopQuery in
  let discounts := current_discounts JSON_parse shopJson in
  let rule := or_else (nth ruleIndex discounts Undefined) (Obj []) in
  let ran :=
    reconcile_rule JSON_parse tableHandle nextTitle nextStatus productIds
      nextTiers admin [] in
  findIndex_throwing (handle_matches tableHandle) discounts
  = Some (Some ruleIndex) ->
  exists previous ext,
    getRuleProductIds rule = Some previous /\ quiet ext /\
    ((exists at_ errs,
         ran = (Return (Failed at_ errs), ShopQuery :: ext) /\
         (at_ = AtUpdateErrors \/ at_ = AtCreateErrors \/ at_ = AtCreateNoId
          \/ (at_ = AtTierLoopNoProduct /\ productIds = [])
          \/ at_ = AtRemovedTierErrors))
     \/ (exists tiersWithDiscountIds,
            Forall2 same_tier nextTiers tiersWithDiscountIds /\
            let persisted := sort by_min_quantity tiersWithDiscountIds in
            let document :=
              set_nth ruleIndex
                (updated_rule rule nextTitle nextStatus productIds persisted)
                discounts in
            committed admin (ShopQuery :: ext)
              (MetafieldsSet [config_metafield (shop_id shopJson) document])
              (Arr document)
              (Arr (map Str (unique (previous ++ productIds))))
              (update_end nextTitle nextStatus productIds persisted) ran)).
Proof.
  intros shopJson discounts rule ran Hfind. subst ran.
  rewrite reconcile_rule_unfold. fold shopJson. fold discounts.
  rewrite Hfind. cbv zeta. fold rule.
  destruct (getRuleProductIds_or_else (nth ruleIndex discounts Undefined))
    as [previous Hp]. fold rule in Hp. rewrite Hp.
  exists previous.
  set (ctx := tier_context_of previous productIds (as_array (get "tiers" rule))).
  destruct (reconcile_loop_run ctx nextTiers [] admin [ShopQuery])
    as [ext1 [Hlog1 [Hq1 Hres1]]].
  destruct (fold_m (reconcile_tier ctx) nextTiers [] admin [ShopQuery])
    as [[tiersWithDiscountIds|[at_ errs|payload]|] log1];
    simpl in Hlog1, Hres1; subst log1; try contradiction.
  - destruct Hres1 as [tiers' [-> Hsame]].
    set (persisted := sort by_min_quantity tiers').
    set (removed := filter _ (discount_ids (as_array (get "tiers" rule)))).
    destruct (delete_loop_run AtRemovedTierErrors admin removed
                (ShopQuery :: ext1))
      as [[k [id [Hk [Hbefore [Hfail Hrun]]]]]|[Hall Hrun]]; rewrite Hrun.
    + exists (ext1 ++ map delete_call (firstn (S k) removed)).
      split; [reflexivity|]. split; [apply quiet_app; [exact Hq1 | apply delete_call_quiet]|].
      left. do 2 eexists. split; [reflexivity | tauto].
    + exists ((ext1 ++ map delete_call removed)
              ++ map (status_call nextStatus) (discount_ids persisted)).
      split; [reflexivity|].
      split; [repeat apply quiet_app;
              [exact Hq1 | apply delete_call_quiet | apply status_call_quiet]|].
      right. exists tiers'. split; [exact Hsame|]. cbv zeta.
      fold persisted.
      replace (ShopQuery :: (ext1 ++ map delete_call removed)
                 ++ map (status_call nextStatus) (discount_ids persisted))
        with (((ShopQuery :: ext1) ++ map delete_call removed)
                ++ map (status_call nextStatus) (discount_ids persisted))
        by reflexivity.
      apply commit_run.
  - exists ext1. split; [reflexivity|]. split; [exact Hq1|].
    left. exists at_, errs. split; [reflexivity|].
    destruct Hres1 as [H|[H|[H|[H1 H2]]]]; tauto.
Qed.

Lemma action_update (formData : form) (params_tableHandle : value)
  (admin : remote) :
  formData_get "_action" formData = Str "update-rule-settings" ->
  action JSON_parse formData params_tableHandle admin
  = run (update_rule_settings JSON_parse formData
           (or_else params_tableHandle (Str ""))) admin.
Proof. unfold action, action_body. now intros ->. Qed.
End UpdateRule.

(** ** The guard inside the loop over the tiers *)

Section TierLoopGuard.
Import Claims RulePage.
Variable JSON_parse : string -> option value.

Lemma committed_not_from_guard (W : call) (discounts affected : value)
  (k : M result result) (admin : remote) (pre : list call)
  (res : outcome result result * list call) :
  committed admin pre W discounts affected k res ->
  (forall log, not_from_guard (k admin log)) ->
  not_from_guard res.
Proof.
  intros H Hk.
  destruct (committed_cases _ _ _ _ _ _ _ H)
    as [[_ ->]|[[_ [_ ->]]|[_ [entries [chunks [_ [_ [_ [[_ ->]|[_ ->]]]]]]]]]];
    try (unfold not_from_guard; simpl; first [exact I | congruence]).
  apply Hk.
Qed.

Lemma delete_rule_not_from_guard (tableHandle : value) (admin : remote) :
  not_from_guard (delete_rule JSON_parse tableHandle admin []).
Proof.
  pose proof (delete_rule_run JSON_parse tableHandle admin) as H.
  cbv zeta in H.
  destruct (findIndex_throwing (handle_matches tableHandle)
              (current_discounts JSON_parse (admin [] ShopQuery)))
    as [[ruleIndex|]|].
  - destruct H as [affected [_ [[k [id [_ [_ [_ ->]]]]]|[_ H]]]].
    + unfold not_from_guard. simpl. congruence.
    + eapply committed_not_from_guard; [exact H|].
      intros log. unfold not_from_guard. exact I.
  - rewrite H. unfold not_from_guard. simpl. congruence.
  - rewrite H. exact I.
Qed.

Lemma update_end_not_from_guard (nextTitle nextStatus : string)
  (productIds : list string) (persisted : list value) (admin : remote)
  (log : list call) :
  not_from_guard (update_end nextTitle nextStatus productIds persisted
                    admin log).
Proof.
  unfold update_end, bind.
  destruct (fetchProductSummaries_run (R := result) productIds admin log)
    as [nextProducts [ext [-> _]]].
  exact I.
Qed.

Lemma reconcile_rule_not_from_guard (tableHandle : value)
  (nextTitle nextStatus : string) (productIds : list string)
  (nextTiers : list value) (admin : remote) :
  productIds <> [] ->
  not_from_guard (reconcile_rule JSON_parse tableHandle nextTitle nextStatus
                    productIds nextTiers admin []).
Proof.
  intros Hne.
  destruct (findIndex_throwing (handle_matches tableHandle)
              (current_discounts JSON_parse (admin [] ShopQuery)))
    as [[ruleIndex|]|] eqn:Hfind.
  - destruct (reconcile_rule_run JSON_parse tableHandle nextTitle nextStatus productIds
                nextTiers admin ruleIndex Hfind)
      as [previous [ext [_ [_ [[at_ [errs [-> Hat]]]|[tiers' [_ H]]]]]]].
    + unfold not_from_guard. simpl.
      destruct Hat as [->|[->|[->|[[_ H]| ->]]]]; congruence.
    + eapply committed_not_from_guard; [exact H|].
      intros log. apply update_end_not_from_guard.
  - rewrite (reconcile_rule_unfold JSON_parse). cbv zeta. rewrite Hfind.
    unfold not_from_guard. simpl. congruence.
  - rewrite (reconcile_rule_unfold JSON_parse). cbv zeta. rewrite Hfind. exact I.
Qed.

Lemma update_rule_settings_cases (formData : form) (tableHandle : value) :
  (exists at_ message,
      update_rule_settings JSON_parse formData tableHandle
      = return_ (Failed at_ [message]) /\
      (at_ = AtTitleRequired \/ at_ = AtStatusInvalid
       \/ at_ = AtProductRequired \/ at_ = AtTierRequired
       \/ at_ = AtTierInvalid))
  \/ (nextTitle_of formData <> "" /\
      In (nextStatus_of formData) ["active"; "inactive"] /\
      nextProductIds_of JSON_parse formData <> [] /\
      parsedTiers_of JSON_parse formData <> [] /\
      findIndex tier_invalid (parsedTiers_of JSON_parse formData) = None /\
      update_rule_settings JSON_parse formData tableHandle
      = reconcile_rule JSON_parse tableHandle (nextTitle_of formData)
          (nextStatus_of formData) (nextProductIds_of JSON_parse formData)
          (sort by_min_quantity (parsedTiers_of JSON_parse formData))).
Proof.
  unfold update_rule_settings. cbv zeta.
  destruct (nonempty (nextTitle_of formData)) eqn:Et; cbn [negb];
    [|left; do 2 eexists; split; [reflexivity | tauto]].
  destruct (includes (nextStatus_of formData) ["active"; "inactive"]) eqn:Es;
    cbn [negb]; [|left; do 2 eexists; split; [reflexivity | tauto]].
  destruct (List.length (nextProductIds_of JSON_parse formData) =? 0)%nat
    eqn:Ep; [left; do 2 eexists; split; [reflexivity | tauto]|].
  destruct (List.length (parsedTiers_of JSON_parse formData) =? 0)%nat
    eqn:Ef; [left; do 2 eexists; split; [reflexivity | tauto]|].
  destruct (findIndex tier_invalid (parsedTiers_of JSON_parse formData))
    eqn:Ei; [left; do 2 eexists; split; [reflexivity | tauto]|].
  right. repeat split.
  - unfold nonempty in Et. intros E. rewrite E in Et. discriminate.
  - now apply includes_In.
  - intros E. rewrite E in Ep. discriminate.
  - intros E. rewrite E in Ef. discriminate.
Qed.

(** C10. In the update-rule operation the branch inside the loop over the
    tiers that returns "This rule must have at least one product." is
    never taken: no run of the action returns from it, and whenever the
    update has gone past its validation (it has made a call), the product
    list the loop reads is the normalized one of the request, which is not
    empty, so that the guard's condition is false. *)
Theorem tier_loop_guard_never_fires (formData : form)
  (params_tableHandle : value) (admin : remote) :
  (forall errors log,
      action JSON_parse formData params_tableHandle admin
      <> (Returned (Failed AtTierLoopNoProduct errors), log)) /\
  (formData_get "_action" formData = Str "update-rule-settings" ->
   snd (action JSON_parse formData params_tableHandle admin) <> [] ->
   update_rule_settings JSON_parse formData (or_else params_tableHandle (Str ""))
   = reconcile_rule JSON_parse (or_else params_tableHandle (Str ""))
       (nextTitle_of formData) (nextStatus_of formData)
       (nextProductIds_of JSON_parse formData)
       (sort by_min_quantity (parsedTiers_of JSON_parse formData)) /\
   forall previous previousTiers,
     (List.length
        (productIds (tier_context_of previous
                       (nextProductIds_of JSON_parse formData) previousTiers))
      =? 0)%nat = false).
Proof.
  split.
  - intros errors log H.
    assert (G : not_from_guard
                  (action_body JSON_parse formData params_tableHandle admin [])).
    { unfold action_body.
      destruct (includes _ ["update-rule-settings"; "delete-rule"]); simpl;
        [|unfold not_from_guard; simpl; congruence].
      destruct (_ =? "delete-rule")%string.
      - apply delete_rule_not_from_guard.
      - destruct (update_rule_settings_cases formData
                    (or_else params_tableHandle (Str "")))
          as [[at_ [message [-> Hat]]]|[_ [_ [Hp [_ [_ ->]]]]]].
        + unfold not_from_guard. simpl.
          destruct Hat as [->|[->|[->|[->| ->]]]]; congruence.
        + now apply reconcile_rule_not_from_guard. }
    unfold action in H. rewrite run_completion in H.
    unfold not_from_guard in G.
    destruct (action_body JSON_parse formData params_tableHandle admin [])
      as [[[at_ errs|payload]|[at_ errs|payload]|] log'];
      simpl in H, G; congruence.
  - intros Haction Hlog. rewrite (action_update JSON_parse _ _ _ Haction) in Hlog.
    destruct (update_rule_settings_cases formData
                (or_else params_tableHandle (Str "")))
      as [[at_ [message [E _]]]|[_ [_ [Hp [_ [_ E]]]]]].
    + rewrite E in Hlog. now contradiction Hlog.
    + split; [exact E|]. intros previous previousTiers. simpl.
      destruct (nextProductIds_of JSON_parse formData); [congruence | reflexivity].
Qed.
End TierLoopGuard.

(** ** The validation of the update *)

Section UpdateValidation.
Import Claims RulePage.
Variable JSON_parse : string -> option value.





Lemma update_end_log (nextTitle nextStatus : string)
  (productIds : list string) (persisted : list value) (admin : remote)
  (log : list call) :
  exists nextProducts ext,
    update_end nextTitle nextStatus productIds persisted admin log
    = (Return (Ok (UpdateRuleSettings (toKebabCase nextTitle) nextTitle
                     nextStatus nextProducts persisted)), log ++ ext)
    /\ quiet ext.
Proof.
  unfold update_end, bind.
  destruct (fetchProductSummaries_run (R := result) productIds admin log)
    as [nextProducts [ext [-> Hq]]].
  now exists nextProducts, ext.
Qed.


End UpdateValidation.

(** ** The tiers the update persists *)

Section PersistedTiers.
Import Claims RulePage.
Variable JSON_parse : string -> option value.

Lemma lookup_assign_same (k : string) (v : value)
  (fields : list (string * value)) :
  lookup k (assign k v fields) = v.
Proof.
  induction fields as [|[k' v'] fields IH]; simpl.
  - now rewrite String.eqb_refl.
  - destruct (String.eqb_spec k k') as [->|Hk]; simpl.
    + now rewrite String.eqb_refl.
    + destruct (String.eqb_spec k k'); [contradiction | exact IH].
Qed.

Lemma lookup_assign_other (k k' : string) (v : value)
  (fields : list (string * value)) :
  k <> k' -> lookup k (assign k' v fields) = lookup k fields.
Proof.
  intros Hne. induction fields as [|[k0 v0] fields IH]; simpl.
  - destruct (String.eqb_spec k k'); [contradiction | reflexivity].
  - destruct (String.eqb_spec k' k0) as [->|Hk]; simpl.
    + destruct (String.eqb_spec k k0); [contradiction | reflexivity].
    + destruct (String.eqb_spec k k0); [reflexivity | exact IH].
Qed.


Lemma set_nth_same {A : Type} (i : nat) (v : A) (l : list A) :
  (i < List.length l)%nat -> nth_error (set_nth i v l) i = Some v.
Proof.
  revert i. induction l as [|x l IH]; intros [|i]; simpl; try lia;
    try reflexivity.
  intros H. apply IH. lia.
Qed.







End PersistedTiers.

(** ** The projections are written after the document *)

Section Reprojection.
Import Claims RulePage.
Variable JSON_parse : string -> option value.

Lemma quiet_no_write (calls before after : list call)
  (batch : list metafield_input) :
  quiet calls -> calls <> before ++ MetafieldsSet batch :: after.
Proof.
  intros Hq E. subst calls. apply Forall_app in Hq. destruct Hq as [_ Hq].
  inversion Hq as [|? ? Hc _]. discriminate.
Qed.

Lemma config_not_projection (shopId : value) (document : list value) :
  ~ is_projection_batch [config_metafield shopId document].
Proof.
  intros [_ H]. inversion H as [|? ? [productId [tiers E]] _]. discriminate.
Qed.

Lemma write_found (pre tail before after : list call) (W : call)
  (batch : list metafield_input) :
  quiet pre ->
  pre ++ W :: tail = before ++ MetafieldsSet batch :: after ->
  W = MetafieldsSet batch \/ In (MetafieldsSet batch) tail.
Proof.
  revert before. induction pre as [|c pre IH]; intros before Hq E.
  - destruct before as [|b before]; simpl in E.
    + injection E as -> _. now left.
    + injection E as _ E. right. rewrite E. apply in_or_app. right. now left.
  - inversion Hq as [|? ? Hc Hq']; subst.
    destruct before as [|b before]; simpl in E.
    + injection E as -> _. discriminate.
    + injection E as _ E. now apply (IH before).
Qed.

Lemma committed_reprojection (admin : remote) (pre : list call)
  (shopId : value) (document : list value) (affected : list string)
  (k : M result result) (res : outcome result result * list call)
  (before after : list call) (batch : list metafield_input) :
  let W := MetafieldsSet [config_metafield shopId document] in
  committed admin pre W (Arr document) (Arr (map Str affected)) k res ->
  quiet pre -> Forall valid_id affected -> NoDup affected ->
  (forall log, exists payload ext,
      k admin log = (Return (Ok payload), log ++ ext) /\ quiet ext) ->
  snd res = before ++ MetafieldsSet batch :: after ->
  is_projection_batch batch ->
  exists chunks rest,
    snd res = pre ++ W :: map MetafieldsSet chunks ++ rest /\
    quiet rest /\
    userErrors (admin pre W) = [] /\
    Forall is_projection_batch chunks /\
    map ownerId (List.concat chunks) = map Str affected /\
    (batch_errors admin (pre ++ [W]) chunks <> [] ->
     completion_of (fst res)
     = Returned (Failed AtProjectionErrors
                   (batch_errors admin (pre ++ [W]) chunks))
     /\ rest = []) /\
    (batch_errors admin (pre ++ [W]) chunks = [] ->
     exists payload, completion_of (fst res) = Returned (Ok payload)).
Proof.
  intros W H Hq Hv Hn Hk Hlog Hbatch.
  assert (Hno : forall calls, calls = pre ++ [W] ->
                              calls <> before ++ MetafieldsSet batch :: after).
  { intros calls -> E.
    destruct (write_found pre [] before after W batch Hq E) as [HW|[]].
    unfold W in HW. injection HW as <-.
    exact (config_not_projection _ _ Hbatch). }
  destruct (committed_cases _ _ _ _ _ _ _ H)
    as [[_ E]|[[_ [_ E]]|[Hw [entries [chunks [He [Hcat [Hlen Hb]]]]]]]].
  - rewrite E in Hlog. simpl in Hlog. now apply Hno in Hlog.
  - rewrite E in Hlog. simpl in Hlog. now apply Hno in Hlog.
  - rewrite (normalizeProductIds_strings _ Hv Hn) in He.
    destruct (projection_batches _ _ _ _ He Hcat Hlen) as [P1 P2].
    destruct Hb as [[Hb E]|[Hb E]].
    + exists chunks, []. rewrite E. simpl. rewrite app_nil_r, <- app_assoc.
      repeat split; try assumption; try constructor; try congruence.
    + destruct (Hk ((pre ++ [W]) ++ map MetafieldsSet chunks))
        as [payload [ext [Ek Hqe]]].
      exists chunks, ext. rewrite E, Ek. simpl. rewrite <- !app_assoc.
      repeat split; try assumption; try congruence.
      intros _. now exists payload.
Qed.

(** C6. In the update-rule and delete-rule operations the projections are
    written only after the write of the document has been accepted; they
    are those of the union of the previous and the new product sets (for
    a deletion, of the deleted rule's products); when re-projection
    reports errors, these errors are what the operation returns, and the
    write of the document stays: nothing is written after the batches. *)
Theorem reprojection_follows_commit (formData : form)
  (params_tableHandle : value) (admin : remote) (before after : list call)
  (batch : list metafield_input) :
  snd (action JSON_parse formData params_tableHandle admin)
  = before ++ MetafieldsSet batch :: after ->
  is_projection_batch batch ->
  reprojection_claim JSON_parse formData params_tableHandle admin.
Proof.
  intros Hlog Hbatch. unfold reprojection_claim. cbv zeta.
  unfold action in *. rewrite run_completion in *. simpl in Hlog |- *.
  unfold action_body in *.
  set (tableHandle := or_else params_tableHandle (Str "")) in *.
  set (discounts := current_discounts JSON_parse (admin [] ShopQuery)) in *.
  destruct (includes _ ["update-rule-settings"; "delete-rule"]);
    cbn [negb] in *; [|destruct before; discriminate].
  destruct (_ =? "delete-rule")%string.
  - (* the deletion *)
    pose proof (delete_rule_run JSON_parse tableHandle admin) as H.
    cbv zeta in H. fold discounts in H.
    destruct (findIndex_throwing (handle_matches tableHandle) discounts)
      as [[ruleIndex|]|] eqn:Hfind.
    + destruct H as [affected [Ha [[k [id [_ [_ [_ E]]]]]|[_ H]]]].
      * exfalso. rewrite E in Hlog. simpl in Hlog. revert Hlog.
        apply quiet_no_write.
        constructor; [reflexivity | apply delete_call_quiet].
      * destruct (getRuleProductIds_valid _ _ Ha) as [Hv Hn].
        assert (Hq : quiet ([ShopQuery]
                            ++ map delete_call
                                 (discount_ids
                                    (as_array
                                       (get "tiers"
                                          (or_else
                                             (nth ruleIndex discounts Undefined)
                                             (Obj [])))))))
          by (constructor; [reflexivity | apply delete_call_quiet]).
        assert (Hk : forall log, exists payload ext,
                     return_ (A := result) (Ok (DeleteRule "/app")) admin log
                     = (Return (Ok payload), log ++ ext) /\ quiet ext).
        { intros log. exists (DeleteRule "/app"), [].
          unfold return_. rewrite app_nil_r. split; [reflexivity | constructor]. }
        destruct (committed_reprojection _ _ _ _ _ _ _ _ _ _ H Hq Hv Hn Hk
                    Hlog Hbatch)
          as [chunks [rest [G1 [G2 [G3 [G4 [G5 [G6 G7]]]]]]]].
        exists ruleIndex, affected. do 2 eexists. exists chunks, rest.
        split; [reflexivity|]. split; [exact Ha|]. split; [exact G1|].
        split; [exact Hq|]. split; [exact G2|]. split; [exact G3|].
        split; [reflexivity|]. split; [exact G4|]. split; [exact G5|].
        split; [exact G6 | exact G7].
    + exfalso. rewrite H in Hlog. destruct before as [|? [|? ?]]; discriminate.
    + exfalso. rewrite H in Hlog. destruct before as [|? [|? ?]]; discriminate.
  - (* the update *)
    destruct (update_rule_settings_cases JSON_parse formData tableHandle)
      as [[at_ [message [E _]]]|[_ [_ [_ [_ [_ E]]]]]];
      rewrite E in *; [destruct before; discriminate|]. clear E.
    destruct (findIndex_throwing (handle_matches tableHandle) discounts)
      as [[ruleIndex|]|] eqn:Hfind;
      [|exfalso; rewrite (reconcile_rule_unfold JSON_parse) in Hlog;
        cbv zeta in Hlog; fold discounts in Hlog; rewrite Hfind in Hlog;
        destruct before as [|? [|? ?]]; discriminate..].
    destruct (reconcile_rule_run JSON_parse tableHandle (nextTitle_of formData)
                (nextStatus_of formData) (nextProductIds_of JSON_parse formData)
                (sort by_min_quantity (parsedTiers_of JSON_parse formData))
                admin ruleIndex Hfind)
      as [previous [ext [Hprev [Hq [[at_ [errs [E _]]]|[tiers' [_ H]]]]]]].
    + exfalso. rewrite E in Hlog. simpl in Hlog. revert Hlog.
      apply quiet_no_write. constructor; [reflexivity | exact Hq].
    + cbv zeta in H. fold discounts in H, Hprev.
      destruct (getRuleProductIds_valid _ _ Hprev) as [Hv Hn].
      assert (Hv' : Forall valid_id
                      (unique (previous ++ nextProductIds_of JSON_parse formData))).
      { apply Forall_forall. intros x Hx. apply unique_In, in_app_or in Hx.
        destruct Hx as [Hx|Hx].
        - rewrite Forall_forall in Hv. now apply Hv.
        - pose proof (normalizeProductIds_valid
                        (Arr (parse_array JSON_parse
                                (formData_get "products" formData)))) as Hnv.
          rewrite Forall_forall in Hnv. now apply Hnv. }
      assert (Hq' : quiet (ShopQuery :: ext))
        by (constructor; [reflexivity | exact Hq]).
      assert (Hk : forall log, exists payload ext,
                   update_end (nextTitle_of formData) (nextStatus_of formData)
                     (nextProductIds_of JSON_parse formData)
                     (sort by_min_quantity tiers') admin log
                   = (Return (Ok payload), log ++ ext) /\ quiet ext).
      { intros log.
        destruct (update_end_log (nextTitle_of formData) (nextStatus_of formData)
                    (nextProductIds_of JSON_parse formData)
                    (sort by_min_quantity tiers') admin log)
          as [np [ext' [-> Hqe]]].
        do 2 eexists. split; [reflexivity | exact Hqe]. }
      destruct (committed_reprojection _ _ _ _ _ _ _ _ _ _ H Hq' Hv'
                  (unique_NoDup _) Hk Hlog Hbatch)
        as [chunks [rest [G1 [G2 [G3 [G4 [G5 [G6 G7]]]]]]]].
      exists ruleIndex, previous. do 2 eexists. exists chunks, rest.
      split; [reflexivity|]. split; [exact Hprev|]. split; [exact G1|].
      split; [exact Hq'|]. split; [exact G2|]. split; [exact G3|].
      split; [eexists; reflexivity|]. split; [exact G4|]. split; [exact G5|].
      split; [exact G6 | exact G7].
Qed.
End Reprojection.

(** ** The creation of a rule, or of one more tier *)

Section AddDiscount.
Import Claims IndexPage.
Variable JSON_parse : string -> option value.

Lemma findIndex_Some {A : Type} (p : A -> bool) (l : list A) (i : nat) :
  findIndex p l = Some i ->
  exists x, nth_error l i = Some x /\ p x = true.
Proof.
  revert i. induction l as [|y l IH]; intros i; simpl; [discriminate|].
  destruct (p y) eqn:E.
  - intros [= <-]. now exists y.
  - destruct (findIndex p l) as [j|]; [|discriminate].
    intros [= <-]. simpl. now apply IH.
Qed.


Lemma action_add (formData : form) (admin : remote) :
  formData_get "_action" formData = Str "add-discount" ->
  action JSON_parse formData admin
  = run (add_discount JSON_parse formData) admin.
Proof. unfold action, action_body. now intros ->. Qed.

Lemma titled_not_null (title : string) (discounts : list value) (i : nat) :
  findIndex (fun discount => strict_eq (get "title" discount) (Str title))
    discounts = Some i ->
  exists fields,
    nth_error discounts i = Some (Obj fields) /\
    nth i discounts Undefined = Obj fields /\
    get "title" (Obj fields) = Str title.
Proof.
  intros H. apply findIndex_Some in H. destruct H as [x [Hx Ht]].
  destruct x; try discriminate.
  exists fields. split; [exact Hx|]. split.
  - now apply nth_error_nth.
  - simpl in *. destruct (lookup "title" fields); try discriminate.
    apply String.eqb_eq in Ht. now subst.
Qed.

Lemma add_discount_unfold (formData : form) (admin : remote) :
  let title :=
    trim (String_ (or_else (formData_get "title" formData) (Str ""))) in
  let discountTitle :=
    trim (String_ (or_else (formData_get "discountTitle" formData) (Str ""))) in
  let minimumQuantity :=
    parseInt (String_ (or_else (formData_get "minimumQuantity" formData)
                         (Str "0"))) in
  let percentOff :=
    parseInt (String_ (or_else (formData_get "percentOff" formData)
                         (Str "0"))) in
  let normalizedProductIds :=
    normalizeProductIds
      (Arr (map (get "id")
              (RulePage.parse_array JSON_parse
                 (formData_get "selectedProducts" formData)))) in
  let errors :=
    input_errors title discountTitle minimumQuantity percentOff
      normalizedProductIds in
  let shopJson := admin [] ShopQuery in
  let discounts := RulePage.current_discounts JSON_parse shopJson in
  let created :=
    DiscountAutomaticBasicCreate
      (automaticBasicDiscount discountTitle minimumQuantity percentOff
         normalizedProductIds) in
  let discountJson := admin [ShopQuery] created in
  let discountId := automaticDiscountNode_id discountJson in
  let tier := newTier discountTitle minimumQuantity percentOff discountId in
  let existingIndex :=
    findIndex (fun discount => strict_eq (get "title" discount) (Str title))
      discounts in
  let document :=
    add_tier discounts existingIndex title normalizedProductIds tier in
  let inactive :=
    match existingIndex with
    | Some i =>
        strict_eq (get "status" (nth i discounts Undefined)) (Str "inactive")
    | None => false
    end in
  let deactivation :=
    if inactive && truthy discountId
    then [DiscountAutomaticDeactivate discountId] else [] in
  add_discount JSON_parse formData admin []
  = if (0 <? List.length errors)%nat
    then (Return (Failed AtInputErrors errors), [])
    else if (0 <? List.length (userErrors discountJson))%nat
    then (Return (Failed AtCreateErrors (userErrors discountJson)),
          [ShopQuery; created])
    else
      match match existingIndex with
            | Some i => getRuleProductIds (nth i discounts Undefined)
            | None => Some []
            end with
      | None => (Threw, [ShopQuery; created])
      | Some previous =>
          commit
            (MetafieldsSet
               [RulePage.config_metafield (shop_id shopJson) document])
            (Arr document)
            (Arr (map Str (unique (previous ++ normalizedProductIds))))
            (return_ (Ok AddDiscount)) admin
            ([ShopQuery; created] ++ deactivation)
      end.
Proof.
  cbv zeta. unfold add_discount.
  destruct (0 <? List.length (input_errors _ _ _ _ _))%nat; [reflexivity|].
  rewrite bind_graphql. rewrite bind_graphql. simpl app.
  destruct (0 <? List.length (userErrors _))%nat; [reflexivity|].
  unfold RulePage.current_discounts.
  destruct (findIndex _ _) as [i|].
  - unfold bind at 1.
    destruct (getRuleProductIds _) as [previous|]; [|reflexivity].
    unfold lift, ret at 1. cbv beta iota.
    destruct (strict_eq (get "status" _) (Str "inactive")); simpl;
      [destruct (truthy _); reflexivity | reflexivity].
  - reflexivity.
Qed.

Lemma committed_return (W : call) (discounts affected : value) (r : result)
  (admin : remote) (pre : list call)
  (res : outcome result result * list call) :
  committed admin pre W discounts affected (return_ r) res ->
  exists chunks, snd res = pre ++ W :: map MetafieldsSet chunks.
Proof.
  intros H.
  destruct (committed_cases _ _ _ _ _ _ _ H)
    as [[_ ->]|[[_ [_ ->]]|[_ [entries [chunks [_ [_ [_ [[_ ->]|[_ ->]]]]]]]]]];
    simpl.
  - now exists [].
  - now exists [].
  - exists chunks. now rewrite <- app_assoc.
  - exists chunks. now rewrite <- app_assoc.
Qed.

End AddDiscount.

(** ** The product payload of an update *)

Section StringOrder.
Lemma le_strings_total (a b : string) : le_strings a b \/ le_strings b a.
Proof.
  unfold le_strings, compare_strings.
  rewrite (String.compare_antisym a b).
  destruct (String.compare b a); simpl; lia.
Qed.

Lemma le_strings_antisym (a b : string) :
  le_strings a b -> le_strings b a -> a = b.
Proof.
  unfold le_strings, compare_strings.
  rewrite (String.compare_antisym a b).
  destruct (String.compare b a) eqn:E; simpl; try lia.
  intros _ _. symmetry. now apply String.compare_eq_iff.
Qed.

Lemma le_strings_trans (a b c : string) :
  le_strings a b -> le_strings b c -> le_strings a c.
Proof.
  unfold le_strings, compare_strings. intros Hab Hbc.
  destruct (String.compare a b) eqn:Eab; try lia.
  - apply String.compare_eq_iff in Eab. now subst.
  - destruct (String.compare b c) eqn:Ebc; try lia.
    + apply String.compare_eq_iff in Ebc. subst. now rewrite Eab.
    + apply String_as_OT.cmp_lt in Eab, Ebc.
      pose proof (String_as_OT.lt_trans _ _ _ Eab Ebc) as Hac.
      apply String_as_OT.cmp_lt in Hac. unfold String_as_OT.cmp in Hac.
      now rewrite Hac.
Qed.

Lemma insert_strings_sorted (x : string) (l : list string) :
  StronglySorted le_strings l ->
  StronglySorted le_strings (insert compare_strings x l).
Proof.
  induction 1 as [|y l Hl IH Hy]; simpl.
  - constructor; constructor.
  - destruct (Z.leb_spec (compare_strings x y) 0) as [Hxy|Hxy].
    + constructor; [now constructor|].
      constructor; [exact Hxy|].
      eapply Forall_impl; [|exact Hy].
      intros z Hz. now apply (le_strings_trans x y z).
    + constructor; [exact IH|].
      apply (Permutation_Forall
               (Permutation_sym (insert_perm compare_strings x l))).
      constructor; [|exact Hy].
      destruct (le_strings_total x y) as [H|H]; [unfold le_strings in H; lia|].
      exact H.
Qed.

Lemma sort_strings_sorted (l : list string) :
  StronglySorted le_strings (sort compare_strings l).
Proof.
  induction l as [|x l IH]; simpl; [constructor|].
  now apply insert_strings_sorted.
Qed.

Lemma sorted_strings_unique (l1 l2 : list string) :
  StronglySorted le_strings l1 -> StronglySorted le_strings l2 ->
  Permutation l1 l2 -> l1 = l2.
Proof.
  intros H1. revert l2. induction H1 as [|x l1 Hl1 IH Hx]; intros l2 H2 Hp.
  - apply Permutation_nil in Hp. now subst.
  - destruct H2 as [|y l2 Hl2 Hy].
    + apply Permutation_sym, Permutation_nil in Hp. discriminate.
    + assert (x = y) as ->.
      { assert (Hxin : In x (y :: l2))
          by (apply (Permutation_in x Hp); now left).
        assert (Hyin : In y (x :: l1))
          by (apply (Permutation_in y (Permutation_sym Hp)); now left).
        destruct Hxin as [->|Hxin]; [reflexivity|].
        destruct Hyin as [->|Hyin]; [reflexivity|].
        rewrite Forall_forall in Hx, Hy.
        apply le_strings_antisym; [now apply Hx | now apply Hy]. }
      f_equal. apply IH; [exact Hl2|]. now apply Permutation_cons_inv in Hp.
Qed.

Lemma sort_strings_permutation (l1 l2 : list string) :
  Permutation l1 l2 -> sort compare_strings l1 = sort compare_strings l2.
Proof.
  intros Hp. apply sorted_strings_unique; try apply sort_strings_sorted.
  eapply perm_trans; [apply sort_perm|].
  eapply perm_trans; [exact Hp|]. apply Permutation_sym, sort_perm.
Qed.

Lemma some_differs_refl (l : list string) : RulePage.some_differs l l = false.
Proof.
  induction l as [|x l IH]; [reflexivity|].
  simpl. now rewrite String.eqb_refl, IH.
Qed.

Lemma some_differs_false (a b : list string) :
  List.length a = List.length b ->
  RulePage.some_differs a b = false -> a = b.
Proof.
  revert b. induction a as [|x a IH]; intros [|y b]; simpl;
    try discriminate; [reflexivity|].
  intros [= Hlen] H. apply orb_false_iff in H. destruct H as [Hxy Hd].
  apply negb_false_iff, String.eqb_eq in Hxy. subst. f_equal. now apply IH.
Qed.

Lemma productsChanged_false (previous next : list string)
  (previousTiers : list value) :
  NoDup previous -> NoDup next ->
  RulePage.productsChanged
    (RulePage.tier_context_of previous next previousTiers) = false
  <-> (forall id, In id previous <-> In id next).
Proof.
  intros Hp Hn. unfold RulePage.tier_context_of. simpl. split.
  - intros H. apply orb_false_iff in H. destruct H as [Hlen Hd].
    apply negb_false_iff, Nat.eqb_eq in Hlen.
    apply some_differs_false in Hd; [|exact Hlen].
    intros id. rewrite <- (sort_in compare_strings previous),
                 <- (sort_in compare_strings next). now rewrite Hd.
  - intros H.
    rewrite (sort_strings_permutation previous next)
      by (now apply NoDup_Permutation).
    rewrite Nat.eqb_refl. simpl. apply some_differs_refl.
Qed.
End StringOrder.

Section Payload.
Import Claims RulePage.

Lemma difference_In (a b : list string) (id : string) :
  In id (filter (fun id => negb (includes id b)) a) <-> In id a /\ ~ In id b.
Proof.
  rewrite filter_In, negb_true_iff, includes_false. tauto.
Qed.

Lemma nonempty_option {A : Type} (l : list A) :
  (if (0 <? List.length l)%nat then Some l else None)
  = match l with [] => None | _ => Some l end.
Proof. now destruct l. Qed.

(** C1 (amended). For a tier with an existing [discount_id] that needs a
    remote update, one update is sent; when the rule's product set
    changed, whether the tier's fields changed or not, its payload is the
    incremental one: [productsToAdd] holds the ids of the desired set
    that are not in the previous one and [productsToRemove] those of the
    previous set that are not in the desired one, a list that is empty
    being left out; when the product set did not change (the tier's
    fields did), the payload is the full [productsToAdd] with the whole
    desired set. *)
Theorem update_payload_follows_product_change
  (previousProductIds productIds : list string) (previousTiers : list value)
  (tier : value) (acc : list value) (admin : remote) (log : list call) :
  NoDup previousProductIds -> NoDup productIds -> productIds <> [] ->
  nonempty_string (get "discount_id" tier) = true ->
  shouldUpdateExistingDiscount
    (tier_context_of previousProductIds productIds previousTiers) tier
  = true ->
  payload_claim previousProductIds productIds previousTiers tier acc admin
    log.
Proof.
  intros Hp Hn Hne Hid Hupd. unfold payload_claim. cbv zeta.
  set (ctx := tier_context_of previousProductIds productIds previousTiers) in *.
  split; [|split; [|split; [|split]]].
  - assert (E : (List.length (RulePage.productIds ctx) =? 0)%nat = false)
      by (simpl; destruct productIds; [congruence | reflexivity]).
    unfold reconcile_tier, shouldCreateDiscount. rewrite Hupd, Hid, E.
    cbn [negb andb]. rewrite bind_graphql.
    now destruct (0 <? List.length (userErrors _))%nat.
  - intros id. apply difference_In.
  - intros id. apply difference_In.
  - intros Hchanged.
    assert (Hc : productsChanged ctx = true).
    { destruct (productsChanged ctx) eqn:E; [reflexivity|].
      exfalso. apply Hchanged.
      exact (proj1 (productsChanged_false _ _ previousTiers Hp Hn) E). }
    unfold discountInputBase, productsInput. cbn [products].
    rewrite Hupd, Hc. cbn [andb].
    unfold ctx, tier_context_of. cbn [addedProductIds removedProductIds].
    now rewrite !nonempty_option.
  - intros Hsame.
    assert (Hc : productsChanged ctx = false)
      by exact (proj2 (productsChanged_false _ _ previousTiers Hp Hn) Hsame).
    split.
    + unfold shouldUpdateExistingDiscount in Hupd.
      rewrite Hid, Hc, orb_false_r in Hupd. exact Hupd.
    + unfold discountInputBase, productsInput. cbn [products].
      rewrite Hupd, Hc. reflexivity.
Qed.
End Payload.

(** ** The decoder of the configuration *)

Section Decoder.
Variable JSON_parse : string -> option value.

(** C8. For every input of the decoder, an absent or empty value, a
    string that is not valid JSON, JSON that is not an object, or an
    object whose [discounts] is missing or not an array, the result is
    [{ discounts: [] }]; the decoder returns a document whatever it is
    given (a failure of [JSON.parse] is caught), and an object whose
    [discounts] is an array is returned unchanged. *)
Theorem parseDiscountConfig_fails_soft (raw : value) :
  (truthy raw = false ->
   parseDiscountConfig JSON_parse raw = empty_config) /\
  (JSON_parse (String_ raw) = None ->
   parseDiscountConfig JSON_parse raw = empty_config) /\
  (forall parsed,
      JSON_parse (String_ raw) = Some parsed ->
      (forall fields, parsed <> Obj fields) ->
      parseDiscountConfig JSON_parse raw = empty_config) /\
  (forall fields,
      JSON_parse (String_ raw) = Some (Obj fields) ->
      (forall items, lookup "discounts" fields <> Arr items) ->
      parseDiscountConfig JSON_parse raw = empty_config) /\
  (forall fields items,
      truthy raw = true ->
      JSON_parse (String_ raw) = Some (Obj fields) ->
      lookup "discounts" fields = Arr items ->
      parseDiscountConfig JSON_parse raw = Obj fields) /\
  (exists items,
      get "discounts" (parseDiscountConfig JSON_parse raw) = Arr items).
Proof.
  unfold parseDiscountConfig.
  split; [|split; [|split; [|split; [|split]]]].
  - now intros ->.
  - intros ->. now destruct (negb (truthy raw)).
  - intros parsed -> Hno. destruct (negb (truthy raw)); [reflexivity|].
    destruct parsed as [| | | | | | |fs]; simpl; rewrite ?orb_true_r;
      try reflexivity.
    now contradiction (Hno fs).
  - intros fields -> Hno. destruct (negb (truthy raw)); [reflexivity|].
    simpl. destruct (lookup "discounts" fields) as [| | | | | |its|];
      try reflexivity.
    now contradiction (Hno its).
  - intros fields items -> -> Hd. simpl. now rewrite Hd.
  - destruct (negb (truthy raw)); [now exists []|].
    destruct (JSON_parse (String_ raw)) as [parsed|]; [|now exists []].
    destruct parsed as [| | | | | | |fs]; simpl; rewrite ?orb_true_r;
      try (now exists []).
    destruct (lookup "discounts" fs) as [| | | | | |its|] eqn:E;
      try (now exists []).
    exists its. simpl. exact E.
Qed.
End Decoder.

(** ** The theorems at work on the examples *)

Section Witnesses.
Import Claims Fixtures.

Lemma rules_not_null : Forall (fun rule => rule <> Null) rules.
Proof. repeat constructor; discriminate. Qed.


Lemma projection_writes_are_batched_witness :
  Forall (fun rule => rule <> Null) (as_array (Arr rules))
  /\ batching_claim result (Arr rules) (Arr [Str P1; Str P2; Str P3])
       accepting [].
Proof.
  split; [exact rules_not_null|].
  apply (projection_writes_are_batched result (Arr rules)
           (Arr [Str P1; Str P2; Str P3]) accepting []).
  exact rules_not_null.
Defined.


Lemma tier_loop_guard_never_fires_witness :
  RulePage.action parse (update_form "tiers as stored") (Str "rule-a")
    accepting
  <> (Returned (Failed AtTierLoopNoProduct
                  ["This rule must have at least one product."]), []).
Proof.
  apply (proj1 (tier_loop_guard_never_fires parse
                  (update_form "tiers as stored") (Str "rule-a") accepting)).
Defined.



Lemma update_batch_is_projection : is_projection_batch update_batch.
Proof.
  split; [discriminate|].
  repeat constructor; do 2 eexists; reflexivity.
Qed.

Lemma reprojection_follows_commit_witness :
  snd (RulePage.action parse (update_form "tiers as stored") (Str "rule-a")
         accepting)
  = firstn 6 (snd update_run) ++ MetafieldsSet update_batch
      :: skipn 7 (snd update_run)
  /\ is_projection_batch update_batch
  /\ reprojection_claim parse (update_form "tiers as stored") (Str "rule-a")
       accepting.
Proof.
  split; [vm_compute; reflexivity|].
  split; [exact update_batch_is_projection|].
  apply (reprojection_follows_commit parse (update_form "tiers as stored")
           (Str "rule-a") accepting (firstn 6 (snd update_run))
           (skipn 7 (snd update_run)) update_batch).
  - vm_compute; reflexivity.
  - exact update_batch_is_projection.
Defined.


Lemma parseDiscountConfig_fails_soft_witness :
  parseDiscountConfig parse (Str "document") = document.
Proof.
  apply (proj1 (proj2 (proj2 (proj2 (proj2
           (parseDiscountConfig_fails_soft parse (Str "document")))))))
    with (items := rules); reflexivity.
Defined.

(** The tier D2 as "Rule A" stores it, and as submitted with a new
    title. *)
Lemma update_payload_follows_product_change_witness :
  NoDup [P1; P2] /\ NoDup [P2; P3] /\ [P2; P3] <> []
  /\ nonempty_string
       (get "discount_id"
          (RulePage.parse_tier (stored_tier "T10 plus" 10 20 "D2"))) = true
  /\ RulePage.shouldUpdateExistingDiscount
       (RulePage.tier_context_of [P1; P2] [P2; P3]
          [stored_tier "T10" 10 20 "D2"])
       (RulePage.parse_tier (stored_tier "T10 plus" 10 20 "D2")) = true
  /\ payload_claim [P1; P2] [P2; P3] [stored_tier "T10" 10 20 "D2"]
       (RulePage.parse_tier (stored_tier "T10 plus" 10 20 "D2")) []
       accepting [ShopQuery].
Proof.
  assert (H12 : NoDup [P1; P2])
    by (repeat constructor; simpl; intuition discriminate).
  assert (H23 : NoDup [P2; P3])
    by (repeat constructor; simpl; intuition discriminate).
  split; [exact H12|]. split; [exact H23|]. split; [discriminate|].
  split; [reflexivity|]. split; [vm_compute; reflexivity|].
  apply (update_payload_follows_product_change [P1; P2] [P2; P3]
           [stored_tier "T10" 10 20 "D2"]
           (RulePage.parse_tier (stored_tier "T10 plus" 10 20 "D2")) []
           accepting [ShopQuery] H12 H23).
  - discriminate.
  - reflexivity.
  - vm_compute; reflexivity.
Defined.

(** C1 as stated fails: the title of the tier D2 changed, and so did the
    products of the rule, from P1 and P2 to P2 and P3; the payload of the
    update is the incremental one, not the full list. *)
Lemma update_payload_counterexample :
  ~ payload_claim_as_stated [P1; P2] [P2; P3] [stored_tier "T10" 10 20 "D2"]
      (RulePage.parse_tier (stored_tier "T10 plus" 10 20 "D2")).
Proof.
  unfold payload_claim_as_stated. cbv zeta. intros H.
  assert (Hid : nonempty_string
                  (get "discount_id"
                     (RulePage.parse_tier (stored_tier "T10 plus" 10 20 "D2")))
                = true) by reflexivity.
  assert (Hupd : RulePage.shouldUpdateExistingDiscount
                   (RulePage.tier_context_of [P1; P2] [P2; P3]
                      [stored_tier "T10" 10 20 "D2"])
                   (RulePage.parse_tier (stored_tier "T10 plus" 10 20 "D2"))
                 = true) by (vm_compute; reflexivity).
  destruct (H Hid Hupd) as [_ Hfull].
  assert (Hchanged : RulePage.tierChanged
                       (RulePage.tier_context_of [P1; P2] [P2; P3]
                          [stored_tier "T10" 10 20 "D2"])
                       (RulePage.parse_tier (stored_tier "T10 plus" 10 20 "D2"))
                     = true) by (vm_compute; reflexivity).
  specialize (Hfull Hchanged). vm_compute in Hfull. discriminate.
Qed.

(** The same in a run of the action: the update of D2 in the log carries
    [productsToAdd = [P3]] and [productsToRemove = [P1]]. *)
Example update_with_new_title_and_products :
  exists input,
    nth_error
      (snd (RulePage.action parse (update_form "tiers with a new title")
              (Str "rule-a") accepting)) 2
    = Some (DiscountAutomaticBasicUpdate (Str "D2") input)
    /\ title input = "T10 plus"
    /\ products input
       = {| productsToAdd := Some [P3]; productsToRemove := Some [P1] |}.
Proof. eexists. vm_compute. repeat split. Qed.
End Witnesses.

(** ** Handles *)

Section Handles.
Import RulePage Shapes.

Lemma list_of_string_app (a b : string) :
  list_ascii_of_string (a ++ b)
  = list_ascii_of_string a ++ list_ascii_of_string b.
Proof. induction a as [|c a IH]; simpl; [reflexivity | now rewrite IH]. Qed.

Lemma hyphen_not_space : is_space "-" = false.
Proof. reflexivity. Qed.

Lemma replace_runs_chars (cls : ascii -> bool) (l : list ascii) (b : bool)
  (c : ascii) :
  In c (replace_runs cls b l) -> c = "-"%char \/ (In c l /\ cls c = false).
Proof.
  revert b. induction l as [|x l IH]; intros b H; simpl in *; [contradiction|].
  destruct (cls x) eqn:E.
  - destruct b.
    + destruct (IH _ H) as [?|[? ?]]; auto.
    + destruct H as [<-|H]; [now left|].
      destruct (IH _ H) as [?|[? ?]]; auto.
  - destruct H as [<-|H]; [right; auto|].
    destruct (IH _ H) as [?|[? ?]]; auto.
Qed.

Lemma replace_runs_none (cls : ascii -> bool) (l : list ascii) (b : bool) :
  Forall (fun c => cls c = false) l -> replace_runs cls b l = l.
Proof.
  revert b. induction l as [|x l IH]; intros b H; simpl; [reflexivity|].
  inversion H as [|? ? Hx Hl]; subst. rewrite Hx. now rewrite IH.
Qed.

Lemma replace_hyphen_runs_single (l : list ascii) (b : bool) :
  single_hyphens (replace_runs is_hyphen b l)
  /\ (b = true ->
      match replace_runs is_hyphen b l with
      | c :: _ => c <> "-"%char
      | [] => True
      end).
Proof.
  revert b. induction l as [|x l IH]; intros b; simpl; [auto|].
  destruct (is_hyphen x) eqn:E.
  - destruct b.
    + apply IH.
    + destruct (IH true) as [Hs Hh]. specialize (Hh eq_refl). split.
      * simpl. destruct (replace_runs is_hyphen true l); [exact I|].
        split; [intros [_ ->]; now apply Hh | exact Hs].
      * discriminate.
  - destruct (IH false) as [Hs _]. split.
    + simpl. destruct (replace_runs is_hyphen false l); [exact I|].
      split; [|exact Hs]. intros [-> _]. discriminate.
    + intros _ ->. discriminate.
Qed.

Lemma replace_hyphen_runs_id (l : list ascii) (b : bool) :
  single_hyphens l ->
  (b = true -> match l with c :: _ => c <> "-"%char | [] => True end) ->
  replace_runs is_hyphen b l = l.
Proof.
  revert b. induction l as [|x l IH]; intros b Hs Hb; simpl; [reflexivity|].
  destruct (is_hyphen x) eqn:E.
  - apply Ascii.eqb_eq in E. subst x. destruct b.
    + now specialize (Hb eq_refl).
    + f_equal. apply IH.
      * destruct l; [exact I | apply Hs].
      * intros _. destruct l as [|y l]; [exact I|].
        destruct Hs as [Hn _]. intros ->. now apply Hn.
  - f_equal. apply IH.
    + destruct l; [exact I | apply Hs].
    + discriminate.
Qed.

Lemma single_hyphens_no_pair (l before after : list ascii) :
  single_hyphens l -> l <> before ++ "-"%char :: "-"%char :: after.
Proof.
  revert l. induction before as [|c before IH]; intros l Hs E; subst l.
  - simpl in Hs. destruct Hs as [Hn _]. now apply Hn.
  - simpl in Hs. destruct (before ++ "-"%char :: "-"%char :: after) eqn:E'.
    + destruct before; discriminate.
    + destruct Hs as [_ Hs]. rewrite <- E' in Hs. now apply (IH _ Hs).
Qed.

Lemma handle_char_facts (c : ascii) :
  handle_char c = true ->
  is_space c = false /\ is_upper c = false /\ kebab_kept c = true.
Proof.
  destruct c as [[] [] [] [] [] [] [] []]; vm_compute; intros H;
    first [discriminate H | repeat split].
Qed.

Lemma toKebabCase_chars (s : string) :
  list_ascii_of_string (toKebabCase s) = kebab_chars s.
Proof.
  unfold toKebabCase, kebab_chars. now rewrite list_ascii_of_string_of_list_ascii.
Qed.

Lemma kebab_chars_handle (s : string) :
  Forall (fun c => handle_char c = true) (kebab_chars s).
Proof.
  apply Forall_forall. intros c H. unfold kebab_chars in H.
  apply replace_runs_chars in H. destruct H as [->|[H _]]; [reflexivity|].
  apply replace_runs_chars in H. destruct H as [->|[H Hs]]; [reflexivity|].
  apply filter_In in H. destruct H as [_ Hk].
  unfold kebab_kept in Hk. unfold handle_char. rewrite Hs in Hk.
  now rewrite orb_false_r in Hk.
Qed.

Lemma drop_spaces_head (l : list ascii) :
  match l with c :: _ => is_space c = false | [] => True end ->
  drop_spaces l = l.
Proof. destruct l as [|c l]; simpl; [reflexivity|]. now intros ->. Qed.

Lemma trim_list_none (l : list ascii) :
  Forall (fun c => is_space c = false) l -> trim_list l = l.
Proof.
  intros H. unfold trim_list. rewrite (drop_spaces_head l).
  - rewrite drop_spaces_head; [apply rev_involutive|].
    assert (Hr : Forall (fun c => is_space c = false) (rev l))
      by now apply Forall_rev.
    destruct (rev l); [exact I | now inversion Hr].
  - destruct l; [exact I | now inversion H].
Qed.

(** X1. A handle holds only lowercase letters, digits and hyphens, and
    never two hyphens in a row. *)
Theorem toKebabCase_alphabet (s : string) :
  (forall c, In c (list_ascii_of_string (toKebabCase s)) ->
             is_lower c = true \/ is_digit c = true \/ c = "-"%char)
  /\ forall before after : string,
       toKebabCase s <> (before ++ "--" ++ after)%string.
Proof.
  split.
  - intros c H. rewrite toKebabCase_chars in H.
    pose proof (kebab_chars_handle s) as Hall.
    rewrite Forall_forall in Hall. specialize (Hall c H).
    unfold handle_char in Hall.
    apply orb_true_iff in Hall. destruct Hall as [Hall|Hall].
    + apply orb_true_iff in Hall. tauto.
    + right. right. now apply Ascii.eqb_eq.
  - intros before after E.
    apply (f_equal list_ascii_of_string) in E.
    rewrite toKebabCase_chars, list_of_string_app in E. simpl in E.
    revert E. apply single_hyphens_no_pair.
    apply (replace_hyphen_runs_single _ false).
Qed.

(** X2. The handle of a handle is the handle itself. *)
Theorem toKebabCase_idempotent (s : string) :
  toKebabCase (toKebabCase s) = toKebabCase s.
Proof.
  assert (E : kebab_chars (toKebabCase s) = kebab_chars s).
  { pose proof (kebab_chars_handle s) as Hall.
    assert (Hsp : Forall (fun c => is_space c = false) (kebab_chars s)).
    { eapply Forall_impl; [|exact Hall]. intros c Hc.
      now apply handle_char_facts in Hc. }
    unfold kebab_chars at 1. unfold trim, toLowerCase.
    rewrite toKebabCase_chars, trim_list_none by exact Hsp.
    rewrite !list_ascii_of_string_of_list_ascii.
    assert (El : map lower (kebab_chars s) = kebab_chars s).
    { rewrite <- (map_id (kebab_chars s)) at 2. apply map_ext_in.
      intros c Hc. rewrite Forall_forall in Hall.
      destruct (handle_char_facts c (Hall c Hc)) as [_ [Hu _]].
      unfold lower. now rewrite Hu. }
    rewrite El.
    assert (Ef : filter kebab_kept (kebab_chars s) = kebab_chars s).
    { apply forallb_filter_id. apply forallb_forall. intros c Hc.
      rewrite Forall_forall in Hall.
      now destruct (handle_char_facts c (Hall c Hc)) as [_ [_ Hk]]. }
    rewrite Ef, (replace_runs_none is_space) by exact Hsp.
    apply replace_hyphen_runs_id; [|discriminate].
    apply (replace_hyphen_runs_single _ false). }
  change (toKebabCase (toKebabCase s))
    with (string_of_list_ascii (kebab_chars (toKebabCase s))).
  now rewrite E.
Qed.
End Handles.

(** ** Product ids, once more *)

Section ProductIdSets.

Lemma normalizeProductId_cases (product : value) (id : string) :
  normalizeProductId product = id /\ id <> "" <->
  valid_id id /\ id <> "" /\
  (product = Str id
   \/ exists fields, product = Obj fields /\ lookup "id" fields = Str id).
Proof.
  unfold normalizeProductId, valid_id. split.
  - intros [E Hne].
    destruct product as [| | | | |s| |fields]; try (now subst id).
    + destruct (startsWith PRODUCT_PREFIX s) eqn:Es; [|now subst id].
      subst id. auto.
    + simpl in E. destruct (lookup "id" fields) as [| | | | |s| |] eqn:El;
        try (now subst id).
      destruct (startsWith PRODUCT_PREFIX s) eqn:Es; [|now subst id].
      subst id. repeat split; auto. right. now exists fields.
  - intros [Hv [Hne [->|[fields [-> El]]]]].
    + now rewrite Hv.
    + simpl. now rewrite El, Hv.
Qed.

(** X3. The normalized ids of a list of products are, without repetition,
    the ids with the product prefix that the list gives as a string or as
    the [id] of an object. *)
Theorem normalizeProductIds_members (products : value) :
  NoDup (normalizeProductIds products) /\
  forall id,
    In id (normalizeProductIds products) <->
    startsWith PRODUCT_PREFIX id = true /\
    (In (Str id) (as_array products)
     \/ exists fields,
         In (Obj fields) (as_array products) /\ lookup "id" fields = Str id).
Proof.
  split; [apply normalizeProductIds_NoDup|].
  intros id. unfold normalizeProductIds.
  rewrite unique_In, filter_In, in_map_iff. split.
  - intros [[product [E Hin]] Hne].
    assert (Hid : id <> "").
    { intros ->. discriminate. }
    destruct (proj1 (normalizeProductId_cases product id) (conj E Hid))
      as [Hv [_ [->|[fields [-> El]]]]]; split; auto.
    right. now exists fields.
  - intros [Hv Hsrc].
    assert (Hid : id <> "").
    { intros ->. discriminate. }
    assert (Hne : nonempty id = true).
    { unfold nonempty. destruct (String.eqb_spec id ""); [contradiction|].
      reflexivity. }
    split; [|exact Hne].
    destruct Hsrc as [Hin|[fields [Hin El]]].
    + exists (Str id). split; [|exact Hin].
      apply (normalizeProductId_cases (Str id) id). auto.
    + exists (Obj fields). split; [|exact Hin].
      apply (normalizeProductId_cases (Obj fields) id). repeat split; auto.
      right. now exists fields.
Qed.

(** X4. Normalizing a normalized list of ids changes nothing. *)
Theorem normalizeProductIds_idempotent (products : value) :
  normalizeProductIds (Arr (map Str (normalizeProductIds products)))
  = normalizeProductIds products.
Proof.
  apply normalizeProductIds_strings.
  - apply normalizeProductIds_valid.
  - apply normalizeProductIds_NoDup.
Qed.

Lemma unique_from_ext (l seen seen' : list string) :
  (forall x, In x seen <-> In x seen') ->
  unique_from seen l = unique_from seen' l.
Proof.
  revert seen seen'. induction l as [|x l IH]; intros seen seen' H; simpl;
    [reflexivity|].
  assert (E : includes x seen = includes x seen').
  { destruct (includes x seen) eqn:E1, (includes x seen') eqn:E2; auto.
    - apply includes_In in E1. apply includes_false in E2.
      now apply H in E1.
    - apply includes_In in E2. apply includes_false in E1.
      now apply H in E2. }
  rewrite <- E. destruct (includes x seen).
  - now apply IH.
  - f_equal. apply IH. intros y. simpl. now rewrite H.
Qed.

Lemma unique_from_app (a b seen : list string) :
  unique_from seen (a ++ b)
  = unique_from seen a ++ unique_from (rev (unique_from seen a) ++ seen) b.
Proof.
  revert seen. induction a as [|x a IH]; intros seen; simpl; [reflexivity|].
  destruct (includes x seen).
  - apply IH.
  - simpl. f_equal. rewrite IH. f_equal. now rewrite <- app_assoc.
Qed.

Lemma collect_ids_unique (ids seen out : list string) :
  fold_left collect_id ids (seen, out)
  = (rev (unique_from seen ids) ++ seen, out ++ unique_from seen ids).
Proof.
  revert seen out. induction ids as [|x ids IH]; intros seen out; simpl.
  - now rewrite app_nil_r.
  - destruct (includes x seen).
    + apply IH.
    + rewrite IH. simpl. now rewrite <- !app_assoc.
Qed.

Lemma collect_tiers_unique (tiers : list value) (seen out : list string) :
  snd (fold_left
         (fun state tier =>
            fold_left collect_id (normalizeProductIds (get "products" tier))
              state)
         tiers (seen, out))
  = out ++ unique_from seen
             (flat_map (fun tier => normalizeProductIds (get "products" tier))
                tiers).
Proof.
  revert seen out. induction tiers as [|tier tiers IH]; intros seen out; simpl.
  - now rewrite app_nil_r.
  - rewrite collect_ids_unique, IH, unique_from_app. now rewrite <- app_assoc.
Qed.

(** X5. The products of a rule are its own list when that holds a valid
    id; only otherwise are they collected from the tiers, each id once, in
    the order the tiers give them. *)
Theorem getRuleProductIds_direct_or_tiers (rule : value) :
  rule <> Null ->
  getRuleProductIds rule
  = Some match normalizeProductIds (get "products" rule) with
         | [] =>
             unique
               (flat_map
                  (fun tier => normalizeProductIds (get "products" tier))
                  (as_array (get "tiers" rule)))
         | direct => direct
         end.
Proof.
  intros Hn. unfold getRuleProductIds.
  assert (Eg : forall k,
             get k match rule with Undefined => Obj [] | _ => rule end
             = get k rule).
  { intros k. now destruct rule. }
  destruct rule; try contradiction; rewrite ?Eg;
    (destruct (normalizeProductIds (get "products" _)) eqn:E;
     [cbn [List.length Nat.ltb Nat.leb]; f_equal; apply collect_tiers_unique
     | reflexivity]).
Qed.
End ProductIdSets.

(** ** Chunks *)

Section ChunkShapes.
Context {A : Type}.

Lemma chunkArray_loop_slices (size : nat) (items : list A) :
  (0 < size)%nat ->
  forall fuel index chunks,
    chunkArray_loop fuel items index size = Some chunks ->
    (List.length items <= index + List.length chunks * size)%nat /\
    forall i chunk,
      nth_error chunks i = Some chunk ->
      chunk = slice (index + i * size) size items
      /\ (index + i * size < List.length items)%nat.
Proof.
  intros Hs. induction fuel as [|fuel IH]; intros index chunks H.
  - simpl in H. destruct (index <? List.length items)%nat eqn:E; [discriminate|].
    injection H as <-. apply Nat.ltb_ge in E. split; [simpl; lia|].
    intros i chunk Hi. destruct i; discriminate.
  - simpl in H. destruct (index <? List.length items)%nat eqn:E.
    + destruct (chunkArray_loop fuel items (index + size) size) as [rest|] eqn:Er;
        [|discriminate].
      injection H as <-. destruct (IH _ _ Er) as [Hend Hsl].
      split; [simpl; lia|].
      intros i chunk Hi. destruct i as [|i]; simpl in Hi.
      * injection Hi as <-. apply Nat.ltb_lt in E.
        rewrite Nat.add_0_r. auto.
      * destruct (Hsl _ _ Hi) as [-> Hlt].
        replace (index + size + i * size)%nat with (index + S i * size)%nat
          in * by lia.
        auto.
    + injection H as <-. apply Nat.ltb_ge in E. split; [simpl; lia|].
      intros i chunk Hi. destruct i; discriminate.
Qed.

Lemma slice_length (from size : nat) (items : list A) :
  List.length (slice from size items)
  = Nat.min size (List.length items - from).
Proof. unfold slice. now rewrite length_firstn, length_skipn. Qed.

(** X6. For a positive size, [chunkArray] cuts the whole array, in
    order, into chunks that all hold [size] items, except that the last
    one holds what is left, at least one item. *)
Theorem chunkArray_full_chunks (items : list A) (size : nat) :
  (0 < size)%nat ->
  exists chunks,
    chunkArray items size = Some chunks /\
    List.concat chunks = items /\
    (forall i chunk,
        nth_error chunks i = Some chunk ->
        (S i < List.length chunks)%nat ->
        List.length chunk = size) /\
    (forall chunk,
        nth_error chunks (List.length chunks - 1) = Some chunk ->
        List.length chunk
        = (List.length items - (List.length chunks - 1) * size)%nat
        /\ (1 <= List.length chunk <= size)%nat).
Proof.
  intros Hs. destruct (chunkArray_ends size items Hs) as [chunks [E [Hc Hl]]].
  exists chunks. split; [exact E|]. split; [exact Hc|].
  destruct (chunkArray_loop_slices size items Hs _ _ _ E) as [Hend Hsl].
  simpl in Hend, Hsl. split.
  - intros i chunk Hi Hnext.
    destruct (nth_error chunks (S i)) as [next|] eqn:En.
    + destruct (Hsl _ _ En) as [_ Hlt]. destruct (Hsl _ _ Hi) as [-> _].
      rewrite slice_length. simpl in Hlt. apply Nat.min_l. lia.
    + apply nth_error_None in En. lia.
  - intros chunk Hi. destruct (Hsl _ _ Hi) as [E' Hlt].
    assert (Hk : (List.length chunks - 1 < List.length chunks)%nat).
    { apply nth_error_Some. now rewrite Hi. }
    assert (Hle : (List.length items - (List.length chunks - 1) * size
                   <= size)%nat).
    { replace (List.length chunks) with (S (List.length chunks - 1)) in Hend
        at 1 by lia.
      simpl in Hend. lia. }
    rewrite E', slice_length, Nat.min_r by exact Hle. lia.
Qed.

(** X7. With a size of [0] the loop of [chunkArray] does not end on an
    array that is not empty: whatever the number of turns allowed, it is
    still running. An empty array gives no chunk. *)
Theorem chunkArray_size_zero (items : list A) :
  (items <> [] -> forall fuel, chunkArray_loop fuel items 0 0 = None)
  /\ chunkArray (@nil A) 0 = Some [].
Proof.
  split; [|reflexivity].
  intros Hne. assert (Hlt : (0 <? List.length items)%nat = true).
  { destruct items; [contradiction | reflexivity]. }
  induction fuel as [|fuel IH]; simpl; rewrite Hlt; [reflexivity|].
  now rewrite IH.
Qed.
End ChunkShapes.

(** ** Numbers written and read back *)

Section NumberText.

Lemma digits_step (acc : Z) (n : nat) (c : ascii) (l : list ascii) :
  is_digit c = true ->
  digits acc n (c :: l) = digits (10 * acc + digit_value c) (S n) l.
Proof. intros H. simpl. now rewrite H. Qed.

Lemma uint_chars_digits (d : Decimal.uint) :
  Forall (fun c => is_digit c = true)
    (list_ascii_of_string (NilEmpty.string_of_uint d)).
Proof. induction d; simpl; constructor; auto. Qed.

Ltac read_digit c k q IH :=
  rewrite digits_step by reflexivity;
  change (digit_value c) with k;
  match goal with
  | |- digits ?acc _ _ = _ => replace acc with (Z.pos q) by lia
  end;
  rewrite IH; cbn [Pos.of_uint_acc Pos.of_uint Decimal.nb_digits Z.of_N];
  rewrite Nat.add_succ_r; reflexivity.

Lemma digits_of_uint_acc (d : Decimal.uint) (p : positive) (n : nat) :
  digits (Z.pos p) n (list_ascii_of_string (NilEmpty.string_of_uint d))
  = (Z.pos (Pos.of_uint_acc d p), (n + Decimal.nb_digits d)%nat, []).
Proof.
  revert p n. induction d; intros p n; simpl NilEmpty.string_of_uint;
    simpl list_ascii_of_string.
  - simpl. now rewrite Nat.add_0_r.
  - read_digit "0"%char 0 (10 * p)%positive IHd.
  - read_digit "1"%char 1 (1 + 10 * p)%positive IHd.
  - read_digit "2"%char 2 (2 + 10 * p)%positive IHd.
  - read_digit "3"%char 3 (3 + 10 * p)%positive IHd.
  - read_digit "4"%char 4 (4 + 10 * p)%positive IHd.
  - read_digit "5"%char 5 (5 + 10 * p)%positive IHd.
  - read_digit "6"%char 6 (6 + 10 * p)%positive IHd.
  - read_digit "7"%char 7 (7 + 10 * p)%positive IHd.
  - read_digit "8"%char 8 (8 + 10 * p)%positive IHd.
  - read_digit "9"%char 9 (9 + 10 * p)%positive IHd.
Qed.

Lemma digits_of_uint (d : Decimal.uint) (n : nat) :
  digits 0 n (list_ascii_of_string (NilEmpty.string_of_uint d))
  = (Z.of_N (Pos.of_uint d), (n + Decimal.nb_digits d)%nat, []).
Proof.
  revert n. induction d; intros n; simpl NilEmpty.string_of_uint;
    simpl list_ascii_of_string.
  - simpl. now rewrite Nat.add_0_r.
  - rewrite digits_step by reflexivity.
    change (10 * 0 + digit_value "0") with 0.
    rewrite IHd. cbn [Pos.of_uint Decimal.nb_digits].
    now rewrite Nat.add_succ_r.
  - read_digit "1"%char 1 1%positive digits_of_uint_acc.
  - read_digit "2"%char 2 2%positive digits_of_uint_acc.
  - read_digit "3"%char 3 3%positive digits_of_uint_acc.
  - read_digit "4"%char 4 4%positive digits_of_uint_acc.
  - read_digit "5"%char 5 5%positive digits_of_uint_acc.
  - read_digit "6"%char 6 6%positive digits_of_uint_acc.
  - read_digit "7"%char 7 7%positive digits_of_uint_acc.
  - read_digit "8"%char 8 8%positive digits_of_uint_acc.
  - read_digit "9"%char 9 9%positive digits_of_uint_acc.
Qed.

Lemma digit_not_space (c : ascii) : is_digit c = true -> is_space c = false.
Proof.
  destruct c as [[] [] [] [] [] [] [] []]; vm_compute; intros H;
    first [discriminate H | reflexivity].
Qed.

Lemma digit_no_sign (c : ascii) (rest : list ascii) :
  is_digit c = true ->
  match c :: rest with
  | "-"%char :: r => (true, r)
  | "+"%char :: r => (false, r)
  | _ => (false, c :: rest)
  end = (false, c :: rest).
Proof.
  destruct c as [[] [] [] [] [] [] [] []]; vm_compute; intros H;
    first [discriminate H | reflexivity].
Qed.

Lemma positive_text (p : positive) :
  exists c rest,
    list_ascii_of_string (string_of_Z (Z.pos p)) = c :: rest /\
    Forall (fun c => is_digit c = true) (c :: rest) /\
    exists n, digits 0 0 (c :: rest) = (Z.pos p, S n, []).
Proof.
  unfold string_of_Z. simpl Z.to_int. simpl NilZero.string_of_int.
  unfold NilZero.string_of_uint.
  pose proof (Unsigned.to_uint_nonnil p) as Hn.
  pose proof (uint_chars_digits (Pos.to_uint p)) as Hd.
  pose proof (digits_of_uint (Pos.to_uint p) 0) as Hv.
  rewrite DecimalPos.Unsigned.of_to in Hv. simpl Z.of_N in Hv.
  destruct (Pos.to_uint p) eqn:E; try contradiction;
    simpl NilEmpty.string_of_uint in *; simpl list_ascii_of_string in *;
    do 2 eexists; (split; [reflexivity|]); (split; [exact Hd|]);
    rewrite Hv; simpl; eexists; reflexivity.
Qed.

Lemma parseInt_digits (c : ascii) (rest : list ascii) (z : Z) (n : nat) :
  Forall (fun c => is_digit c = true) (c :: rest) ->
  digits 0 0 (c :: rest) = (z, S n, []) ->
  parseInt (string_of_list_ascii (c :: rest)) = Num z
  /\ parseInt (string_of_list_ascii ("-"%char :: c :: rest)) = Num (- z).
Proof.
  intros Hd Hv. inversion Hd as [|? ? Hc _]; subst.
  unfold parseInt. rewrite !list_ascii_of_string_of_list_ascii. split.
  - rewrite drop_spaces_head by now apply digit_not_space.
    rewrite digit_no_sign by exact Hc. now rewrite Hv.
  - cbn [drop_spaces]. change (is_space "-") with false. cbv iota.
    now rewrite Hv.
Qed.

(** An integer written with [String] and read with [parseInt], trimmed or
    not, is the integer. *)
Lemma parseInt_String (z : Z) :
  parseInt (String_ (Num z)) = Num z
  /\ trim (String_ (Num z)) = String_ (Num z).
Proof.
  destruct z as [|p|p].
  - split; reflexivity.
  - destruct (positive_text p) as [c [rest [E [Hd [n Hv]]]]].
    assert (Es : String_ (Num (Z.pos p)) = string_of_list_ascii (c :: rest)).
    { simpl String_. now rewrite <- E, string_of_list_ascii_of_string. }
    rewrite Es. split.
    + apply (parseInt_digits c rest _ n Hd Hv).
    + unfold trim. rewrite list_ascii_of_string_of_list_ascii.
      rewrite trim_list_none; [reflexivity|].
      eapply Forall_impl; [|exact Hd]. intros a. apply digit_not_space.
  - destruct (positive_text p) as [c [rest [E [Hd [n Hv]]]]].
    assert (Es : String_ (Num (Z.neg p))
                 = string_of_list_ascii ("-"%char :: c :: rest)).
    { simpl String_. unfold string_of_Z. simpl Z.to_int.
      simpl NilZero.string_of_int. unfold string_of_Z in E.
      simpl Z.to_int in E. simpl NilZero.string_of_int in E.
      simpl string_of_list_ascii. f_equal.
      change (String c (string_of_list_ascii rest))
        with (string_of_list_ascii (c :: rest)).
      now rewrite <- E, string_of_list_ascii_of_string. }
    rewrite Es. split.
    + apply (parseInt_digits c rest _ n Hd Hv).
    + unfold trim. rewrite list_ascii_of_string_of_list_ascii.
      rewrite trim_list_none; [reflexivity|].
      constructor; [reflexivity|].
      eapply Forall_impl; [|exact Hd]. intros a. apply digit_not_space.
Qed.

End NumberText.

(** ** Tiers between the document, the editor and the update *)

Section TierTexts.
Import RulePage RuleEditor.



Lemma String_text (s : string) : String_ (or_else (Str s) (Str "")) = s.
Proof.
  unfold or_else. simpl. destruct (String.eqb_spec s ""); simpl; auto.
Qed.

Lemma string_of_Z_nonempty (z : Z) : (string_of_Z z =? "")%string = false.
Proof.
  destruct z as [|p|p]; [reflexivity| |reflexivity].
  destruct (positive_text p) as [c [rest [E _]]].
  destruct (string_of_Z (Z.pos p)); [discriminate | reflexivity].
Qed.

Lemma parse_number_text (z : Z) :
  parseInt (trim (String_ (or_else (Str (String_ (Num z))) (Str "")))) = Num z.
Proof.
  rewrite String_text. destruct (parseInt_String z) as [P T].
  now rewrite T.
Qed.

Lemma editor_tier_text (tier : value) (t id : string) (m p : Z) :
  get "title" tier = Str t ->
  get "min_quantity" tier = Num m ->
  get "percent_off" tier = Num p ->
  get "discount_id" tier = Str id ->
  normalizeTierForEditor tier
  = Some (Obj [("title", Str t);
               ("min_quantity", Str (String_ (Num m)));
               ("percent_off", Str (String_ (Num p)));
               ("discount_id", Str id)]).
Proof.
  intros Et Em Ep Ei.
  destruct tier as [| | | | | | |fields]; try discriminate.
  unfold normalizeTierForEditor. cbv beta iota zeta.
  now rewrite Et, Em, Ep, Ei.
Qed.

Lemma parse_tier_text (t id : string) (m p : Z) :
  parse_tier (Obj [("title", Str t);
                   ("min_quantity", Str (String_ (Num m)));
                   ("percent_off", Str (String_ (Num p)));
                   ("discount_id", Str id)])
  = Obj [("title", Str (trim t)); ("min_quantity", Num m);
         ("percent_off", Num p); ("discount_id", Str id)].
Proof.
  unfold parse_tier. cbn [spread get lookup String.eqb Ascii.eqb Bool.eqb].
  cbn [assign String.eqb Ascii.eqb Bool.eqb].
  rewrite String_text, !parse_number_text. reflexivity.
Qed.


Lemma strict_eq_eq (a b : value) : strict_eq a b = true -> a = b.
Proof.
  destruct a, b; simpl; intros H; try discriminate; try reflexivity.
  - f_equal. now apply Bool.eqb_prop.
  - f_equal. now apply Z.eqb_eq.
  - f_equal. now apply String.eqb_eq.
Qed.

Lemma strict_eq_Str (s : string) : strict_eq (Str s) (Str s) = true.
Proof. simpl. apply String.eqb_refl. Qed.

Lemma map_get_set_same (k v : value) (m : list (value * value)) :
  strict_eq k k = true ->
  map_get strict_eq k (map_set strict_eq k v m) = Some v.
Proof.
  intros Hk. induction m as [|[k' v'] m IH]; simpl.
  - now rewrite Hk.
  - destruct (strict_eq k k') eqn:E; simpl.
    + now rewrite Hk.
    + now rewrite E.
Qed.

Lemma map_get_set_other (q k v : value) (m : list (value * value)) :
  strict_eq q k = false ->
  map_get strict_eq q (map_set strict_eq k v m) = map_get strict_eq q m.
Proof.
  intros Hq. induction m as [|[k' v'] m IH]; simpl.
  - now rewrite Hq.
  - destruct (strict_eq k k') eqn:E; simpl.
    + apply strict_eq_eq in E. subst k'. now rewrite Hq.
    + now rewrite IH.
Qed.

Lemma nonempty_strings_app (a b : list value) :
  nonempty_strings (a ++ b) = nonempty_strings a ++ nonempty_strings b.
Proof.
  induction a as [|v a IH]; simpl; [reflexivity|].
  destruct v; auto. destruct (s =? "")%string; simpl; now rewrite IH.
Qed.

Lemma previous_tier_kept (tiers : list value) (m0 : list (value * value))
  (tier : value) (id : string) :
  NoDup (discount_ids tiers) ->
  In tier tiers -> get "discount_id" tier = Str id -> id <> "" ->
  map_get strict_eq (Str id)
    (fold_left (fun m tier => map_set strict_eq (get "discount_id" tier) tier m)
       (filter (fun tier => nonempty_string (get "discount_id" tier)) tiers)
       m0)
  = Some tier.
Proof.
  revert m0. induction tiers as [|x tiers IH] using rev_ind;
    intros m0 Hnd Hin Ei Hne; [contradiction|].
  unfold discount_ids in Hnd. rewrite map_app, nonempty_strings_app in Hnd.
  rewrite filter_app, fold_left_app.
  assert (Hid : nonempty_string (Str id) = true).
  { simpl. destruct (String.eqb_spec id ""); [contradiction | reflexivity]. }
  apply in_app_or in Hin. destruct Hin as [Hin|[<-|[]]].
  - assert (Hx : strict_eq (Str id) (get "discount_id" x) = false).
    { destruct (strict_eq (Str id) (get "discount_id" x)) eqn:E; [|reflexivity].
      apply strict_eq_eq in E. exfalso.
      cbn [map] in Hnd. rewrite <- E in Hnd. cbn [nonempty_strings] in Hnd.
      destruct (String.eqb_spec id ""); [contradiction|].
      apply NoDup_remove_2 in Hnd. apply Hnd. rewrite app_nil_r.
      apply discount_ids_In. split; [exact Hne|]. now exists tier. }
    cbn [filter]. destruct (nonempty_string (get "discount_id" x)); simpl.
    + rewrite map_get_set_other by exact Hx.
      apply IH; auto. now apply NoDup_app_remove_r in Hnd.
    + apply IH; auto. now apply NoDup_app_remove_r in Hnd.
  - cbn [filter]. rewrite Ei, Hid. simpl. rewrite Ei.
    apply map_get_set_same, strict_eq_Str.
Qed.

(** X10. A stored tier whose threshold and percentage are not [0], shown
    by the editor and submitted as it is while the products of the rule
    have not changed, is kept without any call to the service. *)
Theorem unchanged_tier_makes_no_call
  (previousProductIds productIds : list string) (previousTiers : list value)
  (tier : value) (t id : string) (m p : Z) (acc : list value)
  (admin : remote) (log : list call) :
  NoDup previousProductIds -> NoDup productIds ->
  (forall x, In x previousProductIds <-> In x productIds) ->
  NoDup (discount_ids previousTiers) -> In tier previousTiers ->
  get "title" tier = Str t ->
  get "min_quantity" tier = Num m -> m <> 0 ->
  get "percent_off" tier = Num p -> p <> 0 ->
  get "discount_id" tier = Str id -> id <> "" ->
  forall shown,
    normalizeTierForEditor tier = Some shown ->
    reconcile_tier
      (tier_context_of previousProductIds productIds previousTiers) acc
      (parse_tier shown) admin log
    = (Continue (acc ++ [parse_tier shown]), log).
Proof.
  intros Hp Hn Hsame Hnd Hin Et Em Hm Ep Hpc Ei Hid shown Hshown.
  rewrite (editor_tier_text tier t id m p Et Em Ep Ei) in Hshown.
  assert (Es : shown = Obj [("title", Str t);
                            ("min_quantity", Str (String_ (Num m)));
                            ("percent_off", Str (String_ (Num p)));
                            ("discount_id", Str id)])
    by now injection Hshown.
  subst shown. rewrite parse_tier_text.
  set (tier' := Obj [("title", Str (trim t)); ("min_quantity", Num m);
                     ("percent_off", Num p); ("discount_id", Str id)]).
  set (ctx := tier_context_of previousProductIds productIds previousTiers).
  assert (Gi : get "discount_id" tier' = Str id) by reflexivity.
  assert (Gt : get "title" tier' = Str (trim t)) by reflexivity.
  assert (Gm : get "min_quantity" tier' = Num m) by reflexivity.
  assert (Gp : get "percent_off" tier' = Num p) by reflexivity.
  assert (Hne : nonempty_string (Str id) = true).
  { simpl. destruct (String.eqb_spec id ""); [contradiction | reflexivity]. }
  assert (Hc : tierChanged ctx tier' = false).
  { unfold tierChanged. rewrite Gi, Gt, Gm, Gp, Hne.
    unfold ctx at 1. cbn [tier_context_of previousTierByDiscountId].
    rewrite (previous_tier_kept previousTiers [] tier id Hnd Hin Ei Hid).
    rewrite Et, Em, Ep, String_text.
    assert (Tm : truthy (Num m) = true).
    { simpl. destruct (Z.eqb_spec m 0); [contradiction | reflexivity]. }
    assert (Tp : truthy (Num p) = true).
    { simpl. destruct (Z.eqb_spec p 0); [contradiction | reflexivity]. }
    unfold or_else. rewrite Tm, Tp.
    destruct (parseInt_String m) as [Pm Trm].
    destruct (parseInt_String p) as [Pp Trp].
    rewrite Trm, Trp, Pm, Pp. simpl. now rewrite String.eqb_refl, !Z.eqb_refl. }
  assert (Hpc' : productsChanged ctx = false).
  { now apply productsChanged_false. }
  unfold reconcile_tier, shouldCreateDiscount, shouldUpdateExistingDiscount.
  now rewrite Gi, Hne, Hc, Hpc'.
Qed.

(** X11. A stored tier of [0] per cent is always taken as changed: the
    update sends a remote update for it whatever is submitted under its
    [discount_id], also when nothing has changed. *)
Theorem zero_percent_tier_is_always_updated
  (previousProductIds productIds : list string) (previousTiers : list value)
  (previous tier : value) (id : string) (acc : list value) (admin : remote)
  (log : list call) :
  NoDup (discount_ids previousTiers) -> In previous previousTiers ->
  get "discount_id" previous = Str id -> id <> "" ->
  get "percent_off" previous = Num 0 ->
  get "discount_id" tier = Str id -> productIds <> [] ->
  tierChanged (tier_context_of previousProductIds productIds previousTiers)
    tier = true
  /\ snd (reconcile_tier
            (tier_context_of previousProductIds productIds previousTiers) acc
            tier admin log)
     = log ++ [DiscountAutomaticBasicUpdate (Str id)
                 (discountInputBase
                    (tier_context_of previousProductIds productIds
                       previousTiers) tier)].
Proof.
  intros Hnd Hin Ei Hid Ep Eti Hne.
  set (ctx := tier_context_of previousProductIds productIds previousTiers).
  assert (Hs : nonempty_string (Str id) = true).
  { simpl. destruct (String.eqb_spec id ""); [contradiction | reflexivity]. }
  assert (Hc : tierChanged ctx tier = true).
  { unfold tierChanged. rewrite Eti, Hs.
    unfold ctx at 1. cbn [tier_context_of previousTierByDiscountId].
    rewrite (previous_tier_kept previousTiers [] previous id Hnd Hin Ei Hid).
    rewrite Ep.
    change (parseInt (trim (String_ (or_else (Num 0) (Str ""))))) with NaN.
    cbn [strict_eq negb]. now rewrite !orb_true_r. }
  split; [exact Hc|].
  unfold reconcile_tier, shouldCreateDiscount, shouldUpdateExistingDiscount.
  rewrite Eti, Hs, Hc. cbn [negb andb orb].
  assert (Hl : (List.length (RulePage.productIds ctx) =? 0)%nat = false).
  { unfold ctx. cbn [tier_context_of RulePage.productIds].
    destruct productIds; [contradiction | reflexivity]. }
  rewrite Hl, bind_graphql.
  now destruct (0 <? List.length (userErrors _))%nat.
Qed.
End TierTexts.

(** ** The summaries of the products *)

Section Summaries.
Import RulePage.

Lemma map_get_strict_In (q : value) (m : list (value * value)) (v : value) :
  map_get strict_eq q m = Some v -> In (q, v) m.
Proof.
  induction m as [|[k' v'] m IH]; simpl; [discriminate|].
  destruct (strict_eq q k') eqn:E.
  - intros H. injection H as ->. apply strict_eq_eq in E. subst. now left.
  - intros H. right. now apply IH.
Qed.

Lemma map_set_strict_In (k v : value) (m : list (value * value))
  (entry : value * value) :
  In entry (map_set strict_eq k v m) -> entry = (k, v) \/ In entry m.
Proof.
  induction m as [|[k' v'] m IH]; simpl.
  - intros [<-|[]]. now left.
  - destruct (strict_eq k k'); simpl.
    + intros [<-|H]; auto.
    + intros [<-|H]; auto. destruct (IH H); auto.
Qed.

(** The [Map] of the summaries, built from the nodes of the answer. *)
Lemma summaries_by_id (nodes : list value) (m0 : list (value * value))
  (entry : value * value) :
  In entry
    (fold_left
       (fun m node =>
          map_set strict_eq (get "id" node)
            (Obj [("id", get "id" node);
                  ("title", or_else (get "title" node) (Str ""));
                  ("image",
                   or_else (get "url" (get "featuredImage" node)) (Str ""))])
            m)
       nodes m0) ->
  In entry m0
  \/ exists node,
      In node nodes /\
      entry = (get "id" node,
               Obj [("id", get "id" node);
                    ("title", or_else (get "title" node) (Str ""));
                    ("image",
                     or_else (get "url" (get "featuredImage" node)) (Str ""))]).
Proof.
  revert m0. induction nodes as [|node nodes IH]; intros m0 H; simpl in H;
    [now left|].
  destruct (IH _ H) as [Hm|[node' [Hin E]]].
  - apply map_set_strict_In in Hm. destruct Hm as [->|Hm]; [|now left].
    right. exists node. split; [now left | reflexivity].
  - right. exists node'. split; [now right | exact E].
Qed.

Lemma summaries_run (R : Type) (ids : list string) (admin : remote)
  (log : list call) :
  exists products,
    fetchProductSummaries (R := R) ids admin log
    = (Continue products,
       log ++ match ids with [] => [] | _ => [ProductNodesQuery ids] end) /\
    map (get "id") products = map Str ids.
Proof.
  unfold fetchProductSummaries. destruct ids as [|id0 ids].
  - exists []. cbn. now rewrite app_nil_r.
  - cbn [List.length Nat.eqb]. rewrite bind_graphql.
    eexists. split; [reflexivity|].
    rewrite map_map. apply map_ext. intros id.
    destruct (map_get strict_eq (Str id) _) as [product|] eqn:E;
      [|reflexivity].
    apply map_get_strict_In in E. apply summaries_by_id in E.
    destruct E as [[]|[node [_ E]]]. injection E as E1 ->.
    simpl. now rewrite <- E1.
Qed.

(** X12. [fetchProductSummaries] answers with one summary for each id
    asked, in the order of the ids and carrying that id, after one query
    (none when no id is asked); an id the service gives no node for is
    summarized by itself, with an empty image. *)
Theorem fetchProductSummaries_one_per_id (R : Type) (ids : list string)
  (admin : remote) (log : list call) :
  exists products,
    fetchProductSummaries (R := R) ids admin log
    = (Continue products,
       log ++ match ids with [] => [] | _ => [ProductNodesQuery ids] end) /\
    map (get "id") products = map Str ids /\
    forall i id,
      nth_error ids i = Some id ->
      (forall node,
          In node (as_array (nodes (admin log (ProductNodesQuery ids)))) ->
          get "id" node <> Str id) ->
      nth_error products i
      = Some (Obj [("id", Str id); ("title", Str id); ("image", Str "")]).
Proof.
  unfold fetchProductSummaries. destruct ids as [|id0 ids].
  - exists []. cbn. rewrite app_nil_r. repeat split. intros [|i]; discriminate.
  - cbn [List.length Nat.eqb]. rewrite bind_graphql.
    set (all := id0 :: ids).
    set (json := admin log (ProductNodesQuery all)).
    set (productById := fold_left _ _ []).
    eexists. split; [reflexivity|]. split.
    + rewrite map_map. apply map_ext. intros id.
      destruct (map_get strict_eq (Str id) productById) as [product|] eqn:E;
        [|reflexivity].
      apply map_get_strict_In in E. apply summaries_by_id in E.
      destruct E as [[]|[node [_ E]]]. injection E as E1 ->.
      simpl. now rewrite <- E1.
    + intros i id Hi Hnone. rewrite nth_error_map, Hi. simpl.
      destruct (map_get strict_eq (Str id) productById) as [product|] eqn:E;
        [|reflexivity].
      exfalso. apply map_get_strict_In in E. apply summaries_by_id in E.
      destruct E as [[]|[node [Hin E]]]. injection E as E1 _.
      apply filter_In in Hin. destruct Hin as [Hin _].
      now apply (Hnone node Hin).
Qed.
End Summaries.

(** ** The editor of a rule *)

Section EditorProducts.
Import RulePage RuleEditor.

Lemma map_get_keys_None (m : list (value * value)) (ks : list string)
  (id : string) :
  map fst m = map Str ks -> ~ In id ks ->
  map_get strict_eq (Str id) m = None.
Proof.
  revert ks. induction m as [|[k v] m IH]; intros ks E Hn; [reflexivity|].
  destruct ks as [|k0 ks]; [discriminate|]. simpl in E.
  injection E as -> E. simpl.
  destruct (String.eqb_spec id k0) as [->|_]; [exfalso; apply Hn; now left|].
  apply (IH ks E). intros H. apply Hn. now right.
Qed.

Lemma map_get_keys_Some (m : list (value * value)) (ks : list string)
  (id : string) :
  map fst m = map Str ks -> In id ks ->
  exists v, map_get strict_eq (Str id) m = Some v.
Proof.
  revert ks. induction m as [|[k v] m IH]; intros ks E Hin.
  - destruct ks; [contradiction | discriminate].
  - destruct ks as [|k0 ks]; [discriminate|]. simpl in E.
    injection E as -> E. simpl.
    destruct (String.eqb_spec id k0) as [->|Hne]; [now exists v|].
    destruct Hin as [->|Hin]; [contradiction|]. now apply (IH ks).
Qed.

Lemma map_set_keys_new (m : list (value * value)) (ks : list string)
  (id : string) (v : value) :
  map fst m = map Str ks -> ~ In id ks ->
  map_set strict_eq (Str id) v m = m ++ [(Str id, v)].
Proof.
  revert ks. induction m as [|[k w] m IH]; intros ks E Hn; [reflexivity|].
  destruct ks as [|k0 ks]; [discriminate|]. simpl in E.
  injection E as -> E. simpl.
  destruct (String.eqb_spec id k0) as [->|_]; [exfalso; apply Hn; now left|].
  f_equal. apply (IH ks E). intros H. apply Hn. now right.
Qed.

(** The [reduce] of [normalizeProductsForEditor] keeps the first product of
    each id, in the order of the first occurrences. *)
Lemma keep_first_keys (ps : list value) (ids : list string)
  (m0 : list (value * value)) (ks0 : list string) :
  map (get "id") ps = map Str ids ->
  map fst m0 = map Str ks0 ->
  map (fun entry => get "id" (snd entry)) m0 = map fst m0 ->
  let m := fold_left keep_first ps m0 in
  map fst m = map Str (ks0 ++ unique_from ks0 ids)
  /\ map (fun entry => get "id" (snd entry)) m = map fst m
  /\ forall p, In p (map snd m) -> In p (map snd m0) \/ In p ps.
Proof.
  revert ids m0 ks0. induction ps as [|p ps IH]; intros ids m0 ks0 Ei Ek Ev.
  - destruct ids; [|discriminate]. simpl. rewrite app_nil_r. auto.
  - destruct ids as [|id ids]; [discriminate|]. simpl in Ei.
    injection Ei as Ep Ei. cbn zeta. cbn [fold_left unique_from].
    destruct (includes id ks0) eqn:Einc.
    + apply includes_In in Einc.
      assert (Hstep : keep_first m0 p = m0).
      { unfold keep_first. rewrite Ep.
        now destruct (map_get_keys_Some m0 ks0 id Ek Einc) as [v ->]. }
      rewrite Hstep.
      destruct (IH ids m0 ks0 Ei Ek Ev) as [H1 [H2 H3]].
      split; [exact H1|]. split; [exact H2|].
      intros q Hq. destruct (H3 q Hq); [now left | right; now right].
    + apply includes_false in Einc.
      assert (Hstep : keep_first m0 p = m0 ++ [(Str id, p)]).
      { unfold keep_first. rewrite Ep.
        rewrite (map_get_keys_None m0 ks0 id Ek Einc).
        apply (map_set_keys_new m0 ks0 id p Ek Einc). }
      rewrite Hstep.
      destruct (IH ids (m0 ++ [(Str id, p)]) (ks0 ++ [id]) Ei) as [H1 [H2 H3]].
      * rewrite !map_app, Ek. reflexivity.
      * rewrite !map_app, Ev. simpl. now rewrite Ep.
      * split; [|split; [exact H2|]].
        -- rewrite H1. f_equal. rewrite <- app_assoc. simpl. do 2 f_equal.
           apply unique_from_ext. intros x. rewrite in_app_iff. simpl. tauto.
        -- intros q Hq. destruct (H3 q Hq) as [H|H]; [|right; now right].
           rewrite map_app in H. apply in_app_or in H.
           destruct H as [H|[<-|[]]]; [now left | right; now left].
Qed.

Lemma normalizeProductForEditor_id (product : value) :
  get "id" (normalizeProductForEditor product)
  = Str (normalizeProductId product).
Proof.
  unfold normalizeProductForEditor.
  assert (E : normalizeProductId
                match product with Undefined => Obj [] | _ => product end
              = normalizeProductId product) by now destruct product.
  rewrite E. destruct (nonempty (normalizeProductId product)) eqn:En; simpl.
  - now destruct (is_string _).
  - unfold nonempty in En. apply negb_false_iff, String.eqb_eq in En.
    now rewrite En.
Qed.

Lemma editor_products_ids (items : list value) :
  map (get "id")
    (filter (fun product => has_product_prefix (get "id" product))
       (map normalizeProductForEditor items))
  = map Str (filter nonempty (map normalizeProductId items)).
Proof.
  induction items as [|x items IH]; [reflexivity|].
  cbn [map filter]. rewrite normalizeProductForEditor_id.
  cbn [has_product_prefix].
  destruct (normalizeProductId_valid x) as [E|Hv].
  - rewrite E. cbn. exact IH.
  - unfold valid_id in Hv. rewrite Hv.
    rewrite (valid_id_nonempty _ Hv). cbn [map].
    now rewrite normalizeProductForEditor_id, IH.
Qed.

Lemma editor_products_map (products : value) :
  exists m,
    normalizeProductsForEditor products = map snd m /\
    map fst m = map Str (normalizeProductIds products) /\
    map (fun entry => get "id" (snd entry)) m = map fst m /\
    forall p, In p (map snd m) ->
              exists x, In x (as_array products)
                        /\ p = normalizeProductForEditor x.
Proof.
  destruct products as [| | | | | |items|];
    try (exists []; repeat split; intros p []).
  destruct (keep_first_keys
              (filter (fun product => has_product_prefix (get "id" product))
                 (map normalizeProductForEditor items))
              (filter nonempty (map normalizeProductId items)) [] []
              (editor_products_ids items) eq_refl eq_refl) as [H1 [H2 H3]].
  eexists. split; [reflexivity|]. split; [exact H1|]. split; [exact H2|].
  intros p Hp. destruct (H3 p Hp) as [[]|H].
  apply filter_In in H. destruct H as [H _]. apply in_map_iff in H.
  destruct H as [x [<- Hx]]. now exists x.
Qed.

(** X13. The products of the editor carry exactly the normalized ids of
    the products given, each once and in the same order. *)
Theorem normalizeProductsForEditor_ids (products : value) :
  map (get "id") (normalizeProductsForEditor products)
  = map Str (normalizeProductIds products).
Proof.
  destruct (editor_products_map products) as [m [-> [H1 [H2 _]]]].
  now rewrite map_map, H2.
Qed.
End EditorProducts.

Section EditorState.
Import RulePage RuleEditor.

Lemma or_else_twice (a b : value) : or_else (or_else a b) b = or_else a b.
Proof.
  unfold or_else. destruct (truthy a) eqn:E; [now rewrite E|].
  now destruct (truthy b).
Qed.

Lemma status_of_status (source : value) (fields : list (string * value)) :
  lookup "status" fields = status_of source ->
  status_of (Obj fields) = status_of source.
Proof.
  intros E. unfold status_of at 1. cbn [get]. rewrite E.
  unfold status_of. now destruct (strict_eq (get "status" source) _).
Qed.

Lemma clone_objects (l : list value) :
  Forall (fun x => exists fields, x = Obj fields) l ->
  map (fun x => Obj (spread (or_else x (Obj [])))) l = l.
Proof.
  intros H. rewrite <- (map_id l) at 2. apply map_ext_in. intros x Hx.
  rewrite Forall_forall in H. destruct (H x Hx) as [fields ->]. reflexivity.
Qed.

Lemma traverse_Forall2 {A B : Type} (f : A -> option B) (l : list A)
  (l' : list B) :
  traverse f l = Some l' -> Forall2 (fun x y => f x = Some y) l l'.
Proof.
  revert l'. induction l as [|x l IH]; intros l' H; simpl in H.
  - injection H as <-. constructor.
  - destruct (f x) as [y|] eqn:E; [|discriminate].
    destruct (traverse f l) as [ys|]; [|discriminate].
    injection H as <-. constructor; auto.
Qed.

Lemma traverse_fixed {A : Type} (f : A -> option A) (l : list A) :
  Forall (fun x => f x = Some x) l -> traverse f l = Some l.
Proof.
  induction 1 as [|x l Hx _ IH]; simpl; [reflexivity|]. now rewrite Hx, IH.
Qed.

Lemma normalizeTierForEditor_shown (tier shown : value) :
  normalizeTierForEditor tier = Some shown ->
  (exists fields, shown = Obj fields)
  /\ normalizeTierForEditor shown = Some shown.
Proof.
  unfold normalizeTierForEditor at 1. intros H.
  assert (E : shown
              = let tier := match tier with Undefined => Obj [] | _ => tier end in
                Obj [("title", string_or_empty (get "title" tier));
                     ("min_quantity", field_text (get "min_quantity" tier));
                     ("percent_off", field_text (get "percent_off" tier));
                     ("discount_id", string_or_empty (get "discount_id" tier))]).
  { destruct tier; try discriminate; now injection H as <-. }
  clear H. cbv zeta in E. subst shown. split; [eexists; reflexivity|].
  set (tier' := match tier with Undefined => Obj [] | _ => tier end).
  assert (Hs : forall v, exists s, string_or_empty v = Str s).
  { intros v. unfold string_or_empty. destruct v; simpl; eauto. }
  assert (Hf : forall v, exists s, field_text v = Str s).
  { intros v. unfold field_text. destruct v; eauto. }
  destruct (Hs (get "title" tier')) as [t Et].
  destruct (Hs (get "discount_id" tier')) as [i Ei].
  destruct (Hf (get "min_quantity" tier')) as [m Em].
  destruct (Hf (get "percent_off" tier')) as [p Ep].
  rewrite Et, Ei, Em, Ep. reflexivity.
Qed.

Lemma image_truthy_or_empty (product : value) :
  truthy (getProductImageUrl product) = true
  \/ getProductImageUrl product = Str "".
Proof.
  unfold getProductImageUrl, or_else.
  repeat match goal with
         | |- context [if truthy ?v then _ else _] =>
             destruct (truthy v) eqn:?; [now left|]
         end.
  now right.
Qed.

Lemma image_of_summary (id title image : value) :
  truthy image = true \/ image = Str "" ->
  getProductImageUrl (Obj [("id", id); ("title", title); ("image", image)])
  = image.
Proof.
  intros [H| ->]; unfold getProductImageUrl, or_else; cbn [get lookup String.eqb Ascii.eqb Bool.eqb];
    [now rewrite H | reflexivity].
Qed.

Lemma normalizeProductForEditor_twice (product : value) :
  normalizeProductForEditor (normalizeProductForEditor product)
  = normalizeProductForEditor product.
Proof.
  pose proof (normalizeProductForEditor_id product) as Hid.
  destruct (normalizeProductId_valid product) as [E|Hv].
  - assert (Eb : normalizeProductForEditor product
                 = Obj [("id", Str ""); ("title", Str ""); ("image", Str "")]).
    { unfold normalizeProductForEditor.
      assert (E' : normalizeProductId
                     match product with Undefined => Obj [] | _ => product end
                   = "") by (destruct product; auto).
      now rewrite E'. }
    rewrite Eb. reflexivity.
  - set (id := normalizeProductId product) in *.
    assert (Hn : nonempty id = true) by now apply valid_id_nonempty.
    assert (Es : exists title image,
               normalizeProductForEditor product
               = Obj [("id", Str id); ("title", title); ("image", image)]
               /\ is_string title = true
               /\ (truthy image = true \/ image = Str "")).
    { unfold normalizeProductForEditor.
      assert (E' : normalizeProductId
                     match product with Undefined => Obj [] | _ => product end
                   = id) by (destruct product; auto).
      rewrite E', Hn. cbn [negb].
      destruct (is_string _) eqn:Estr.
      - exists (Str ""), (Str ""). auto.
      - do 2 eexists. split; [reflexivity|]. split.
        + now destruct (is_string (get "title" _)) eqn:Et.
        + apply image_truthy_or_empty. }
    destruct Es as [title [image [-> [Ht Hi]]]].
    unfold normalizeProductForEditor at 1.
    assert (En : normalizeProductId
                   (Obj [("id", Str id); ("title", title); ("image", image)])
                 = id).
    { unfold normalizeProductId. cbn [get lookup String.eqb Ascii.eqb Bool.eqb].
      unfold valid_id in Hv. now rewrite Hv. }
    cbv zeta. rewrite En, Hn. cbn [negb is_string].
    cbn [get lookup String.eqb Ascii.eqb Bool.eqb]. rewrite Ht.
    now rewrite image_of_summary.
Qed.

Lemma keep_first_fresh (ps : list value) (ids : list string)
  (m0 : list (value * value)) (ks0 : list string) :
  map (get "id") ps = map Str ids ->
  map fst m0 = map Str ks0 ->
  NoDup (ks0 ++ ids) ->
  fold_left keep_first ps m0 = m0 ++ map (fun p => (get "id" p, p)) ps.
Proof.
  revert ids m0 ks0. induction ps as [|p ps IH]; intros ids m0 ks0 Ei Ek Hnd.
  - simpl. now rewrite app_nil_r.
  - destruct ids as [|id ids]; [discriminate|]. simpl in Ei.
    injection Ei as Ep Ei.
    assert (Hn : ~ In id ks0).
    { intros H. apply NoDup_remove_2 in Hnd. apply Hnd.
      apply in_or_app. now left. }
    cbn [fold_left]. unfold keep_first at 2. rewrite Ep.
    rewrite (map_get_keys_None m0 ks0 id Ek Hn).
    rewrite (map_set_keys_new m0 ks0 id p Ek Hn).
    rewrite (IH ids _ (ks0 ++ [id]) Ei).
    + rewrite <- app_assoc. simpl. now rewrite Ep.
    + rewrite !map_app, Ek. reflexivity.
    + rewrite <- app_assoc. exact Hnd.
Qed.

Lemma editor_products_fixed (products : value) :
  normalizeProductsForEditor (Arr (normalizeProductsForEditor products))
  = normalizeProductsForEditor products
  /\ Forall (fun p => exists fields, p = Obj fields)
       (normalizeProductsForEditor products).
Proof.
  destruct (editor_products_map products) as [m [E [H1 [H2 H3]]]].
  assert (Hids : map (get "id") (normalizeProductsForEditor products)
                 = map Str (normalizeProductIds products)).
  { rewrite E, map_map. now rewrite H2. }
  assert (Hfix : map normalizeProductForEditor
                   (normalizeProductsForEditor products)
                 = normalizeProductsForEditor products).
  { rewrite <- (map_id (normalizeProductsForEditor products)) at 2.
    apply map_ext_in. intros p Hp. rewrite E in Hp.
    destruct (H3 p Hp) as [x [_ ->]]. apply normalizeProductForEditor_twice. }
  split.
  - unfold normalizeProductsForEditor at 1. rewrite Hfix.
    assert (Hall : filter (fun product => has_product_prefix (get "id" product))
                     (normalizeProductsForEditor products)
                   = normalizeProductsForEditor products).
    { apply forallb_filter_id. apply forallb_forall. intros p Hp.
      assert (Hg : In (get "id" p)
                     (map (get "id") (normalizeProductsForEditor products)))
        by now apply in_map.
      rewrite Hids in Hg. apply in_map_iff in Hg. destruct Hg as [id [<- Hin]].
      pose proof (normalizeProductIds_valid products) as Hv.
      rewrite Forall_forall in Hv. apply (Hv id Hin). }
    rewrite Hall.
    rewrite (keep_first_fresh _ (normalizeProductIds products) [] [] Hids
               eq_refl (normalizeProductIds_NoDup products)).
    unfold map_values. simpl. rewrite map_map. simpl. apply map_id.
  - apply Forall_forall. intros p Hp. rewrite E in Hp.
    destruct (H3 p Hp) as [x [_ ->]]. unfold normalizeProductForEditor.
    destruct (negb _); [eexists; reflexivity|].
    destruct (is_string _); eexists; reflexivity.
Qed.

Lemma built_state (source state : value) :
  buildEditorState source = Some state ->
  exists tiers,
    state = Obj [("title", or_else (get "title" source) (Str ""));
                 ("status", status_of source);
                 ("tiers", Arr tiers);
                 ("products",
                  Arr (normalizeProductsForEditor (get "products" source)))]
    /\ Forall (fun t => (exists fields, t = Obj fields)
                        /\ normalizeTierForEditor t = Some t) tiers.
Proof.
  unfold buildEditorState. intros H.
  destruct (get "tiers" source) as [| | | | | |ts|] eqn:Et;
    try (injection H as <-; exists []; split; [reflexivity | constructor]).
  destruct (traverse normalizeTierForEditor ts) as [tiers|] eqn:E;
    [|discriminate].
  injection H as <-. exists tiers. split; [reflexivity|].
  apply traverse_Forall2 in E. clear Et.
  induction E as [|x y l l' Hxy _ IH]; constructor; auto.
  now apply normalizeTierForEditor_shown in Hxy.
Qed.

(** X14. A copy of a state of the editor built by [buildEditorState] is
    that state: restoring the committed state brings back what was
    shown. *)
Theorem cloneEditorState_of_built (source state : value) :
  buildEditorState source = Some state -> cloneEditorState state = state.
Proof.
  intros H. destruct (built_state source state H) as [tiers [-> Ht]].
  unfold cloneEditorState.
  cbn [get lookup String.eqb Ascii.eqb Bool.eqb].
  rewrite or_else_twice, (status_of_status source) by reflexivity.
  change (or_else (Arr tiers) (Arr [])) with (Arr tiers).
  change (or_else (Arr (normalizeProductsForEditor (get "products" source)))
            (Arr []))
    with (Arr (normalizeProductsForEditor (get "products" source))).
  unfold cloneTiers, cloneProducts.
  rewrite !clone_objects; [reflexivity | |].
  - apply editor_products_fixed.
  - eapply Forall_impl; [|exact Ht]. now intros t [Ho _].
Qed.

(** X15. Building the state of the editor from a state it has built
    changes nothing. *)
Theorem buildEditorState_idempotent (source state : value) :
  buildEditorState source = Some state -> buildEditorState state = Some state.
Proof.
  intros H. destruct (built_state source state H) as [tiers [-> Ht]].
  unfold buildEditorState.
  cbn [get lookup String.eqb Ascii.eqb Bool.eqb].
  rewrite traverse_fixed.
  - rewrite or_else_twice, (status_of_status source) by reflexivity.
    now rewrite (proj1 (editor_products_fixed (get "products" source))).
  - eapply Forall_impl; [|exact Ht]. now intros t [_ Hf].
Qed.
End EditorState.

Section EditorLists.
Import RulePage RuleEditor.

Lemma remove_nth_length {A : Type} (i : nat) (l : list A) :
  (i < List.length l)%nat ->
  List.length (remove_nth i l) = (List.length l - 1)%nat.
Proof.
  revert i. induction l as [|x l IH]; intros i H; simpl in *; [lia|].
  destruct i as [|i]; simpl; [lia|]. rewrite IH by lia. lia.
Qed.

Lemma remove_nth_nth {A : Type} (i j : nat) (l : list A) :
  nth_error (remove_nth i l) j
  = nth_error l (if (j <? i)%nat then j else S j).
Proof.
  revert i j. induction l as [|x l IH]; intros i j.
  - assert (H : forall n, nth_error (@nil A) n = None) by (now intros []).
    destruct i; simpl; now rewrite !H.
  - destruct i as [|i]; [reflexivity|].
    destruct j as [|j]; [reflexivity|]. simpl. rewrite IH.
    change (S j <? S i)%nat with (j <? i)%nat.
    now destruct (j <? i)%nat.
Qed.

(** X16. Removing a tier in the editor never leaves the rule without
    tier: the only tier stays, and of two or more the one at the index is
    dropped and the others keep their order. *)
Theorem removeTier_keeps_a_tier (index : nat) (current : list value) :
  current <> [] ->
  removeTier index current <> [] /\
  ((1 < List.length current)%nat -> (index < List.length current)%nat ->
   List.length (removeTier index current) = (List.length current - 1)%nat /\
   forall j,
     nth_error (removeTier index current) j
     = nth_error current (if (j <? index)%nat then j else S j)).
Proof.
  intros Hne. unfold removeTier.
  destruct (List.length current <=? 1)%nat eqn:E.
  - split; [exact Hne|]. apply Nat.leb_le in E. lia.
  - apply Nat.leb_gt in E. split.
    + intros H. apply (f_equal (@List.length value)) in H. simpl in H.
      destruct (Nat.lt_ge_cases index (List.length current)) as [Hi|Hi].
      * rewrite remove_nth_length in H by exact Hi. lia.
      * assert (Hid : forall (l : list value) i,
                   (List.length l <= i)%nat -> remove_nth i l = l).
        { induction l as [|x l IH]; intros i Hl; [now destruct i|].
          destruct i; simpl in *; [lia|]. f_equal. apply IH. lia. }
        rewrite Hid in H by exact Hi. lia.
    + intros _ Hi. split; [now apply remove_nth_length|].
      intros j. apply remove_nth_nth.
Qed.

Lemma others_length (l : list value) (ids : list string) (productId : value) :
  map (get "id") l = map Str ids -> NoDup ids ->
  (List.length l - 1
   <= List.length
        (filter (fun product => negb (strict_eq (get "id" product) productId))
           l))%nat.
Proof.
  revert ids. induction l as [|x l IH]; intros ids E Hnd; [simpl; lia|].
  destruct ids as [|id ids]; [discriminate|]. simpl in E. injection E as Ex E.
  inversion Hnd as [|? ? Hn Hnd']; subst. cbn [filter].
  destruct (strict_eq (get "id" x) productId) eqn:Es; cbn [negb].
  - apply strict_eq_eq in Es.
    assert (Hall : filter
                     (fun product =>
                        negb (strict_eq (get "id" product) productId)) l
                   = l).
    { apply forallb_filter_id. apply forallb_forall. intros y Hy.
      destruct (strict_eq (get "id" y) productId) eqn:Ey; [|reflexivity].
      apply strict_eq_eq in Ey. exfalso. apply Hn.
      assert (Hg : In (get "id" y) (map (get "id") l)) by now apply in_map.
      rewrite E, Ey, <- Es, Ex in Hg. apply in_map_iff in Hg.
      destruct Hg as [k [Ek Hk]]. now injection Ek as ->. }
    rewrite Hall. simpl. lia.
  - specialize (IH ids E Hnd'). simpl. lia.
Qed.

(** X17. Removing a product in the editor, where no two products have the
    same id, never leaves the rule without product; of two or more, the
    product of the id is dropped and the others stay. *)
Theorem removeProduct_keeps_a_product (productId : value)
  (current : list value) (ids : list string) :
  map (get "id") current = map Str ids -> NoDup ids -> current <> [] ->
  removeProduct productId current <> [] /\
  ((1 < List.length current)%nat ->
   forall product,
     In product (removeProduct productId current) <->
     In product current /\ get "id" product <> productId).
Proof.
  intros E Hnd Hne. unfold removeProduct.
  destruct (List.length current <=? 1)%nat eqn:El.
  - split; [exact Hne|]. apply Nat.leb_le in El. lia.
  - apply Nat.leb_gt in El. split.
    + intros H. pose proof (others_length current ids productId E Hnd) as Hl.
      rewrite H in Hl. simpl in Hl. lia.
    + intros _ product. rewrite filter_In. split.
      * intros [Hin Hs]. split; [exact Hin|]. intros Eq.
        rewrite Eq in Hs.
        assert (Hg : In (get "id" product) (map (get "id") current))
          by now apply in_map.
        rewrite E, Eq in Hg. apply in_map_iff in Hg. destruct Hg as [k [<- _]].
        rewrite strict_eq_Str in Hs. discriminate.
      * intros [Hin Hd]. split; [exact Hin|].
        destruct (strict_eq (get "id" product) productId) eqn:Es;
          [|reflexivity].
        now apply strict_eq_eq in Es.
Qed.

Lemma set_fresh (ps : list value) (ids : list string)
  (m0 : list (value * value)) (ks0 : list string) :
  map (get "id") ps = map Str ids ->
  map fst m0 = map Str ks0 ->
  NoDup (ks0 ++ ids) ->
  fold_left (fun m product => map_set strict_eq (get "id" product) product m)
    ps m0
  = m0 ++ map (fun p => (get "id" p, p)) ps.
Proof.
  revert ids m0 ks0. induction ps as [|p ps IH]; intros ids m0 ks0 Ei Ek Hnd.
  - simpl. now rewrite app_nil_r.
  - destruct ids as [|id ids]; [discriminate|]. simpl in Ei.
    injection Ei as Ep Ei.
    assert (Hn : ~ In id ks0).
    { intros H. apply NoDup_remove_2 in Hnd. apply Hnd.
      apply in_or_app. now left. }
    cbn [fold_left]. rewrite Ep.
    rewrite (map_set_keys_new m0 ks0 id p Ek Hn).
    rewrite (IH ids _ (ks0 ++ [id]) Ei).
    + rewrite <- app_assoc. simpl. now rewrite Ep.
    + rewrite !map_app, Ek. reflexivity.
    + rewrite <- app_assoc. exact Hnd.
Qed.

Lemma existsb_strict (id : string) (ids : list string) :
  existsb (strict_eq (Str id)) (map Str ids) = includes id ids.
Proof.
  unfold includes. induction ids as [|k ids IH]; simpl; [reflexivity|].
  now rewrite IH.
Qed.

Lemma merge_new (ids : list string) (selected : list value)
  (sel : list string) (m0 : list (value * value)) (ks0 : list string) :
  map (get "id") selected = map Str sel ->
  map fst m0 = map Str ks0 ->
  NoDup sel ->
  (forall x, In x sel -> In x ks0 -> In x ids) ->
  fold_left
    (fun m product =>
       if existsb (strict_eq (get "id" product)) (map Str ids) then m
       else map_set strict_eq (get "id" product) product m)
    selected m0
  = m0 ++ map (fun p => (get "id" p, p))
            (filter
               (fun product =>
                  negb (existsb (strict_eq (get "id" product)) (map Str ids)))
               selected).
Proof.
  revert sel m0 ks0.
  induction selected as [|p selected IH]; intros sel m0 ks0 Es Ek Hnd Hdis.
  - simpl. now rewrite app_nil_r.
  - destruct sel as [|id sel]; [discriminate|]. simpl in Es.
    injection Es as Ep Es. inversion Hnd as [|? ? Hn Hnd']; subst.
    cbn [fold_left filter]. rewrite Ep, existsb_strict.
    destruct (includes id ids) eqn:Einc; cbn [negb].
    + apply (IH sel m0 ks0 Es Ek Hnd'). intros x Hx. apply Hdis. now right.
    + apply includes_false in Einc.
      assert (Hk : ~ In id ks0).
      { intros H. apply Einc. apply Hdis; [now left | exact H]. }
      rewrite (map_set_keys_new m0 ks0 id p Ek Hk).
      rewrite (IH sel _ (ks0 ++ [id]) Es).
      * rewrite <- app_assoc. simpl. now rewrite Ep.
      * rewrite !map_app, Ek. reflexivity.
      * exact Hnd'.
      * intros x Hx Hin. apply in_app_or in Hin.
        destruct Hin as [Hin|[<-|[]]]; [|contradiction].
        apply Hdis; [now right | exact Hin].
Qed.

(** X18. Adding products in the editor, where the products shown and the
    products selected have each no id twice, keeps the products shown as
    they are and in their order, and appends the selected ones whose id
    is not shown yet. *)
Theorem addProducts_appends_the_new (selectedProducts current : list value)
  (ids sel : list string) :
  map (get "id") current = map Str ids -> NoDup ids ->
  map (get "id") selectedProducts = map Str sel -> NoDup sel ->
  addProducts selectedProducts current
  = current
    ++ filter
         (fun product =>
            negb (existsb (strict_eq (get "id" product))
                    (map (get "id") current)))
         selectedProducts.
Proof.
  intros Ec Hnd Es Hns. unfold addProducts.
  rewrite (set_fresh current ids [] [] Ec eq_refl Hnd). simpl app.
  rewrite Ec.
  rewrite (merge_new ids selectedProducts sel _ ids Es).
  - unfold map_values. rewrite map_app, !map_map. simpl. rewrite !map_id.
    set (added := filter _ selectedProducts).
    destruct (List.length (current ++ added) =? List.length current)%nat
      eqn:El; [|reflexivity].
    apply Nat.eqb_eq in El. rewrite length_app in El.
    destruct added; [now rewrite app_nil_r | simpl in El; lia].
  - rewrite map_map. simpl. exact Ec.
  - exact Hns.
  - auto.
Qed.
End EditorLists.

(** ** The loaders *)

Section Loaders.
Import RulePage RuleEditor Shapes.
Variable JSON_parse : string -> option value.

Lemma find_by_index {A : Type} (p : A -> option bool) (l : list A) (d : A) :
  find_throwing p l
  = match findIndex_throwing p l with
    | None => None
    | Some None => Some None
    | Some (Some i) => Some (Some (nth i l d))
    end.
Proof.
  induction l as [|x l IH]; simpl; [reflexivity|].
  destruct (p x) as [[|]|]; try reflexivity.
  rewrite IH. now destruct (findIndex_throwing p l) as [[i|]|].
Qed.

Lemma truthy_not_null (v : value) : truthy v = true -> v <> Null.
Proof. now intros H ->. Qed.

(** X19. The loader of the rule page shows the rule that the actions of
    the page act on, the first one whose handle is the handle of the
    page, with one summary for each of its products; it only reads: a shop
    query, and one query for the summaries. Without such a rule, or when
    the entry found is empty, it answers that the rule is not found. *)
Theorem loader_shows_the_rule_of_the_actions (params_tableHandle : value)
  (admin : remote) :
  loader_claim JSON_parse params_tableHandle admin.
Proof.
  unfold loader_claim, loader, run, loader_body. cbv zeta.
  rewrite bind_graphql. cbn [app].
  fold (current_discounts JSON_parse (admin [] ShopQuery)).
  set (discounts := current_discounts JSON_parse (admin [] ShopQuery)).
  set (tableHandle := or_else params_tableHandle (Str "")).
  rewrite (find_by_index _ discounts Undefined).
  destruct (findIndex_throwing (handle_matches tableHandle) discounts)
    as [[ruleIndex|]|]; cbn [lift].
  - rewrite bind_ret. cbv beta iota.
    set (rule := nth ruleIndex discounts Undefined).
    destruct (truthy rule) eqn:Et; cbn [negb]; [|reflexivity].
    destruct (getRuleProductIds_not_null rule (truthy_not_null _ Et))
      as [ids Eids].
    rewrite Eids. cbn [lift]. rewrite bind_ret.
    destruct (summaries_run value ids admin [ShopQuery])
      as [products [Erun Eid]].
    exists ids, products. split; [reflexivity|]. split; [exact Eid|].
    rewrite (bind_Continue _ _ _ _ _ _ Erun). reflexivity.
  - rewrite bind_ret. reflexivity.
  - reflexivity.
Qed.

Lemma row_of_matches (tableHandle discount row : value) :
  IndexList.row_of discount = Some row ->
  exists b, handle_matches tableHandle discount = Some b.
Proof.
  unfold IndexList.row_of, handle_matches, or_else. intros H.
  destruct discount as [| | | | | | |fields]; try discriminate;
    cbn [get truthy] in *; eauto.
  destruct (truthy (lookup "title" fields)) eqn:Et; [|eauto].
  destruct (lookup "title" fields); try discriminate; eauto.
Qed.

Lemma first_match {A : Type} (p : A -> option bool) (l : list A) (i : nat)
  (x : A) :
  Forall (fun y => exists b, p y = Some b) l ->
  nth_error l i = Some x -> p x = Some true ->
  exists j first,
    (j <= i)%nat /\ findIndex_throwing p l = Some (Some j) /\
    nth_error l j = Some first /\ p first = Some true.
Proof.
  revert i. induction l as [|y l IH]; intros i Hall Hi Hx;
    [destruct i; discriminate|].
  inversion Hall as [|? ? [b Hb] Hall']; subst. simpl. rewrite Hb.
  destruct b.
  - exists 0%nat, y. repeat split; auto. lia.
  - destruct i as [|i]; simpl in Hi.
    + injection Hi as ->. congruence.
    + destruct (IH i Hall' Hi Hx) as [j [first [Hj [Hf [Hn Hp]]]]].
      exists (S j), first. rewrite Hf. repeat split; auto. lia.
Qed.

(** X20. The index page lists one row for each rule, in order. The link
    of a rule with a title opens, on the rule page, the first rule that
    has the handle of that title. The link of a rule without title is
    "untitled", which does not open that rule. *)
Theorem index_rows_and_their_links (admin : remote) (rows : list value)
  (log : list call) :
  IndexList.loader JSON_parse admin = (Returned rows, log) ->
  log = [ShopQuery]
  /\ rows_claim (current_discounts JSON_parse (admin [] ShopQuery)) rows.
Proof.
  unfold IndexList.loader, run, IndexList.loader_body.
  rewrite bind_graphql. cbn [app].
  fold (current_discounts JSON_parse (admin [] ShopQuery)).
  set (discounts := current_discounts JSON_parse (admin [] ShopQuery)).
  destruct (traverse IndexList.row_of discounts) as [rows'|] eqn:E;
    cbn [lift ret throw]; [|discriminate].
  intros H. injection H as <- <-. split; [reflexivity|].
  apply traverse_Forall2 in E. unfold rows_claim. split.
  - symmetry. now apply Forall2_length in E.
  - assert (Hall : Forall (fun y => forall h, exists b,
                               handle_matches h y = Some b) discounts).
    { clear -E. induction E as [|d row l l' Hd _ IH]; constructor; auto.
      intros h. now apply (row_of_matches h d row). }
    intros i rule row Hr Hrow.
    assert (Hrule : IndexList.row_of rule = Some row).
    { clear -E Hr Hrow. revert i Hr Hrow.
      induction E as [|d r l l' Hd _ IH]; intros [|i] Hr Hrow;
        try discriminate; simpl in *.
      - now injection Hr as <-; injection Hrow as <-.
      - now apply (IH i). }
    split.
    + intros title Et Hne.
      assert (Hor : forall b, or_else (get "title" rule) b = Str title).
      { intros b. unfold or_else. rewrite Et. simpl.
        destruct (String.eqb_spec title ""); [contradiction | reflexivity]. }
      split.
      * unfold IndexList.row_of in Hrule. rewrite !Hor in Hrule.
        destruct rule; try discriminate;
          destruct (or_else (get "tiers" _) (Arr [])); try discriminate;
          now injection Hrule as <-.
      * apply (first_match _ discounts i rule).
        -- eapply Forall_impl; [|exact Hall]. intros y Hy. apply Hy.
        -- exact Hr.
        -- unfold handle_matches. rewrite Hor. simpl.
           now rewrite String.eqb_refl.
    + intros Hf.
      assert (Hor : forall b, or_else (get "title" rule) b = b).
      { intros b. unfold or_else. now rewrite Hf. }
      unfold IndexList.row_of in Hrule. rewrite !Hor in Hrule.
      unfold handle_matches. rewrite Hor.
      destruct rule; try discriminate;
        destruct (or_else (get "tiers" _) (Arr [])); try discriminate;
        injection Hrule as <-; repeat split.
Qed.
End Loaders.

(** ** Handles that are taken *)

Section TakenHandles.
Import RulePage.

Lemma findIndex_throwing_app {A : Type} (p : A -> option bool) (l l' : list A)
  (i : nat) :
  findIndex_throwing p l = Some (Some i) ->
  findIndex_throwing p (l ++ l') = Some (Some i).
Proof.
  revert i. induction l as [|x l IH]; intros i H; simpl in *; [discriminate|].
  destruct (p x) as [[|]|]; try discriminate; [exact H|].
  destruct (findIndex_throwing p l) as [[j|]|]; try discriminate.
  now rewrite (IH j eq_refl).
Qed.

(** X21. The index page finds a rule by its exact title, the rule page by
    the handle of the title. A rule added under a new title whose handle
    another rule already has is appended to the document, and the rule
    page of that handle keeps opening the older rule: the new rule cannot
    be opened, updated or deleted there. *)
Theorem rule_added_under_a_taken_handle (discounts : list value)
  (title : string) (normalizedProductIds : list string) (tier : value)
  (i : nat) :
  findIndex (fun discount => strict_eq (get "title" discount) (Str title))
    discounts = None ->
  findIndex_throwing (handle_matches (Str (toKebabCase title))) discounts
  = Some (Some i) ->
  let next :=
    IndexPage.add_tier discounts
      (findIndex (fun discount => strict_eq (get "title" discount) (Str title))
         discounts)
      title normalizedProductIds tier in
  (exists added,
      nth_error next (List.length discounts) = Some added /\
      get "title" added = Str title /\
      get "tiers" added = Arr [tier] /\
      handle_matches (Str (toKebabCase title)) added = Some true) /\
  (i < List.length discounts)%nat /\
  findIndex_throwing (handle_matches (Str (toKebabCase title))) next
  = Some (Some i).
Proof.
  intros Hnew Hold. cbv zeta. rewrite Hnew. unfold IndexPage.add_tier.
  split; [|split].
  - exists (Obj [("title", Str title);
                 ("products", Arr (map Str normalizedProductIds));
                 ("status", Str "active");
                 ("tiers", Arr [tier])]).
    split; [|split; [reflexivity|split; [reflexivity|]]].
    + rewrite nth_error_app2, Nat.sub_diag by lia. reflexivity.
    + unfold handle_matches, or_else.
      cbn [get lookup String.eqb Ascii.eqb Bool.eqb truthy].
      destruct (negb (title =? "")%string) eqn:E.
      * simpl. now rewrite String.eqb_refl.
      * apply negb_false_iff, String.eqb_eq in E. subst title. reflexivity.
  - exact (findIndex_throwing_Some _ _ _ Hold).
  - now apply findIndex_throwing_app.
Qed.
End TakenHandles.

(** ** The metafield set up after authentication *)

Section Bootstrap.
Import ShopifyServer.

(** X22. After authentication the configuration is written at most once,
    as the empty document on the shop, and only when the shop query gave
    the id of the shop and no id of a metafield: a configuration that
    exists is never overwritten. Nothing is thrown to the caller. *)
Theorem bootstrap_never_overwrites (admin : ShopifyServer.remote) :
  let ran := ensureQuantityBreaksMetafield admin in
  fst (fst ran) = Done /\
  (snd (fst ran) = [SetMetafieldGetShop]
   \/ exists shopJson,
       admin [] SetMetafieldGetShop = Some shopJson /\
       truthy (ShopifyServer.shop_id shopJson) = true /\
       truthy (shop_metafield_id shopJson) = false /\
       snd (fst ran)
       = [SetMetafieldGetShop;
          SetMetafield [{| ownerId := ShopifyServer.shop_id shopJson;
                           namespace := "quantity_breaks";
                           key := "discounts";
                           type := "json";
                           mvalue := ConfigJson [] |}]]) /\
  (forall shopJson,
      admin [] SetMetafieldGetShop = Some shopJson ->
      truthy (shop_metafield_id shopJson) = true ->
      snd (fst ran) = [SetMetafieldGetShop]).
Proof.
  cbv zeta. unfold ensureQuantityBreaksMetafield, bootstrap.
  destruct (admin [] SetMetafieldGetShop) as [shopJson|] eqn:Eq.
  - destruct (truthy (ShopifyServer.shop_id shopJson)) eqn:Es;
      destruct (truthy (shop_metafield_id shopJson)) eqn:Em; cbn [negb orb].
    + repeat split; auto.
    + destruct (admin [SetMetafieldGetShop] _) as [setJson|] eqn:Ew.
      * destruct (0 <? List.length (ShopifyServer.userErrors setJson))%nat;
          (split; [reflexivity|]);
          (split; [right; exists shopJson; auto|]);
          intros s [= <-] Hm; congruence.
      * split; [reflexivity|]. split; [right; exists shopJson; auto|].
        intros s [= <-] Hm. congruence.
    + repeat split; auto.
    + repeat split; auto.
  - split; [reflexivity|]. split; [now left|]. discriminate.
Qed.
End Bootstrap.

(** ** A rule after an update *)

Section UpdatedRule.
Import RulePage.
Variable JSON_parse : string -> option value.

(** X23. An update writes the title, the status, the products and the
    tiers of the rule and keeps every other field the stored rule has. *)
Theorem updated_rule_keeps_other_fields (fields : list (string * value))
  (nextTitle nextStatus : string) (productIds : list string)
  (nextTiers : list value) :
  let rule' := updated_rule (Obj fields) nextTitle nextStatus productIds
                 nextTiers in
  get "title" rule' = Str nextTitle /\
  get "status" rule' = Str nextStatus /\
  get "products" rule' = Arr (map Str productIds) /\
  get "tiers" rule' = Arr nextTiers /\
  forall k,
    ~ In k ["title"; "status"; "products"; "tiers"] ->
    get k rule' = get k (Obj fields).
Proof.
  cbv zeta. unfold updated_rule. cbn [get spread].
  repeat split.
  - rewrite !lookup_assign_other by discriminate. apply lookup_assign_same.
  - rewrite !lookup_assign_other by discriminate. apply lookup_assign_same.
  - rewrite !lookup_assign_other by discriminate. apply lookup_assign_same.
  - apply lookup_assign_same.
  - intros k Hk. simpl in Hk.
    rewrite !lookup_assign_other; [reflexivity|..]; intros ->; tauto.
Qed.

(** X24. When no rule has the handle of the page, the actions of the rule
    page change nothing: they make no call but the shop query, and the
    update and the deletion that get to it answer "Rule not found.". *)
Theorem unknown_handle_changes_nothing (formData : form)
  (params_tableHandle : value) (admin : remote) :
  findIndex_throwing (handle_matches (or_else params_tableHandle (Str "")))
    (current_discounts JSON_parse (admin [] ShopQuery))
  = Some None ->
  exists at_ errors log,
    action JSON_parse formData params_tableHandle admin
    = (Returned (Failed at_ errors), log) /\
    (log = []
     \/ (log = [ShopQuery] /\ at_ = AtRuleNotFound
         /\ errors = ["Rule not found."])).
Proof.
  intros Hfind. unfold action, action_body. rewrite run_completion.
  destruct (negb (includes _ ["update-rule-settings"; "delete-rule"])).
  - do 3 eexists. split; [reflexivity | now left].
  - cbv zeta. destruct (_ =? "delete-rule")%string.
    + rewrite (delete_rule_unfold JSON_parse). cbv zeta. rewrite Hfind.
      do 3 eexists. split; [reflexivity | right; auto].
    + destruct (update_rule_settings_cases JSON_parse formData
                  (or_else params_tableHandle (Str "")))
        as [[at_ [message [E _]]]|[_ [_ [_ [_ [_ E]]]]]]; rewrite E.
      * do 3 eexists. split; [reflexivity | now left].
      * rewrite (reconcile_rule_unfold JSON_parse). cbv zeta. rewrite Hfind.
        do 3 eexists. split; [reflexivity | right; auto].
Qed.
End UpdatedRule.

(** ** The calls of a successful update *)

Section UpdateCalls.
Import RulePage Shapes.
Variable JSON_parse : string -> option value.

(** X25. In a successful update, once the loop over the tiers is done,
    the discount of every stored tier that is not among the persisted
    ones is deleted, each deletion accepted, then every discount of the
    persisted tiers is activated or deactivated by the status of the
    rule, and only then is the document written. *)
Theorem successful_update_deletes_then_sets_status (formData : form)
  (params_tableHandle : value) (admin : remote)
  (nextHandle nextTitle nextStatus : string)
  (nextProducts persisted : list value) (log : list call) :
  formData_get "_action" formData = Str "update-rule-settings" ->
  action JSON_parse formData params_tableHandle admin
  = (Returned (Ok (UpdateRuleSettings nextHandle nextTitle nextStatus
                     nextProducts persisted)), log) ->
  update_calls_claim JSON_parse params_tableHandle admin nextStatus persisted
    log.
Proof.
  intros Haction Hran.
  rewrite (action_update JSON_parse _ _ _ Haction), run_completion in Hran.
  destruct (update_rule_settings_cases JSON_parse formData
              (or_else params_tableHandle (Str "")))
    as [[at_ [message [E _]]]|[_ [_ [_ [_ [_ E]]]]]];
    rewrite E in Hran; [discriminate|]. clear E.
  set (tableHandle := or_else params_tableHandle (Str "")) in *.
  rewrite (reconcile_rule_unfold JSON_parse) in Hran. cbv zeta in Hran.
  destruct (findIndex_throwing (handle_matches tableHandle)
              (current_discounts JSON_parse (admin [] ShopQuery)))
    as [[ruleIndex|]|] eqn:Hfind; [|discriminate..].
  set (discounts := current_discounts JSON_parse (admin [] ShopQuery)) in *.
  set (rule := or_else (nth ruleIndex discounts Undefined) (Obj [])) in *.
  destruct (getRuleProductIds rule) as [previous|]; [|discriminate].
  set (ctx := tier_context_of previous (nextProductIds_of JSON_parse formData)
                (as_array (get "tiers" rule))) in *.
  destruct (reconcile_loop_run ctx
              (sort by_min_quantity (parsedTiers_of JSON_parse formData)) []
              admin [ShopQuery]) as [ext [Hlog1 [Hq Hres]]].
  destruct (fold_m (reconcile_tier ctx) _ [] admin [ShopQuery])
    as [[acc|r|] log1]; cbn [fst snd] in Hlog1, Hres;
    [|destruct r; [discriminate | contradiction]|contradiction].
  subst log1.
  set (kept := discount_ids (sort by_min_quantity acc)) in *.
  set (removed := filter (fun id => negb (includes id kept))
                    (discount_ids (as_array (get "tiers" rule)))) in *.
  destruct (delete_loop_run AtRemovedTierErrors admin removed
              ([ShopQuery] ++ ext))
    as [[k [id [_ [_ [_ E]]]]]|[Hok E]]; rewrite E in Hran; [discriminate|].
  clear E.
  match type of Hran with
  | (completion_of (fst (commit ?W ?D ?Aff ?K admin ?pre)), _) = _ =>
      pose proof (commit_run W D Aff K admin pre) as Hc;
      destruct (committed_cases _ _ _ _ _ _ _ Hc)
        as [[_ E]|[[_ [_ E]]|[_ [entries [chunks [_ [_ [_ [[_ E]|[_ E]]]]]]]]]];
      rewrite E in Hran; try discriminate; clear E Hc
  end.
  match type of Hran with
  | (completion_of (fst (update_end ?t ?s ?p ?ts admin ?l)), _) = _ =>
      destruct (update_end_log t s p ts admin l) as [np [ext' [E _]]];
      rewrite E in Hran; clear E
  end.
  cbn [fst snd completion_of] in Hran.
  injection Hran as _ _ Hs _ Hp Hlog. subst persisted nextStatus.
  unfold update_calls_claim. cbv zeta.
  exists ruleIndex, ext. eexists. exists (map MetafieldsSet chunks ++ ext').
  split; [exact Hfind|]. fold discounts rule kept removed.
  split; [|split; [exact Hq | exact Hok]].
  rewrite <- Hlog. cbn [app]. rewrite <- !app_assoc. cbn [app]. reflexivity.
Qed.
End UpdateCalls.

(** ** The products the picker leaves out *)

Section ExcludeQuery.
Import RuleEditor.

Lemma split_chars_none (sep : ascii) (l : list ascii) :
  ~ In sep l -> split_chars sep l = [l].
Proof.
  induction l as [|c l IH]; intros H; simpl; [reflexivity|].
  destruct (Ascii.eqb_spec c sep) as [->|_]; [exfalso; apply H; now left|].
  rewrite IH; [reflexivity|]. intros Hin. apply H. now right.
Qed.

Lemma split_chars_after (sep : ascii) (a b : list ascii) :
  exists part init,
    split_chars sep (a ++ sep :: b) = (part :: init) ++ split_chars sep b.
Proof.
  induction a as [|c a [part [init IH]]]; simpl.
  - rewrite Ascii.eqb_refl. now exists [], [].
  - rewrite IH. destruct (c =? sep)%char.
    + now exists [], (part :: init).
    + now exists (c :: part), init.
Qed.

Lemma numeric_id_of_gid (n : string) :
  ~ In "/"%char (list_ascii_of_string n) ->
  getProductNumericId (Str (PRODUCT_PREFIX ++ n)) = n.
Proof.
  intros H. unfold getProductNumericId, split.
  rewrite list_of_string_app.
  change (list_ascii_of_string PRODUCT_PREFIX)
    with (list_ascii_of_string "gid://shopify/Product" ++ ["/"%char]).
  rewrite <- app_assoc. cbn [app].
  destruct (split_chars_after "/" (list_ascii_of_string "gid://shopify/Product")
              (list_ascii_of_string n)) as [part [init ->]].
  rewrite split_chars_none by exact H.
  rewrite map_app. cbn [map]. rewrite last_last.
  apply string_of_list_ascii_of_string.
Qed.

(** X26. The query that keeps the products of the editor out of the
    picker names each normalized product once, by the number that ends
    its id, in the order of the products. *)
Theorem buildExcludeProductsQuery_numbers (products : value)
  (numbers : list string) :
  normalizeProductIds products
  = map (fun n => PRODUCT_PREFIX ++ n)%string numbers ->
  Forall (fun n => n <> "" /\ ~ In "/"%char (list_ascii_of_string n))
    numbers ->
  buildExcludeProductsQuery products
  = String.concat " " (map (fun n => "-id:" ++ n)%string numbers).
Proof.
  intros E Hn. unfold buildExcludeProductsQuery. rewrite E, map_map.
  do 2 f_equal.
  clear E. induction Hn as [|n ns [Hne Hs] _ IH]; [reflexivity|].
  cbn [map filter]. rewrite numeric_id_of_gid by exact Hs.
  unfold nonempty at 1. destruct (String.eqb_spec n ""); [contradiction|].
  cbn [negb]. now rewrite IH.
Qed.
End ExcludeQuery.

(** ** A discount created without id *)

Section UncheckedId.
Import RulePage IndexPage Shapes.
Variable JSON_parse : string -> option value.

(** X27. add-discount does not check the id of the discount it has
    created: when the service accepts the creation and answers without
    id, the tier is stored all the same, without [discount_id], in the
    document written next, and a later update of the rule will create a
    discount for that tier again. *)
Theorem add_discount_does_not_check_the_id (formData : form)
  (admin : remote) :
  formData_get "_action" formData = Str "add-discount" ->
  add_errors JSON_parse formData = [] ->
  userErrors (admin [ShopQuery] (add_created JSON_parse formData)) = [] ->
  truthy (automaticDiscountNode_id
            (admin [ShopQuery] (add_created JSON_parse formData))) = false ->
  unchecked_id_claim JSON_parse formData admin.
Proof.
  intros Haction Herr Hcreated Hid. unfold unchecked_id_claim. cbv zeta.
  rewrite (action_add _ _ _ Haction), run_completion. cbn [snd].
  rewrite (add_discount_unfold JSON_parse). cbv zeta.
  fold (add_title formData) (add_discountTitle formData)
    (add_minimumQuantity formData) (add_percentOff formData).
  fold (add_productIds JSON_parse formData).
  fold (add_errors JSON_parse formData). rewrite Herr.
  fold (add_created JSON_parse formData). rewrite Hcreated, Hid.
  cbn [List.length Nat.ltb Nat.leb andb]. rewrite andb_false_r.
  set (discounts := current_discounts JSON_parse (admin [] ShopQuery)).
  set (tier := newTier _ _ _ _).
  assert (Hcreate : shouldCreateDiscount tier = true).
  { unfold shouldCreateDiscount, tier, newTier.
    cbn [get lookup String.eqb Ascii.eqb Bool.eqb].
    destruct (automaticDiscountNode_id _) as [| | | | |s| |];
      try reflexivity; simpl in Hid |- *; now rewrite Hid. }
  destruct (findIndex _ discounts) as [i|] eqn:Hfind.
  - destruct (titled_not_null _ _ _ Hfind) as [fields [Hnth [Hn Ht]]].
    rewrite Hn.
    destruct (getRuleProductIds_not_null (Obj fields)) as [previous ->];
      [discriminate|].
    match goal with
    | |- context [commit ?W ?D ?Aff ?K admin ?pre] =>
        destruct (committed_return W D Aff (Ok AddDiscount) admin pre _
                    (commit_run W D Aff K admin pre)) as [chunks ->]
    end.
    eexists. exists chunks. eexists. exists (as_array (get "tiers" (Obj fields))).
    split; [reflexivity|]. split; [|split; [|split; [|split]]].
    + unfold add_tier. rewrite Hn. eapply nth_error_In.
      apply set_nth_same. apply nth_error_Some. now rewrite Hnth.
    + cbn [get]. rewrite !lookup_assign_other by discriminate.
      apply lookup_assign_same.
    + cbn [get]. apply lookup_assign_same.
    + reflexivity.
    + exact Hcreate.
  - match goal with
    | |- context [commit ?W ?D ?Aff ?K admin ?pre] =>
        destruct (committed_return W D Aff (Ok AddDiscount) admin pre _
                    (commit_run W D Aff K admin pre)) as [chunks ->]
    end.
    eexists. exists chunks. eexists. exists [].
    split; [reflexivity|]. split; [|split; [|split; [|split]]].
    + unfold add_tier. apply in_or_app. right. now left.
    + reflexivity.
    + reflexivity.
    + reflexivity.
    + exact Hcreate.
Qed.
End UncheckedId.

(** ** The answers to the calls that set a status *)

Section StatusAnswers.
Import RulePage Shapes.
Variable JSON_parse : string -> option value.

Lemma blind_ret {R A : Type} (a : A) : status_blind (ret (R := R) a).
Proof. now intros admin admin' log _. Qed.

Lemma blind_return {R A : Type} (r : R) : status_blind (return_ (A := A) r).
Proof. now intros admin admin' log _. Qed.

Lemma blind_lift {R A : Type} (o : option A) : status_blind (lift (R := R) o).
Proof. intros admin admin' log _. now destruct o. Qed.

Lemma blind_bind {R A B : Type} (m : M R A) (k : A -> M R B) :
  status_blind m -> (forall a, status_blind (k a)) -> status_blind (bind m k).
Proof.
  intros Hm Hk admin admin' log H. unfold bind. rewrite (Hm admin admin' log H).
  destruct (m admin' log) as [[a|r|] log']; auto. now apply Hk.
Qed.

Lemma blind_graphql {R B : Type} (c : call) (k : response -> M R B) :
  is_status_call c = false -> (forall r, status_blind (k r)) ->
  status_blind (bind (graphql c) k).
Proof.
  intros Hc Hk admin admin' log H. rewrite !bind_graphql.
  rewrite (H log c Hc). now apply Hk.
Qed.

(** The answer to a call is not read. *)
Lemma blind_unread {R B : Type} (c : call) (k : M R B) :
  status_blind k -> status_blind (bind (graphql c) (fun _ => k)).
Proof. intros Hk admin admin' log H. rewrite !bind_graphql. now apply Hk. Qed.

Lemma blind_fold_m {R A S : Type} (body : S -> A -> M R S) (l : list A)
  (s : S) :
  (forall s x, status_blind (body s x)) -> status_blind (fold_m body l s).
Proof.
  intros Hb. revert s. induction l as [|x l IH]; intros s; simpl.
  - apply blind_ret.
  - apply blind_bind; auto.
Qed.

Lemma blind_for_each {R A : Type} (body : A -> M R unit) (l : list A) :
  (forall x, status_blind (body x)) -> status_blind (for_each body l).
Proof.
  intros Hb. induction l as [|x l IH]; simpl.
  - apply blind_ret.
  - apply blind_bind; auto.
Qed.

Ltac blind :=
  repeat first
    [ apply blind_ret
    | apply blind_return
    | apply blind_lift
    | apply blind_unread
    | apply blind_graphql; [reflexivity | intros ?]
    | apply blind_fold_m; intros ? ?
    | apply blind_for_each; intros ?
    | apply blind_bind; [|intros ?]
    | match goal with
      | |- status_blind (if ?b then _ else _) => destruct b
      | |- status_blind (match ?x with _ => _ end) => destruct x
      end ].

Lemma blind_recompute {R : Type} (discounts affected : value) :
  status_blind
    (recomputeProductDiscountProjectionMetafields (R := R) discounts affected).
Proof.
  unfold recomputeProductDiscountProjectionMetafields, write_chunk. blind.
Qed.

Lemma blind_summaries {R : Type} (ids : list string) :
  status_blind (fetchProductSummaries (R := R) ids).
Proof. unfold fetchProductSummaries. blind. Qed.

Lemma blind_reconcile_tier (ctx : tier_context) (acc : list value)
  (tier : value) :
  status_blind (reconcile_tier ctx acc tier).
Proof. unfold reconcile_tier. blind. Qed.

Lemma blind_action_body (formData : form) (params_tableHandle : value) :
  status_blind (action_body JSON_parse formData params_tableHandle).
Proof.
  unfold action_body, delete_rule, update_rule_settings, reconcile_rule,
    delete_discount, set_status.
  cbv zeta.
  blind; first [apply blind_recompute | apply blind_summaries
               | apply blind_reconcile_tier | idtac].
Qed.

(** X28. The answers to the calls that activate or deactivate a discount
    are not read: two services that differ only in these answers lead the
    actions of the rule page to the same calls and the same result, so
    that an error reported there is not reported by the action. *)
Theorem status_answers_are_ignored (formData : form)
  (params_tableHandle : value) (admin admin' : remote) :
  same_but_status admin admin' ->
  action JSON_parse formData params_tableHandle admin
  = action JSON_parse formData params_tableHandle admin'.
Proof.
  intros H. unfold action, run.
  now rewrite (blind_action_body formData params_tableHandle admin admin' [] H).
Qed.

Lemma blind_add_discount (formData : form) :
  status_blind (IndexPage.action_body JSON_parse formData).
Proof.
  unfold IndexPage.action_body, IndexPage.add_discount. cbv zeta.
  blind; first [apply blind_recompute | idtac].
Qed.

(** X29. Likewise on the index page: the answer to the deactivation of a
    discount created for an inactive rule is not read, and an error
    reported there does not change what add-discount does. *)
Theorem deactivation_answer_is_ignored (formData : form)
  (admin admin' : remote) :
  same_but_status admin admin' ->
  IndexPage.action JSON_parse formData admin
  = IndexPage.action JSON_parse formData admin'.
Proof.
  intros H. unfold IndexPage.action, run.
  now rewrite (blind_add_discount formData admin admin' [] H).
Qed.
End StatusAnswers.

(** ** The further theorems at work on the examples *)

Section Scenes.
Import RulePage RuleEditor Shapes Fixtures Scenes.

Lemma getRuleProductIds_direct_or_tiers_witness :
  rule_by_tiers <> Null
  /\ getRuleProductIds rule_by_tiers = Some [P2; P1; P3].
Proof.
  split; [discriminate|].
  rewrite (getRuleProductIds_direct_or_tiers rule_by_tiers); [|discriminate].
  vm_compute. reflexivity.
Defined.

Lemma chunkArray_full_chunks_witness :
  (0 < 2)%nat
  /\ exists chunks,
       chunkArray [P1; P2; P3] 2 = Some chunks /\
       List.concat chunks = [P1; P2; P3].
Proof.
  split; [lia|].
  destruct (chunkArray_full_chunks [P1; P2; P3] 2) as [chunks [E [Hc _]]];
    [lia|].
  exists chunks. split; [exact E | exact Hc].
Defined.

Lemma chunkArray_size_zero_witness :
  [P1] <> [] /\ chunkArray_loop 7 [P1] 0 0 = None.
Proof.
  split; [discriminate|].
  apply (proj1 (chunkArray_size_zero [P1])). discriminate.
Defined.



Lemma unchanged_tier_makes_no_call_witness :
  NoDup [P1; P2] /\ NoDup [P2; P1]
  /\ (forall x, In x [P1; P2] <-> In x [P2; P1])
  /\ NoDup (discount_ids tiers_a)
  /\ In (stored_tier "T10" 10 20 "D2") tiers_a
  /\ reconcile_tier (tier_context_of [P1; P2] [P2; P1] tiers_a) []
       (parse_tier (tier_text "T10" "10" "20" "D2")) accepting [ShopQuery]
     = (Continue [parse_tier (tier_text "T10" "10" "20" "D2")],
        [ShopQuery]).
Proof.
  assert (H12 : NoDup [P1; P2])
    by (repeat constructor; simpl; intuition discriminate).
  assert (H21 : NoDup [P2; P1])
    by (repeat constructor; simpl; intuition discriminate).
  assert (Hsame : forall x, In x [P1; P2] <-> In x [P2; P1])
    by (intros x; simpl; tauto).
  assert (Hd : NoDup (discount_ids tiers_a))
    by (repeat constructor; simpl; intuition discriminate).
  assert (Hin : In (stored_tier "T10" 10 20 "D2") tiers_a)
    by (right; now left).
  repeat (split; [assumption|]).
  apply (unchanged_tier_makes_no_call [P1; P2] [P2; P1] tiers_a
           (stored_tier "T10" 10 20 "D2") "T10" "D2" 10 20 [] accepting
           [ShopQuery] H12 H21 Hsame Hd Hin);
    first [reflexivity | discriminate].
Defined.

Lemma zero_percent_tier_is_always_updated_witness :
  NoDup (discount_ids [free_tier]) /\ In free_tier [free_tier]
  /\ get "discount_id" free_tier = Str "D7" /\ "D7" <> ""
  /\ get "percent_off" free_tier = Num 0
  /\ get "discount_id" (parse_tier (tier_text "Free" "3" "0" "D7")) = Str "D7"
  /\ [P1] <> []
  /\ tierChanged (tier_context_of [P1] [P1] [free_tier])
       (parse_tier (tier_text "Free" "3" "0" "D7")) = true.
Proof.
  assert (Hd : NoDup (discount_ids [free_tier]))
    by (repeat constructor; simpl; intuition discriminate).
  assert (Hin : In free_tier [free_tier]) by now left.
  split; [exact Hd|]. split; [exact Hin|].
  split; [reflexivity|]. split; [discriminate|]. split; [reflexivity|].
  split; [reflexivity|]. split; [discriminate|].
  apply (zero_percent_tier_is_always_updated [P1] [P1] [free_tier] free_tier
           (parse_tier (tier_text "Free" "3" "0" "D7")) "D7" [] accepting
           [ShopQuery] Hd Hin);
    first [reflexivity | discriminate].
Defined.

Lemma cloneEditorState_of_built_witness :
  buildEditorState rule_a = Some state_a
  /\ cloneEditorState state_a = state_a.
Proof.
  split; [reflexivity|].
  apply (cloneEditorState_of_built rule_a state_a). reflexivity.
Defined.

Lemma buildEditorState_idempotent_witness :
  buildEditorState rule_a = Some state_a
  /\ buildEditorState state_a = Some state_a.
Proof.
  split; [reflexivity|].
  apply (buildEditorState_idempotent rule_a state_a). reflexivity.
Defined.

Lemma removeTier_keeps_a_tier_witness :
  [free_tier] <> [] /\ removeTier 0 [free_tier] <> [].
Proof.
  split; [discriminate|].
  apply (removeTier_keeps_a_tier 0 [free_tier]). discriminate.
Defined.

Lemma removeProduct_keeps_a_product_witness :
  map (get "id") [shown P1 "One"; shown P2 "Two"] = map Str [P1; P2]
  /\ NoDup [P1; P2]
  /\ [shown P1 "One"; shown P2 "Two"] <> []
  /\ removeProduct (Str P1) [shown P1 "One"; shown P2 "Two"] <> [].
Proof.
  assert (H12 : NoDup [P1; P2])
    by (repeat constructor; simpl; intuition discriminate).
  split; [reflexivity|]. split; [exact H12|]. split; [discriminate|].
  apply (removeProduct_keeps_a_product (Str P1)
           [shown P1 "One"; shown P2 "Two"] [P1; P2]);
    first [reflexivity | exact H12 | discriminate].
Defined.

Lemma addProducts_appends_the_new_witness :
  map (get "id") [shown P1 "One"; shown P2 "Two"] = map Str [P1; P2]
  /\ NoDup [P1; P2]
  /\ map (get "id") [shown P2 "Two again"; shown P3 "Three"] = map Str [P2; P3]
  /\ NoDup [P2; P3]
  /\ addProducts [shown P2 "Two again"; shown P3 "Three"]
       [shown P1 "One"; shown P2 "Two"]
     = [shown P1 "One"; shown P2 "Two"; shown P3 "Three"].
Proof.
  assert (H12 : NoDup [P1; P2])
    by (repeat constructor; simpl; intuition discriminate).
  assert (H23 : NoDup [P2; P3])
    by (repeat constructor; simpl; intuition discriminate).
  split; [reflexivity|]. split; [exact H12|].
  split; [reflexivity|]. split; [exact H23|].
  rewrite (addProducts_appends_the_new
             [shown P2 "Two again"; shown P3 "Three"]
             [shown P1 "One"; shown P2 "Two"] [P1; P2] [P2; P3]
             eq_refl H12 eq_refl H23).
  reflexivity.
Defined.

Lemma index_rows_and_their_links_witness :
  IndexList.loader parse accepting = (Returned rows, [ShopQuery])
  /\ rows_claim (current_discounts parse (accepting [] ShopQuery)) rows.
Proof.
  split; [reflexivity|].
  apply (index_rows_and_their_links parse accepting rows [ShopQuery]).
  reflexivity.
Defined.

Lemma rule_added_under_a_taken_handle_witness :
  findIndex (fun discount => strict_eq (get "title" discount) (Str "rule a"))
    rules = None
  /\ findIndex_throwing (handle_matches (Str (toKebabCase "rule a"))) rules
     = Some (Some 0%nat)
  /\ findIndex_throwing (handle_matches (Str (toKebabCase "rule a")))
       (IndexPage.add_tier rules
          (findIndex
             (fun discount => strict_eq (get "title" discount) (Str "rule a"))
             rules)
          "rule a" [P3] free_tier)
     = Some (Some 0%nat).
Proof.
  split; [reflexivity|]. split; [reflexivity|].
  apply (rule_added_under_a_taken_handle rules "rule a" [P3] free_tier 0);
    reflexivity.
Defined.

Lemma unknown_handle_changes_nothing_witness :
  findIndex_throwing (handle_matches (or_else (Str "no-rule") (Str "")))
    (current_discounts parse (accepting [] ShopQuery))
  = Some None
  /\ exists at_ errors log,
       action parse delete_form (Str "no-rule") accepting
       = (Returned (Failed at_ errors), log) /\
       (log = []
        \/ (log = [ShopQuery] /\ at_ = AtRuleNotFound
            /\ errors = ["Rule not found."])).
Proof.
  split; [reflexivity|].
  apply (unknown_handle_changes_nothing parse delete_form (Str "no-rule")
           accepting).
  reflexivity.
Defined.

Lemma successful_update_deletes_then_sets_status_witness :
  formData_get "_action" (update_form "tiers as stored")
  = Str "update-rule-settings"
  /\ action parse (update_form "tiers as stored") (Str "rule-a") accepting
     = (Returned (Ok (UpdateRuleSettings "rule-a" "Rule A" "active"
                        update_products update_tiers)), snd update_run)
  /\ update_calls_claim parse (Str "rule-a") accepting "active" update_tiers
       (snd update_run).
Proof.
  split; [reflexivity|]. split; [vm_compute; reflexivity|].
  apply (successful_update_deletes_then_sets_status parse
           (update_form "tiers as stored") (Str "rule-a") accepting "rule-a"
           "Rule A" "active" update_products update_tiers (snd update_run));
    vm_compute; reflexivity.
Defined.

Lemma buildExcludeProductsQuery_numbers_witness :
  normalizeProductIds (Arr [Str P1; shown P2 "Two"])
  = map (fun n => PRODUCT_PREFIX ++ n)%string ["1"; "2"]
  /\ Forall (fun n => n <> "" /\ ~ In "/"%char (list_ascii_of_string n))
       ["1"; "2"]
  /\ buildExcludeProductsQuery (Arr [Str P1; shown P2 "Two"])
     = "-id:1 -id:2".
Proof.
  assert (Hn : Forall (fun n => n <> ""
                                /\ ~ In "/"%char (list_ascii_of_string n))
                 ["1"; "2"]).
  { repeat constructor; try discriminate; simpl; intuition discriminate. }
  split; [reflexivity|]. split; [exact Hn|].
  rewrite (buildExcludeProductsQuery_numbers (Arr [Str P1; shown P2 "Two"])
             ["1"; "2"] eq_refl Hn).
  reflexivity.
Defined.

Lemma loader_shows_the_rule_of_the_actions_witness :
  loader_claim parse (Str "rule-b") accepting.
Proof. apply (loader_shows_the_rule_of_the_actions parse). Defined.

Lemma bootstrap_never_overwrites_witness :
  fst (fst (ShopifyServer.ensureQuantityBreaksMetafield fresh_shop))
  = ShopifyServer.Done.
Proof. apply (proj1 (bootstrap_never_overwrites fresh_shop)). Defined.

Lemma add_discount_does_not_check_the_id_witness :
  formData_get "_action" add_form = Str "add-discount"
  /\ add_errors parse add_form = []
  /\ userErrors (without_id [ShopQuery] (add_created parse add_form)) = []
  /\ truthy (automaticDiscountNode_id
               (without_id [ShopQuery] (add_created parse add_form))) = false
  /\ unchecked_id_claim parse add_form without_id.
Proof.
  repeat (split; [reflexivity|]).
  apply (add_discount_does_not_check_the_id parse add_form without_id);
    reflexivity.
Defined.

Lemma accepting_but_status : same_but_status accepting refusing_status.
Proof. intros log c H. unfold accepting, refusing_status. now rewrite H. Qed.

Lemma status_answers_are_ignored_witness :
  same_but_status accepting refusing_status
  /\ action parse (update_form "tiers as stored") (Str "rule-a")
       refusing_status
     = update_run.
Proof.
  split; [exact accepting_but_status|].
  rewrite <- (status_answers_are_ignored parse (update_form "tiers as stored")
                (Str "rule-a") accepting refusing_status accepting_but_status).
  vm_compute. reflexivity.
Defined.

Lemma deactivation_answer_is_ignored_witness :
  same_but_status accepting refusing_status
  /\ IndexPage.action parse add_form refusing_status
     = IndexPage.action parse add_form accepting.
Proof.
  split; [exact accepting_but_status|].
  symmetry.
  apply (deactivation_answer_is_ignored parse add_form accepting
           refusing_status accepting_but_status).
Defined.
End Scenes.
